(** * QuectelGnssRK: GNSS acquisition engine

    A shallow embedding of [QuectelGnssRK.cpp] / [QuectelGnssRK.h]: the
    response parsers ([parseCmeError], [parseQloc], [parseQlocResponse],
    [parseEpeResponse]), the constellation table ([setConstellation]), the
    worker's acquisition ([threadLoop]), the caller-side entry points
    ([getLocation], [getLocationAsync]) and the payload serialization
    ([toJsonWriter], [buildPublish]).

    Conventions.
    - C strings are [list ascii]: the characters before the terminating NUL.
    - [unsigned int], [uint32_t] and [uint64_t] values are [Z] with the
      wrap-around written out; the local [int fixCount] is a plain [Z].
    - [float] and [double] values are the exact rationals ([Q]) denoted by
      the decimal text; binary rounding is not part of the model, and the
      spellings "inf" and "nan" (which have no rational value) are not
      accepted by the float scanner.
    - The outside world (modem, clock, pins, cloud) is an explicit log of
      the calls made plus explicit observations handed to each function:
      what [isModemOn], [System.millis], [Time.now], the response callbacks
      and [Particle.publish] return. Calls on the logger are left out.
    - Each function is one sequential step on the engine state; the two
      threads are not interleaved inside a function. *)

From Stdlib Require Import ZArith QArith List String Ascii Bool Lia.
From Stdlib Require Import DecimalString.
Import ListNotations.

Local Open Scope Z_scope.

(** ** C strings and character classes *)

Definition cstr (s : string) : list ascii := list_ascii_of_string s.

Definition dquote : ascii := ascii_of_nat 34.

Definition isspace (c : ascii) : bool :=
  let n := nat_of_ascii c in
  (Nat.eqb n 32 || (Nat.leb 9 n && Nat.leb n 13))%bool.

Definition isdigit (c : ascii) : bool :=
  let n := nat_of_ascii c in (Nat.leb 48 n && Nat.leb n 57)%bool.

Definition digit_val (c : ascii) : Z := Z.of_nat (nat_of_ascii c) - 48.

Definition UINT_MAX : Z := 4294967295.

Definition to_uint (z : Z) : Z := z mod 4294967296.

(** [(int)u] for an [unsigned int] u, as the ARM GCC target converts it. *)
Definition uint_to_int (u : Z) : Z :=
  if u <? 2147483648 then u else u - 4294967296.

Definition to_uint64 (z : Z) : Z := z mod 18446744073709551616.

(** ** A model of [sscanf] for the three formats of the library

    Only what the formats use is modelled: white-space directives, ordinary
    characters, [%u] with an optional maximum field width and optional
    assignment suppression, and [%f] / [%lf]. The behaviour follows the C
    standard (7.21.6.2) and, where the standard leaves room, newlib, the C
    library of the target. *)

Module Scanf.

Inductive directive : Type :=
| DWs                                        (* white space in the format *)
| DLit (c : ascii)                           (* an ordinary character *)
| DUint (width : option nat) (assign : bool) (* %u, %02u, %*03u *)
| DFloat (assign : bool).                    (* %f, %lf *)

Inductive sval : Type :=
| VUint (z : Z)
| VFloat (q : Q).

Inductive scan_result (A : Type) : Type :=
| Matched (v : A) (rest : list ascii)
| MatchFailure
| InputFailure.

Arguments Matched {A} v rest.
Arguments MatchFailure {A}.
Arguments InputFailure {A}.

Fixpoint skip_ws (s : list ascii) : list ascii :=
  match s with
  | c :: t => if isspace c then skip_ws t else s
  | [] => []
  end.

(** The longest run of decimal digits at the head of [s], at most [w] long. *)
Fixpoint digits_upto (w : nat) (s : list ascii) : list ascii * list ascii :=
  match w, s with
  | S w', c :: t =>
      if isdigit c
      then let (d, r) := digits_upto w' t in (c :: d, r)
      else ([], s)
  | _, _ => ([], s)
  end.

Definition dec_value (ds : list ascii) : Z :=
  fold_left (fun a c => 10 * a + digit_val c) ds 0.

(** [strtoul] in base 10 on a 32-bit [unsigned long]: saturation on
    overflow, two's-complement negation after a minus sign. *)
Definition strtoul_value (neg : bool) (v : Z) : Z :=
  if UINT_MAX <? v then UINT_MAX
  else if neg then to_uint (- v) else v.

Definition is_sign (c : ascii) : bool :=
  (Ascii.eqb c "+" || Ascii.eqb c "-")%bool.

Definition eff_width (width : option nat) (s : list ascii) : nat :=
  match width with
  | Some n => n
  | None => List.length s
  end.

Definition scan_uint (width : option nat) (s : list ascii) : scan_result Z :=
  match skip_ws s with
  | [] => InputFailure
  | c :: t =>
      let w := eff_width width (c :: t) in
      let '(neg, w1, s1) :=
        if is_sign c then (Ascii.eqb c "-", Nat.pred w, t)
        else (false, w, c :: t) in
      match digits_upto w1 s1 with
      | ([], _) => MatchFailure
      | (ds, rest) => Matched (strtoul_value neg (dec_value ds)) rest
      end
  end.

(** Decimal floating literal: sign, digits with an optional point (at least
    one digit), and an exponent that is taken only when it is complete (an
    'e' that no digit follows is pushed back, as newlib does). *)
Definition scale10 (q : Q) (e : Z) : Q :=
  if 0 <=? e then q * inject_Z (10 ^ e)
  else q / inject_Z (10 ^ (- e)).

Definition scan_exponent (s : list ascii) : Z * list ascii :=
  match s with
  | c :: t =>
      if (Ascii.eqb c "e" || Ascii.eqb c "E")%bool then
        let '(neg, s1) :=
          match t with
          | c1 :: t1 => if is_sign c1 then (Ascii.eqb c1 "-", t1) else (false, t)
          | [] => (false, t)
          end in
        match digits_upto (List.length s1) s1 with
        | ([], _) => (0, s)
        | (ds, rest) => ((if neg then - dec_value ds else dec_value ds), rest)
        end
      else (0, s)
  | [] => (0, s)
  end.

Definition scan_float (s : list ascii) : scan_result Q :=
  match skip_ws s with
  | [] => InputFailure
  | c :: t =>
      let '(neg, s1) :=
        if is_sign c then (Ascii.eqb c "-", t) else (false, c :: t) in
      let (ip, s2) := digits_upto (List.length s1) s1 in
      let (fp, s3) :=
        match s2 with
        | d :: t2 =>
            if Ascii.eqb d "." then digits_upto (List.length t2) t2
            else ([], s2)
        | [] => ([], s2)
        end in
      match ip ++ fp with
      | [] => MatchFailure
      | ds =>
          let (e, rest) := scan_exponent s3 in
          let m := dec_value ds in
          let q := scale10 (inject_Z (if neg then - m else m))
                     (e - Z.of_nat (List.length fp)) in
          Matched (Qred q) rest
      end
  end.

(** The outcome of a whole scan: the values assigned so far, in order, and
    whether the scan stopped on an input failure (end of input). *)
Fixpoint run (fmt : list directive) (s : list ascii) (acc : list sval)
  : list sval * bool :=
  match fmt with
  | [] => (acc, false)
  | DWs :: fmt' => run fmt' (skip_ws s) acc
  | DLit c :: fmt' =>
      match s with
      | [] => (acc, true)
      | d :: t => if Ascii.eqb c d then run fmt' t acc else (acc, false)
      end
  | DUint width assign :: fmt' =>
      match scan_uint width s with
      | Matched v rest =>
          run fmt' rest (if assign then acc ++ [VUint v] else acc)
      | MatchFailure => (acc, false)
      | InputFailure => (acc, true)
      end
  | DFloat assign :: fmt' =>
      match scan_float s with
      | Matched v rest =>
          run fmt' rest (if assign then acc ++ [VFloat v] else acc)
      | MatchFailure => (acc, false)
      | InputFailure => (acc, true)
      end
  end.

Definition EOF : Z := -1.

(** The return value of [sscanf]: the number of assigned items, or [EOF]
    when the input ended before anything was assigned. *)
Definition nargs_of (r : list sval * bool) : Z :=
  match r with
  | ([], true) => EOF
  | (vals, _) => Z.of_nat (List.length vals)
  end.

(** Reading a format string: white space, [%[*][width][l](u|f)], or an
    ordinary character. *)
Fixpoint read_width (s : list ascii) (w : option nat)
  : option nat * list ascii :=
  match s with
  | c :: t =>
      if isdigit c then
        read_width t
          (Some (10 * match w with Some n => n | None => 0 end
                 + Z.to_nat (digit_val c))%nat)
      else (w, s)
  | [] => (w, s)
  end.

Fixpoint parse_format_aux (fuel : nat) (s : list ascii) : list directive :=
  match fuel with
  | O => []
  | S fuel' =>
      match s with
      | [] => []
      | c :: t =>
          if isspace c then DWs :: parse_format_aux fuel' (skip_ws t)
          else if Ascii.eqb c "%" then
            let '(assign, t1) :=
              match t with
              | c1 :: t1 => if Ascii.eqb c1 "*" then (false, t1) else (true, t)
              | [] => (true, t)
              end in
            let (w, t2) := read_width t1 None in
            let t3 :=
              match t2 with
              | c3 :: t3 => if Ascii.eqb c3 "l" then t3 else t2
              | [] => t2
              end in
            match t3 with
            | c4 :: t4 =>
                if Ascii.eqb c4 "u" then DUint w assign :: parse_format_aux fuel' t4
                else if Ascii.eqb c4 "f" then DFloat assign :: parse_format_aux fuel' t4
                else []
            | [] => []
            end
          else DLit c :: parse_format_aux fuel' t
      end
  end.

Definition parse_format (s : list ascii) : list directive :=
  parse_format_aux (List.length s) s.

Definition sscanf (buf fmt : list ascii) : list sval * bool :=
  run (parse_format fmt) buf [].

End Scanf.

(** ** Data model ([QuectelGnssRK.h]) *)

Record LocationPoint : Type := mkLocationPoint {
  fix_ : Z;                 (* unsigned int fix; [fix] is a keyword *)
  epochTime : Z;            (* time_t *)
  systemTime : Z;           (* time32_t *)
  latitude : Q;
  longitude : Q;
  altitude : Q;
  speed : Q;
  heading : Q;
  horizontalAccuracy : Q;
  horizontalDop : Q;
  verticalAccuracy : Q;
  verticalDop : Q;
  timeToFirstFix : Q;
  satsInUse : Z             (* unsigned int *)
}.

(** [memset(&point, 0, sizeof(LocationPoint))] *)
Definition LocationPoint_zero : LocationPoint :=
  mkLocationPoint 0 0 0 0 0 0 0 0 0 0 0 0 0 0.

Inductive LocationConstellation_value : Type :=
| LOCATION_CONST_GPS_ONLY
| LOCATION_CONST_GPS_GLONASS
| LOCATION_CONST_GPS_BEIDOU
| LOCATION_CONST_GPS_GALILEO
| LOCATION_CONST_GPS_QZSS.

(** The enumerators' values: 0, 1 << 0, 1 << 1, 1 << 2, 1 << 3. *)
Definition constellation_bits (c : LocationConstellation_value) : Z :=
  match c with
  | LOCATION_CONST_GPS_ONLY => 0
  | LOCATION_CONST_GPS_GLONASS => Z.shiftl 1 0
  | LOCATION_CONST_GPS_BEIDOU => Z.shiftl 1 1
  | LOCATION_CONST_GPS_GALILEO => Z.shiftl 1 2
  | LOCATION_CONST_GPS_QZSS => Z.shiftl 1 3
  end.

Inductive LocationCommand : Type :=
| Cmd_None
| Cmd_Acquire
| Cmd_Exit.

Inductive LocationResults : Type :=
| Unavailable
| Unsupported
| Idle
| Acquiring
| Pending
| Fixed
| TimedOut.

Definition LocationResults_eqb (a b : LocationResults) : bool :=
  match a, b with
  | Unavailable, Unavailable | Unsupported, Unsupported | Idle, Idle
  | Acquiring, Acquiring | Pending, Pending | Fixed, Fixed
  | TimedOut, TimedOut => true
  | _, _ => false
  end.

Inductive CME_Error : Type :=
| NONE
| FIX
| SESSION_IS_ONGOING
| SESSION_NOT_ACTIVE
| OPERATION_TIMEOUT
| NO_FIX
| GNSS_IS_WORKING
| UNKNOWN_ERROR
| UNDEFINED.

Definition CME_code (e : CME_Error) : Z :=
  match e with
  | NONE => 0
  | FIX => 1
  | SESSION_IS_ONGOING => 504
  | SESSION_NOT_ACTIVE => 505
  | OPERATION_TIMEOUT => 506
  | NO_FIX => 516
  | GNSS_IS_WORKING => 522
  | UNKNOWN_ERROR => 549
  | UNDEFINED => 999
  end.

Definition CME_eqb (a b : CME_Error) : bool := CME_code a =? CME_code b.

Module ModemType.
Inductive t : Type :=
| Unavailable
| Unsupported
| BG95_M5
| EG91.

Definition eqb (a b : t) : bool :=
  match a, b with
  | Unavailable, Unavailable | Unsupported, Unsupported
  | BG95_M5, BG95_M5 | EG91, EG91 => true
  | _, _ => false
  end.
End ModemType.

(** [std::tm], with the fields the library writes and the ones [mktime]
    fills in. *)
Module Tm.
Record t : Type := mk {
  tm_sec : Z; tm_min : Z; tm_hour : Z;
  tm_mday : Z; tm_mon : Z; tm_year : Z;
  tm_wday : Z; tm_yday : Z; tm_isdst : Z
}.
Definition zero : t := mk 0 0 0 0 0 0 0 0 0.
End Tm.

Module Qloc.
Record Context : Type := mkContext {
  tm_hour : Z; tm_min : Z; tm_sec : Z;
  tm_day : Z; tm_month : Z; tm_year : Z;
  latitude : Q; longitude : Q;
  fix_ : Z;
  hdop : Q; altitude : Q;
  cogDegrees : Z; cogMinutes : Z;
  speedKmph : Q; speedKnots : Q;
  nsat : Z;
  timeinfo : Tm.t
}.
Definition zero : Context :=
  mkContext 0 0 0 0 0 0 0 0 0 0 0 0 0 0 0 0 Tm.zero.
End Qloc.

Module Epe.
Record Context : Type := mkContext {
  h_acc : Q; v_acc : Q; speed_acc : Q; head_acc : Q
}.
Definition zero : Context := mkContext 0 0 0 0.
End Epe.

(** The i-th assigned item of a scan, or the target's old value when the
    scan stopped before it. *)
Definition uint_arg (vals : list Scanf.sval) (i : nat) (old : Z) : Z :=
  match nth_error vals i with
  | Some (Scanf.VUint z) => z
  | _ => old
  end.

Definition float_arg (vals : list Scanf.sval) (i : nat) (old : Q) : Q :=
  match nth_error vals i with
  | Some (Scanf.VFloat q) => q
  | _ => old
  end.

(** ** A reference [mktime] for a target whose local time is UTC

    [mktime] belongs to the C library; the parser below takes it as a
    parameter. This instance (proleptic Gregorian calendar, no daylight
    saving) is what the examples are run with. *)
Module MktimeUtc.

Definition days_from_civil (y m d : Z) : Z :=
  let y' := if m <=? 2 then y - 1 else y in
  let era := y' / 400 in
  let yoe := y' - era * 400 in
  let mp := (m + 9) mod 12 in
  let doy := (153 * mp + 2) / 5 + d - 1 in
  let doe := yoe * 365 + yoe / 4 - yoe / 100 + doy in
  era * 146097 + doe - 719468.

Definition civil_from_days (z0 : Z) : Z * Z * Z :=
  let z := z0 + 719468 in
  let era := z / 146097 in
  let doe := z - era * 146097 in
  let yoe := (doe - doe / 1460 + doe / 36524 - doe / 146096) / 365 in
  let doy := doe - (365 * yoe + yoe / 4 - yoe / 100) in
  let mp := (5 * doy + 2) / 153 in
  let d := doy - (153 * mp + 2) / 5 + 1 in
  let m := if mp <? 10 then mp + 3 else mp - 9 in
  let y := yoe + era * 400 + (if m <=? 2 then 1 else 0) in
  (y, m, d).

Definition mktime (tm : Tm.t) : Z * Tm.t :=
  let months := Tm.tm_year tm * 12 + Tm.tm_mon tm in
  let y := 1900 + months / 12 in
  let m := months mod 12 + 1 in
  let days := days_from_civil y m 1 + (Tm.tm_mday tm - 1) in
  let t := days * 86400 + Tm.tm_hour tm * 3600
           + Tm.tm_min tm * 60 + Tm.tm_sec tm in
  let dn := t / 86400 in
  let sod := t mod 86400 in
  let '(cy, cm, cd) := civil_from_days dn in
  (t, Tm.mk (sod mod 60) ((sod / 60) mod 60) (sod / 3600)
        cd (cm - 1) (cy - 1900)
        ((dn + 4) mod 7) (dn - days_from_civil cy 1 1) 0).

End MktimeUtc.

(** ** Response parser *)

Definition CME_FORMAT : list ascii := cstr " +CME ERROR: %u".

Definition QLOC_FORMAT : list ascii :=
  cstr " +QGPSLOC: %02u%02u%02u.%*03u,%lf,%lf,%f,%f,%u,%03u.%02u,%f,%f,%02u%02u%02u,%u".

(** The format holds two quotes: [" +QGPSCFG: \"estimation_error\",%f,%f,%f,%f"]. *)
Definition EPE_FORMAT : list ascii :=
  cstr " +QGPSCFG: " ++ [dquote] ++ cstr "estimation_error" ++ [dquote]
  ++ cstr ",%f,%f,%f,%f".

Definition parseCmeError (buf : list ascii) : CME_Error :=
  let r := Scanf.sscanf buf CME_FORMAT in
  let error_code := uint_arg (fst r) 0 0 in
  let nargs := Scanf.nargs_of r in
  if nargs =? 0 then NONE
  else
    match error_code with
    | 504 => SESSION_IS_ONGOING
    | 505 => SESSION_NOT_ACTIVE
    | 506 => OPERATION_TIMEOUT
    | 516 => NO_FIX
    | 522 => GNSS_IS_WORKING
    | 549 => UNKNOWN_ERROR
    | _ => UNDEFINED
    end.

(** The sixteen targets of the fix-report scan, in argument order. *)
Definition scan_into_qloc (vals : list Scanf.sval) (c : Qloc.Context)
  : Qloc.Context :=
  {| Qloc.tm_hour := uint_arg vals 0 (Qloc.tm_hour c);
     Qloc.tm_min := uint_arg vals 1 (Qloc.tm_min c);
     Qloc.tm_sec := uint_arg vals 2 (Qloc.tm_sec c);
     Qloc.latitude := float_arg vals 3 (Qloc.latitude c);
     Qloc.longitude := float_arg vals 4 (Qloc.longitude c);
     Qloc.hdop := float_arg vals 5 (Qloc.hdop c);
     Qloc.altitude := float_arg vals 6 (Qloc.altitude c);
     Qloc.fix_ := uint_arg vals 7 (Qloc.fix_ c);
     Qloc.cogDegrees := uint_arg vals 8 (Qloc.cogDegrees c);
     Qloc.cogMinutes := uint_arg vals 9 (Qloc.cogMinutes c);
     Qloc.speedKmph := float_arg vals 10 (Qloc.speedKmph c);
     Qloc.speedKnots := float_arg vals 11 (Qloc.speedKnots c);
     Qloc.tm_day := uint_arg vals 12 (Qloc.tm_day c);
     Qloc.tm_month := uint_arg vals 13 (Qloc.tm_month c);
     Qloc.tm_year := uint_arg vals 14 (Qloc.tm_year c);
     Qloc.nsat := uint_arg vals 15 (Qloc.nsat c);
     Qloc.timeinfo := Qloc.timeinfo c |}.

Definition scan_into_epe (vals : list Scanf.sval) (c : Epe.Context)
  : Epe.Context :=
  {| Epe.h_acc := float_arg vals 0 (Epe.h_acc c);
     Epe.v_acc := float_arg vals 1 (Epe.v_acc c);
     Epe.speed_acc := float_arg vals 2 (Epe.speed_acc c);
     Epe.head_acc := float_arg vals 3 (Epe.head_acc c) |}.

Definition set_timeinfo (c : Qloc.Context) (ti : Tm.t) : Qloc.Context :=
  {| Qloc.tm_hour := Qloc.tm_hour c; Qloc.tm_min := Qloc.tm_min c;
     Qloc.tm_sec := Qloc.tm_sec c; Qloc.tm_day := Qloc.tm_day c;
     Qloc.tm_month := Qloc.tm_month c; Qloc.tm_year := Qloc.tm_year c;
     Qloc.latitude := Qloc.latitude c; Qloc.longitude := Qloc.longitude c;
     Qloc.fix_ := Qloc.fix_ c; Qloc.hdop := Qloc.hdop c;
     Qloc.altitude := Qloc.altitude c;
     Qloc.cogDegrees := Qloc.cogDegrees c; Qloc.cogMinutes := Qloc.cogMinutes c;
     Qloc.speedKmph := Qloc.speedKmph c; Qloc.speedKnots := Qloc.speedKnots c;
     Qloc.nsat := Qloc.nsat c;
     Qloc.timeinfo := ti |}.

Definition set_fix (p : LocationPoint) (v : Z) : LocationPoint :=
  {| fix_ := v; epochTime := epochTime p; systemTime := systemTime p;
     latitude := latitude p; longitude := longitude p;
     altitude := altitude p; speed := speed p; heading := heading p;
     horizontalAccuracy := horizontalAccuracy p;
     horizontalDop := horizontalDop p;
     verticalAccuracy := verticalAccuracy p; verticalDop := verticalDop p;
     timeToFirstFix := timeToFirstFix p; satsInUse := satsInUse p |}.

Definition set_systemTime (p : LocationPoint) (v : Z) : LocationPoint :=
  {| fix_ := fix_ p; epochTime := epochTime p; systemTime := v;
     latitude := latitude p; longitude := longitude p;
     altitude := altitude p; speed := speed p; heading := heading p;
     horizontalAccuracy := horizontalAccuracy p;
     horizontalDop := horizontalDop p;
     verticalAccuracy := verticalAccuracy p; verticalDop := verticalDop p;
     timeToFirstFix := timeToFirstFix p; satsInUse := satsInUse p |}.

Definition set_accuracy (p : LocationPoint) (h v : Q) : LocationPoint :=
  {| fix_ := fix_ p; epochTime := epochTime p; systemTime := systemTime p;
     latitude := latitude p; longitude := longitude p;
     altitude := altitude p; speed := speed p; heading := heading p;
     horizontalAccuracy := h;
     horizontalDop := horizontalDop p;
     verticalAccuracy := v; verticalDop := verticalDop p;
     timeToFirstFix := timeToFirstFix p; satsInUse := satsInUse p |}.

Definition set_timeToFirstFix (p : LocationPoint) (v : Q) : LocationPoint :=
  {| fix_ := fix_ p; epochTime := epochTime p; systemTime := systemTime p;
     latitude := latitude p; longitude := longitude p;
     altitude := altitude p; speed := speed p; heading := heading p;
     horizontalAccuracy := horizontalAccuracy p;
     horizontalDop := horizontalDop p;
     verticalAccuracy := verticalAccuracy p; verticalDop := verticalDop p;
     timeToFirstFix := v; satsInUse := satsInUse p |}.

Section Parser.

(** [std::mktime]: the epoch time and the normalised structure it leaves
    behind. *)
Variable mktime : Tm.t -> Z * Tm.t.

Definition parseQloc (buf : list ascii) (context : Qloc.Context)
    (point : LocationPoint) : Z * Qloc.Context * LocationPoint :=
  let r := Scanf.sscanf buf QLOC_FORMAT in
  let context := scan_into_qloc (fst r) context in
  let nargs := Scanf.nargs_of r in
  if nargs =? 0 then (-1, context, point)
  else
    let ti0 := Qloc.timeinfo context in
    let ti :=
      {| Tm.tm_year := uint_to_int (to_uint (Qloc.tm_year context + 2000 - 1900));
         Tm.tm_mon := uint_to_int (to_uint (Qloc.tm_month context - 1));
         Tm.tm_mday := uint_to_int (Qloc.tm_day context);
         Tm.tm_hour := uint_to_int (Qloc.tm_hour context);
         Tm.tm_min := uint_to_int (Qloc.tm_min context);
         Tm.tm_sec := uint_to_int (Qloc.tm_sec context);
         Tm.tm_wday := Tm.tm_wday ti0;
         Tm.tm_yday := Tm.tm_yday ti0;
         Tm.tm_isdst := Tm.tm_isdst ti0 |} in
    let (t, ti') := mktime ti in
    let context := set_timeinfo context ti' in
    let point :=
      {| epochTime := t;
         fix_ := Qloc.fix_ context;
         latitude := Qloc.latitude context;
         longitude := Qloc.longitude context;
         altitude := Qloc.altitude context;
         speed := Qred (Qloc.speedKmph context * 1000);
         heading := Qred (inject_Z (Qloc.cogDegrees context)
                          + inject_Z (Qloc.cogMinutes context) / 60);
         horizontalDop := Qloc.hdop context;
         satsInUse := Qloc.nsat context;
         systemTime := systemTime point;
         horizontalAccuracy := horizontalAccuracy point;
         verticalAccuracy := verticalAccuracy point;
         verticalDop := verticalDop point;
         timeToFirstFix := timeToFirstFix point |} in
    (0, context, point).

Definition parseQlocResponse (buf : list ascii) (context : Qloc.Context)
    (point : LocationPoint) : CME_Error * Qloc.Context * LocationPoint :=
  let result := parseCmeError buf in
  if CME_eqb NO_FIX result then (result, context, set_fix point 0)
  else if negb (CME_eqb NONE result) then (NONE, context, point)
  else
    let '(locResult, context, point) := parseQloc buf context point in
    ((if locResult =? 0 then FIX else UNKNOWN_ERROR), context, point).

Definition parseEpeResponse (buf : list ascii) (context : Epe.Context)
    (point : LocationPoint) : Epe.Context * LocationPoint :=
  let result := parseCmeError buf in
  if negb (CME_eqb NONE result) then (context, point)
  else
    let r := Scanf.sscanf buf EPE_FORMAT in
    let context := scan_into_epe (fst r) context in
    let nargs := Scanf.nargs_of r in
    if negb (nargs =? 0)
    then (context, set_accuracy point (Epe.h_acc context) (Epe.v_acc context))
    else (context, point).

End Parser.

(** ** Payload serialization

    A [JSONWriter] is modelled by the sequence of calls made on it. A
    floating value carries the number of decimals it is printed with. *)

Inductive JsonToken : Type :=
| BeginObject
| EndObject
| Name (s : string)
| ValInt (z : Z)
| ValUInt (z : Z)
| ValFloat (q : Q) (precision : nat)
| ValString (s : string).

Definition Qlt_bool (a b : Q) : bool := negb (Qle_bool b a).

Definition toJsonWriter (p : LocationPoint) (wrapInObject : bool)
  : list JsonToken :=
  (if wrapInObject then [BeginObject] else [])
  ++ (if fix_ p =? 0 then
        [Name "lck"; ValInt 0]
      else
        [Name "lck"; ValInt 1;
         Name "time"; ValUInt (to_uint (epochTime p));
         Name "lat"; ValFloat (latitude p) 8;
         Name "lon"; ValFloat (longitude p) 8;
         Name "alt"; ValFloat (altitude p) 3;
         Name "hd"; ValFloat (heading p) 2;
         Name "spd"; ValFloat (speed p) 2;
         Name "hdop"; ValFloat (horizontalDop p) 1]
        ++ (if Qlt_bool 0 (horizontalAccuracy p)
            then [Name "h_acc"; ValFloat (horizontalAccuracy p) 3] else [])
        ++ (if Qlt_bool 0 (verticalAccuracy p)
            then [Name "v_acc"; ValFloat (verticalAccuracy p) 3] else [])
        ++ [Name "nsat"; ValUInt (satsInUse p);
            Name "ttff"; ValFloat (timeToFirstFix p) 1])
  ++ (if wrapInObject then [EndObject] else []).

Definition buildPublish (point : LocationPoint) (seq : Z) : list JsonToken :=
  [BeginObject; Name "cmd"; ValString "loc"]
  ++ (if negb (systemTime point =? 0)
      then [Name "time"; ValUInt (to_uint (systemTime point))] else [])
  ++ [Name "loc"] ++ toJsonWriter point true
  ++ [Name "req_id"; ValUInt seq; EndObject].

(** The members of a flat object written as [BeginObject], name/value
    pairs, [EndObject]. *)
Fixpoint members (ts : list JsonToken) : option (list (string * JsonToken)) :=
  match ts with
  | [EndObject] => Some []
  | Name n :: v :: rest =>
      match v with
      | BeginObject | EndObject | Name _ => None
      | _ =>
          match members rest with
          | Some ms => Some ((n, v) :: ms)
          | None => None
          end
      end
  | _ => None
  end.

Definition object_members (ts : list JsonToken)
  : option (list (string * JsonToken)) :=
  match ts with
  | BeginObject :: rest => members rest
  | _ => None
  end.

(** ** Engine state

    The members of the [QuectelGnssRK] object, plus two ghost fields:
    [callerPoint], the caller's [LocationPoint] that [event.point] refers
    to during a synchronous request, and [log], the calls made on the
    outside world, oldest first. *)

Record LocationConfiguration : Type := mkLocationConfiguration {
  _constellations : Z;      (* LocationConstellation, as its bits *)
  _antennaPin : Z;          (* pin_t *)
  _hdop : Z;                (* int *)
  _hacc : Q;                (* float *)
  _maxFixSeconds : Z        (* unsigned int *)
}.

Record LocationCommandContext : Type := mkLocationCommandContext {
  command : LocationCommand;
  sendResponse : bool;
  doneCallback : option nat;   (* the callback, by an identifier; None = nullptr *)
  publish : bool;
  point : bool                 (* true = points to the caller's object *)
}.

(** [LocationCommandContext()] *)
Definition LocationCommandContext_default : LocationCommandContext :=
  mkLocationCommandContext Cmd_None false None false false.

Inductive Event : Type :=
| Command (text : list ascii)                 (* Cellular.command(text) *)
| DigitalWrite (pin : Z) (level : bool)       (* digitalWrite(pin, HIGH / LOW) *)
| PinModeOutput (pin : Z)                     (* pinMode(pin, OUTPUT) *)
| Delay (ms : Z)                              (* delay(ms) *)
| WaitResponse (timeout_ms : Z)               (* blocking take on the response queue *)
| Callback (id : nat) (r : LocationResults) (p : LocationPoint)
| Publish (name : string) (payload : list JsonToken)
| ThreadCancel.

Record Gnss : Type := mkGnss {
  _commandQueue : option LocationCommandContext;
  _responseQueue : option LocationResults;
  _acquiring : bool;
  _locBuffer : list ascii;
  _epeBuffer : list ascii;
  _qlocContext : Qloc.Context;
  _epeContext : Epe.Context;
  gnssStarted : bool;
  timeToFirstFixMs : Z;
  lastLocation : LocationPoint;
  lastResults : LocationResults;
  _conf : LocationConfiguration;
  _antennaPowerPin : Z;
  _modemType : ModemType.t;
  _reqid : Z;
  callerPoint : LocationPoint;
  log : list Event
}.

Definition set_commandQueue (s : Gnss) (v : option LocationCommandContext) : Gnss :=
  mkGnss v (_responseQueue s) (_acquiring s) (_locBuffer s) (_epeBuffer s)
    (_qlocContext s) (_epeContext s) (gnssStarted s) (timeToFirstFixMs s)
    (lastLocation s) (lastResults s) (_conf s) (_antennaPowerPin s)
    (_modemType s) (_reqid s) (callerPoint s) (log s).

Definition set_responseQueue (s : Gnss) (v : option LocationResults) : Gnss :=
  mkGnss (_commandQueue s) v (_acquiring s) (_locBuffer s) (_epeBuffer s)
    (_qlocContext s) (_epeContext s) (gnssStarted s) (timeToFirstFixMs s)
    (lastLocation s) (lastResults s) (_conf s) (_antennaPowerPin s)
    (_modemType s) (_reqid s) (callerPoint s) (log s).

Definition set_acquiring (s : Gnss) (v : bool) : Gnss :=
  mkGnss (_commandQueue s) (_responseQueue s) v (_locBuffer s)
    (_epeBuffer s) (_qlocContext s) (_epeContext s) (gnssStarted s)
    (timeToFirstFixMs s) (lastLocation s) (lastResults s) (_conf s)
    (_antennaPowerPin s) (_modemType s) (_reqid s) (callerPoint s) (log s).

Definition set_locBuffer (s : Gnss) (v : list ascii) : Gnss :=
  mkGnss (_commandQueue s) (_responseQueue s) (_acquiring s) v
    (_epeBuffer s) (_qlocContext s) (_epeContext s) (gnssStarted s)
    (timeToFirstFixMs s) (lastLocation s) (lastResults s) (_conf s)
    (_antennaPowerPin s) (_modemType s) (_reqid s) (callerPoint s) (log s).

Definition set_epeBuffer (s : Gnss) (v : list ascii) : Gnss :=
  mkGnss (_commandQueue s) (_responseQueue s) (_acquiring s) (_locBuffer s)
    v (_qlocContext s) (_epeContext s) (gnssStarted s) (timeToFirstFixMs s)
    (lastLocation s) (lastResults s) (_conf s) (_antennaPowerPin s)
    (_modemType s) (_reqid s) (callerPoint s) (log s).

Definition set_qlocContext (s : Gnss) (v : Qloc.Context) : Gnss :=
  mkGnss (_commandQueue s) (_responseQueue s) (_acquiring s) (_locBuffer s)
    (_epeBuffer s) v (_epeContext s) (gnssStarted s) (timeToFirstFixMs s)
    (lastLocation s) (lastResults s) (_conf s) (_antennaPowerPin s)
    (_modemType s) (_reqid s) (callerPoint s) (log s).

Definition set_epeContext (s : Gnss) (v : Epe.Context) : Gnss :=
  mkGnss (_commandQueue s) (_responseQueue s) (_acquiring s) (_locBuffer s)
    (_epeBuffer s) (_qlocContext s) v (gnssStarted s) (timeToFirstFixMs s)
    (lastLocation s) (lastResults s) (_conf s) (_antennaPowerPin s)
    (_modemType s) (_reqid s) (callerPoint s) (log s).

Definition set_gnssStarted (s : Gnss) (v : bool) : Gnss :=
  mkGnss (_commandQueue s) (_responseQueue s) (_acquiring s) (_locBuffer s)
    (_epeBuffer s) (_qlocContext s) (_epeContext s) v (timeToFirstFixMs s)
    (lastLocation s) (lastResults s) (_conf s) (_antennaPowerPin s)
    (_modemType s) (_reqid s) (callerPoint s) (log s).

Definition set_timeToFirstFixMs (s : Gnss) (v : Z) : Gnss :=
  mkGnss (_commandQueue s) (_responseQueue s) (_acquiring s) (_locBuffer s)
    (_epeBuffer s) (_qlocContext s) (_epeContext s) (gnssStarted s) v
    (lastLocation s) (lastResults s) (_conf s) (_antennaPowerPin s)
    (_modemType s) (_reqid s) (callerPoint s) (log s).

Definition set_lastLocation (s : Gnss) (v : LocationPoint) : Gnss :=
  mkGnss (_commandQueue s) (_responseQueue s) (_acquiring s) (_locBuffer s)
    (_epeBuffer s) (_qlocContext s) (_epeContext s) (gnssStarted s)
    (timeToFirstFixMs s) v (lastResults s) (_conf s) (_antennaPowerPin s)
    (_modemType s) (_reqid s) (callerPoint s) (log s).

Definition set_lastResults (s : Gnss) (v : LocationResults) : Gnss :=
  mkGnss (_commandQueue s) (_responseQueue s) (_acquiring s) (_locBuffer s)
    (_epeBuffer s) (_qlocContext s) (_epeContext s) (gnssStarted s)
    (timeToFirstFixMs s) (lastLocation s) v (_conf s) (_antennaPowerPin s)
    (_modemType s) (_reqid s) (callerPoint s) (log s).

Definition set_conf (s : Gnss) (v : LocationConfiguration) : Gnss :=
  mkGnss (_commandQueue s) (_responseQueue s) (_acquiring s) (_locBuffer s)
    (_epeBuffer s) (_qlocContext s) (_epeContext s) (gnssStarted s)
    (timeToFirstFixMs s) (lastLocation s) (lastResults s) v
    (_antennaPowerPin s) (_modemType s) (_reqid s) (callerPoint s) (log s).

Definition set_antennaPowerPin (s : Gnss) (v : Z) : Gnss :=
  mkGnss (_commandQueue s) (_responseQueue s) (_acquiring s) (_locBuffer s)
    (_epeBuffer s) (_qlocContext s) (_epeContext s) (gnssStarted s)
    (timeToFirstFixMs s) (lastLocation s) (lastResults s) (_conf s) v
    (_modemType s) (_reqid s) (callerPoint s) (log s).

Definition set_modemType (s : Gnss) (v : ModemType.t) : Gnss :=
  mkGnss (_commandQueue s) (_responseQueue s) (_acquiring s) (_locBuffer s)
    (_epeBuffer s) (_qlocContext s) (_epeContext s) (gnssStarted s)
    (timeToFirstFixMs s) (lastLocation s) (lastResults s) (_conf s)
    (_antennaPowerPin s) v (_reqid s) (callerPoint s) (log s).

Definition set_reqid (s : Gnss) (v : Z) : Gnss :=
  mkGnss (_commandQueue s) (_responseQueue s) (_acquiring s) (_locBuffer s)
    (_epeBuffer s) (_qlocContext s) (_epeContext s) (gnssStarted s)
    (timeToFirstFixMs s) (lastLocation s) (lastResults s) (_conf s)
    (_antennaPowerPin s) (_modemType s) v (callerPoint s) (log s).

Definition set_callerPoint (s : Gnss) (v : LocationPoint) : Gnss :=
  mkGnss (_commandQueue s) (_responseQueue s) (_acquiring s) (_locBuffer s)
    (_epeBuffer s) (_qlocContext s) (_epeContext s) (gnssStarted s)
    (timeToFirstFixMs s) (lastLocation s) (lastResults s) (_conf s)
    (_antennaPowerPin s) (_modemType s) (_reqid s) v (log s).

Definition set_log (s : Gnss) (v : list Event) : Gnss :=
  mkGnss (_commandQueue s) (_responseQueue s) (_acquiring s) (_locBuffer s)
    (_epeBuffer s) (_qlocContext s) (_epeContext s) (gnssStarted s)
    (timeToFirstFixMs s) (lastLocation s) (lastResults s) (_conf s)
    (_antennaPowerPin s) (_modemType s) (_reqid s) (callerPoint s) v.

Definition add_log (s : Gnss) (es : list Event) : Gnss :=
  set_log s (log s ++ es).

(** ** Observations of the outside world *)

(** [celldev.dev] as [detectModemType] switches on it: 0, the four
    supported identifiers, or any other value. *)
Inductive CellularDev : Type :=
| DEV_NOT_CACHED
| DEV_QUECTEL_BG95_M5
| DEV_QUECTEL_BG95_S5
| DEV_QUECTEL_EG91_EX
| DEV_QUECTEL_EG91_NAX
| DEV_OTHER.

Inductive RespType : Type :=
| TYPE_PLUS
| TYPE_ERROR
| TYPE_OTHER.

(** One invocation of a response callback: [type], [buf] and [len]. *)
Record AtLine : Type := mkAtLine {
  at_type : RespType;
  at_buf : list ascii;
  at_len : nat
}.

(** What one iteration of the poll loop observes, in program order. *)
Record PollObs : Type := mkPollObs {
  obs_isModemOn : bool;          (* isModemOn() in the loop condition *)
  obs_now : Z;                   (* System.millis() at the top of the body *)
  obs_gloc : list AtLine;        (* callbacks during AT+QGPSLOC=2 *)
  obs_timeNow : Z;               (* Time.now() *)
  obs_millisFix : Z;             (* System.millis() for the time to first fix *)
  obs_epe : list AtLine          (* callbacks during the estimation_error query *)
}.

Record AcquireObs : Type := mkAcquireObs {
  obs_start : Z;                 (* System.millis() before the loop *)
  obs_polls : list PollObs
}.

(** ** Constants of the implementation file *)

Definition LOCATION_PERIOD_SUCCESS_MS : Z := 1 * 1000.
Definition LOCATION_PERIOD_ACQUIRE_MS : Z := 1 * 1000.
Definition ANTENNA_POWER_SETTLING_MS : Z := 100.
Definition LOCATION_REQUIRED_SETTLING_COUNT : Z := 2.
Definition LOC_BUFFER_SIZE : nat := 256.

Definition AT_QGPS_ON : list ascii := cstr "AT+QGPS=1".
Definition AT_QGPSEND : list ascii := cstr "AT+QGPSEND".
Definition AT_QGPSLOC : list ascii := cstr "AT+QGPSLOC=2".
Definition AT_NMEA_EPE : list ascii :=
  cstr "AT+QGPSCFG=" ++ [dquote] ++ cstr "nmea_epe" ++ [dquote] ++ cstr ",1".
Definition AT_ESTIMATION_ERROR : list ascii :=
  cstr "AT+QGPSCFG=" ++ [dquote] ++ cstr "estimation_error" ++ [dquote].

(** [sprintf(command, "AT+QGPSCFG=\"gnssconfig\",%d", configNumber)] *)
Definition AT_GNSSCONFIG (configNumber : Z) : list ascii :=
  cstr "AT+QGPSCFG=" ++ [dquote] ++ cstr "gnssconfig" ++ [dquote] ++ cstr ","
  ++ cstr (NilZero.string_of_int (Z.to_int configNumber)).

(** ** Response callbacks *)

Definition strlcpy (dst src : list ascii) (size : nat) : list ascii :=
  match size with
  | O => dst
  | S n => firstn n src
  end.

Definition stripLfCr (str : list ascii) : list ascii :=
  filter (fun c => negb (Ascii.eqb c (ascii_of_nat 10))
                   && negb (Ascii.eqb c (ascii_of_nat 13)))%bool str.

Definition glocCallback (type : RespType) (buf : list ascii) (len : nat)
    (locBuffer : list ascii) : list ascii :=
  match type with
  | TYPE_PLUS | TYPE_ERROR =>
      stripLfCr (strlcpy locBuffer buf (Nat.min len LOC_BUFFER_SIZE))
  | TYPE_OTHER => locBuffer
  end.

Definition epeCallback (type : RespType) (buf : list ascii) (len : nat)
    (epeBuffer : list ascii) : list ascii :=
  match type with
  | TYPE_PLUS | TYPE_ERROR =>
      stripLfCr (strlcpy epeBuffer buf (Nat.min len LOC_BUFFER_SIZE))
  | TYPE_OTHER => epeBuffer
  end.

(** [Cellular.command(cb, buffer, ...)]: the callback runs once per
    response line, each time on the same buffer. *)
Definition run_callbacks
    (cb : RespType -> list ascii -> nat -> list ascii -> list ascii)
    (lines : list AtLine) (buffer : list ascii) : list ascii :=
  fold_left (fun b l => cb (at_type l) (at_buf l) (at_len l) b) lines buffer.

(** ** Configuration class *)

(** [hdopThreshold(int)]: the setter clamps to 0..100. *)
Definition conf_set_hdopThreshold (c : LocationConfiguration) (hdop : Z)
  : LocationConfiguration :=
  let hdop := if hdop <? 0 then 0 else if 100 <? hdop then 100 else hdop in
  mkLocationConfiguration (_constellations c) (_antennaPin c) hdop (_hacc c)
    (_maxFixSeconds c).

(** [operator=]: every member but [_hacc] is copied. *)
Definition conf_assign (this rhs : LocationConfiguration)
  : LocationConfiguration :=
  mkLocationConfiguration (_constellations rhs) (_antennaPin rhs) (_hdop rhs)
    (_hacc this) (_maxFixSeconds rhs).

(** ** Capability *)

Definition modemNotDetected (s : Gnss) : bool :=
  ModemType.eqb ModemType.Unavailable (_modemType s).

Definition concurrentGnssAndCellularSupported (s : Gnss) : bool :=
  if ModemType.eqb ModemType.BG95_M5 (_modemType s) then false else true.

Definition detectModemType (isOn : bool) (dev : CellularDev) (s : Gnss)
  : bool * Gnss :=
  if (modemNotDetected s && isOn)%bool then
    match dev with
    | DEV_NOT_CACHED => (false, s)
    | DEV_QUECTEL_BG95_M5 | DEV_QUECTEL_BG95_S5 =>
        (true, set_modemType s ModemType.BG95_M5)
    | DEV_QUECTEL_EG91_EX | DEV_QUECTEL_EG91_NAX =>
        (true, set_modemType s ModemType.EG91)
    | DEV_OTHER => (false, set_modemType s ModemType.Unsupported)
    end
  else if (negb (modemNotDetected s)
           && negb (ModemType.eqb ModemType.Unsupported (_modemType s)))%bool
  then (true, s)
  else (false, s).

(** [flags & X] as a condition. *)
Definition has_bits (flags x : Z) : bool := negb (Z.land flags x =? 0).

(** The number [setConstellation] computes: -1 when no branch assigns. *)
Definition configNumber_of (modem : ModemType.t) (flags : Z) : Z :=
  if ModemType.eqb ModemType.BG95_M5 modem then
    if (has_bits flags (constellation_bits LOCATION_CONST_GPS_ONLY)
        || has_bits flags (constellation_bits LOCATION_CONST_GPS_GLONASS))%bool
    then 1
    else if has_bits flags (constellation_bits LOCATION_CONST_GPS_BEIDOU) then 2
    else if has_bits flags (constellation_bits LOCATION_CONST_GPS_GALILEO) then 3
    else if has_bits flags (constellation_bits LOCATION_CONST_GPS_QZSS) then 4
    else -1
  else if ModemType.eqb ModemType.EG91 modem then
    if has_bits flags (constellation_bits LOCATION_CONST_GPS_ONLY) then 0
    else if has_bits flags (constellation_bits LOCATION_CONST_GPS_GLONASS) then 4
    else if has_bits flags (constellation_bits LOCATION_CONST_GPS_BEIDOU) then 7
    else if has_bits flags (constellation_bits LOCATION_CONST_GPS_GALILEO) then 6
    else if has_bits flags (constellation_bits LOCATION_CONST_GPS_QZSS) then -1
    else -1
  else -1.

Definition setConstellation (flags : Z) (s : Gnss) : Z * Gnss :=
  let configNumber := configNumber_of (_modemType s) flags in
  if 0 <=? configNumber
  then (0, add_log s [Command (AT_GNSSCONFIG configNumber)])
  else (0, s).

(** What a caller-side entry point observes, in program order. *)
Record CallObs : Type := mkCallObs {
  call_isModemOn : bool;         (* isModemOn() at the top of the call *)
  call_isModemOn_detect : bool;  (* isModemOn() inside detectModemType *)
  call_dev : CellularDev;        (* cellular_device_info *)
  call_isConnected : bool;       (* Particle.connected() *)
  call_published : bool          (* the result of Particle.publish *)
}.

(** The local state of the poll loop when it is left. *)
Record LoopExit : Type := mkLoopExit {
  exit_state : Gnss;
  exit_response : LocationResults;   (* the local [response] *)
  exit_power : bool;                 (* the local [power] *)
  exit_fixCount : Z;                 (* the local [fixCount] *)
  exit_rest : list PollObs           (* observations never made *)
}.

Section Engine.

Variable mktime : Tm.t -> Z * Tm.t.

(** Device OS's [PIN_INVALID]; the library only compares pins with it. *)
Variable PIN_INVALID : Z.

(** [LocationConfiguration()] *)
Definition LocationConfiguration_default : LocationConfiguration :=
  mkLocationConfiguration (constellation_bits LOCATION_CONST_GPS_ONLY)
    PIN_INVALID 100 50 90.

(** The object as its constructor and member initialisers leave it; the two
    character buffers have no initialiser. *)
Definition Gnss_init (locBuffer epeBuffer : list ascii) : Gnss :=
  mkGnss None None false locBuffer epeBuffer Qloc.zero Epe.zero false 0
    LocationPoint_zero Unavailable LocationConfiguration_default PIN_INVALID
    ModemType.Unavailable 1 LocationPoint_zero [].

Definition setAntennaPower (s : Gnss) : Gnss :=
  if negb (PIN_INVALID =? _antennaPowerPin s)
  then add_log s [DigitalWrite (_antennaPowerPin s) true;
                  Delay ANTENNA_POWER_SETTLING_MS]
  else s.

Definition clearAntennaPower (s : Gnss) : Gnss :=
  if negb (PIN_INVALID =? _antennaPowerPin s)
  then add_log s [DigitalWrite (_antennaPowerPin s) false]
  else s.

Definition begin (configuration : LocationConfiguration) (o : CallObs)
    (s : Gnss) : Z * Gnss :=
  let s := set_conf s (conf_assign (_conf s) configuration) in
  let s := set_antennaPowerPin s (_antennaPin (_conf s)) in
  let s := if negb (PIN_INVALID =? _antennaPowerPin s)
           then add_log s [PinModeOutput (_antennaPowerPin s)] else s in
  if (call_isModemOn o && modemNotDetected s)%bool then
    let (_, s) := detectModemType (call_isModemOn_detect o) (call_dev o) s in
    let (_, s) := setConstellation (_constellations (_conf s)) s in
    (0, s)
  else (0, s).

(** [os_queue_put(queue, item, 0, nullptr)] on a queue of depth 1: a full
    queue refuses the item. *)
Definition queue_put {A : Type} (q : option A) (item : A) : option A :=
  match q with
  | None => Some item
  | Some _ => q
  end.

Definition waitOnCommandEvent (s : Gnss) : LocationCommandContext * Gnss :=
  match _commandQueue s with
  | Some event => (event, set_commandQueue s None)
  | None => (LocationCommandContext_default, s)
  end.

Definition waitOnResponseEvent (s : Gnss) : LocationResults * Gnss :=
  match _responseQueue s with
  | Some event => (event, set_responseQueue s None)
  | None => (Idle, s)
  end.

(** *** Caller side *)

Definition getLocation (o : CallObs) (during_wait : Gnss -> Gnss)
    (publish_ : bool) (s : Gnss) : LocationResults * Gnss :=
  let s := set_callerPoint s LocationPoint_zero in
  if negb (call_isModemOn o) then
    let s := set_lastResults s Unavailable in (lastResults s, s)
  else
    let '(detected, s) :=
      if modemNotDetected s
      then detectModemType (call_isModemOn_detect o) (call_dev o) s
      else (true, s) in
    if negb detected then
      let s := set_lastResults s Unsupported in (lastResults s, s)
    else if _acquiring s then
      let s := set_lastResults s Pending in (lastResults s, s)
    else
      let event := mkLocationCommandContext Cmd_Acquire true None false true in
      let s := set_commandQueue s (queue_put (_commandQueue s) event) in
      let timeout := to_uint (to_uint (_maxFixSeconds (_conf s)) * 1000
                              + LOCATION_PERIOD_ACQUIRE_MS) in
      let s := add_log s [WaitResponse timeout] in
      let s := during_wait s in
      let (result, s) := waitOnResponseEvent s in
      if (publish_ && LocationResults_eqb Fixed result
          && call_isConnected o)%bool
      then
        let s := add_log s
                   [Publish "loc" (buildPublish (callerPoint s) (_reqid s))] in
        let s := if call_published o
                 then set_reqid s (to_uint (_reqid s + 1)) else s in
        (result, s)
      else (result, s).

Definition getLocationAsync (o : CallObs) (callback : option nat) (s : Gnss)
  : LocationResults * Gnss :=
  if negb (call_isModemOn o) then
    let s := set_lastResults s Unavailable in (lastResults s, s)
  else
    let '(detected, s) :=
      if modemNotDetected s
      then detectModemType (call_isModemOn_detect o) (call_dev o) s
      else (true, s) in
    if negb detected then
      let s := set_lastResults s Unsupported in (lastResults s, s)
    else if _acquiring s then
      let s := set_lastResults s Pending in (lastResults s, s)
    else
      let event := mkLocationCommandContext Cmd_Acquire false callback false false in
      let s := set_commandQueue s (queue_put (_commandQueue s) event) in
      (Acquiring, s).

Definition getStatus (s : Gnss) : LocationResults :=
  if _acquiring s then Acquiring else Idle.

Definition getLastLocationPoint (s : Gnss) : LocationPoint := lastLocation s.

Definition getLastResults (s : Gnss) : LocationResults := lastResults s.

Definition getHasFix (s : Gnss) : bool :=
  LocationResults_eqb (lastResults s) Fixed.

Definition publishLocationEvent (o : CallObs) (point_ : option LocationPoint)
    (s : Gnss) : bool * Gnss :=
  let p := match point_ with Some p => p | None => lastLocation s end in
  if call_isConnected o then
    let s := add_log (set_reqid s (to_uint (_reqid s + 1)))
               [Publish "loc" (buildPublish p (_reqid s))] in
    (call_published o, s)
  else (false, s).

(** *** Worker side *)

Definition accepts (fixCount : Z) (s : Gnss) : bool :=
  ((LOCATION_REQUIRED_SETTLING_COUNT =? fixCount)
   && Qle_bool (horizontalDop (lastLocation s)) (inject_Z (_hdop (_conf s)))
   && Qle_bool (horizontalAccuracy (lastLocation s)) (_hacc (_conf s)))%bool.

(** The body of one poll, from the fix query to the acceptance test; the
    new [fixCount] and whether the loop breaks with [Fixed]. *)
Definition poll_body (start : Z) (o : PollObs) (fixCount : Z) (s : Gnss)
  : Z * bool * Gnss :=
  let s := add_log s [Command AT_QGPSLOC] in
  let s := set_locBuffer s
             (run_callbacks glocCallback (obs_gloc o) (_locBuffer s)) in
  let '(ret, ctx, pt) :=
    parseQlocResponse mktime (_locBuffer s) (_qlocContext s) (lastLocation s) in
  let s := set_lastLocation (set_qlocContext s ctx) pt in
  if CME_eqb FIX ret then
    let fixCount := fixCount + 1 in
    let s := set_lastLocation s
               (set_systemTime (lastLocation s) (obs_timeNow o)) in
    let s := if 0 =? timeToFirstFixMs s
             then set_timeToFirstFixMs s
                    (to_uint (to_uint64 (obs_millisFix o - start)))
             else s in
    let s :=
      if ModemType.eqb ModemType.BG95_M5 (_modemType s) then
        let s := add_log s [Command AT_ESTIMATION_ERROR] in
        let s := set_epeBuffer s
                   (run_callbacks epeCallback (obs_epe o) (_epeBuffer s)) in
        let (ectx, pt) :=
          parseEpeResponse (_epeBuffer s) (_epeContext s) (lastLocation s) in
        set_lastLocation (set_epeContext s ectx) pt
      else s in
    (fixCount, accepts fixCount s, s)
  else (fixCount, false, s).

Fixpoint poll_loop (start maxTime : Z) (polls : list PollObs) (fixCount : Z)
    (s : Gnss) : option LoopExit :=
  match polls with
  | [] => None
  | o :: rest =>
      if negb (obs_isModemOn o)
      then Some (mkLoopExit s TimedOut false fixCount rest)
      else if maxTime <=? to_uint64 (obs_now o - start)
      then Some (mkLoopExit s TimedOut true fixCount rest)
      else
        let '(fixCount, fixed, s) := poll_body start o fixCount s in
        if fixed
        then Some (mkLoopExit s Fixed true fixCount rest)
        else poll_loop start maxTime rest fixCount
               (add_log s [Delay LOCATION_PERIOD_ACQUIRE_MS])
  end.

(** From [_acquiring.store(true)] to the start of the poll loop. *)
Definition acquire_start (s : Gnss) : Gnss :=
  let s := set_acquiring s true in
  let s := set_lastLocation s LocationPoint_zero in
  if negb (gnssStarted s) then
    let s := setAntennaPower s in
    let s := add_log s [Command AT_QGPS_ON] in
    let s := if ModemType.eqb ModemType.BG95_M5 (_modemType s)
             then add_log s [Command AT_NMEA_EPE] else s in
    let (_, s) := setConstellation (_constellations (_conf s)) s in
    let s := set_gnssStarted s true in
    set_timeToFirstFixMs s 0
  else s.

(** The outcome the worker stores and delivers. *)
Definition final_response (ex : LoopExit) : LocationResults :=
  if (negb (exit_power ex)
      && negb (LocationResults_eqb Fixed (exit_response ex)))%bool
  then Unavailable
  else exit_response ex.

(** From the end of the poll loop to the end of the [Acquire] case,
    the scope guard included. *)
Definition acquire_finish (event : LocationCommandContext) (ex : LoopExit)
  : Gnss :=
  let s := exit_state ex in
  let s := if negb (concurrentGnssAndCellularSupported s) then
             let s := add_log s [Command AT_QGPSEND] in
             let s := clearAntennaPower s in
             set_gnssStarted s false
           else s in
  let response := final_response ex in
  let s := if negb (timeToFirstFixMs s =? 0)
           then set_lastLocation s
                  (set_timeToFirstFix (lastLocation s)
                     (Qred (inject_Z (timeToFirstFixMs s) / 1000)))
           else s in
  let s := if point event then set_callerPoint s (lastLocation s) else s in
  let s := set_lastResults s response in
  let s := if sendResponse event
           then set_responseQueue s (queue_put (_responseQueue s) response)
           else match doneCallback event with
                | Some id => add_log s [Callback id response (lastLocation s)]
                | None => s
                end in
  set_acquiring s false.

(** The [Acquire] case; [None] when the observations end while the poll
    loop is still running. *)
Definition acquire (event : LocationCommandContext) (obs : AcquireObs)
    (s : Gnss) : option Gnss :=
  let s := acquire_start s in
  let maxTime := to_uint64 (to_uint (_maxFixSeconds (_conf s)) * 1000) in
  match poll_loop (obs_start obs) maxTime (obs_polls obs) 0 s with
  | Some ex => Some (acquire_finish event ex)
  | None => None
  end.

(** One pass of the worker's [while (loop)]: the new value of [loop] and
    the state. *)
Definition threadLoop_iteration (obs : AcquireObs) (s : Gnss)
  : option (bool * Gnss) :=
  let (event, s) := waitOnCommandEvent s in
  match command event with
  | Cmd_None => Some (true, s)
  | Cmd_Acquire =>
      match acquire event obs s with
      | Some s => Some (true, s)
      | None => None
      end
  | Cmd_Exit => Some (false, s)
  end.

(** The worker: passes of the loop until [Exit], then the thread is
    cancelled. [None] when the observations end first. *)
Fixpoint threadLoop (obss : list AcquireObs) (s : Gnss) : option Gnss :=
  match obss with
  | [] => None
  | obs :: rest =>
      match threadLoop_iteration obs s with
      | Some (true, s) => threadLoop rest s
      | Some (false, s) => Some (add_log s [ThreadCancel])
      | None => None
      end
  end.

End Engine.

(** * Vocabulary of the statements *)

(** A text either ends or goes on with something that is not a digit. *)
Definition no_digit_ahead (s : list ascii) : bool :=
  match s with
  | [] => true
  | c :: _ => negb (isdigit c)
  end.

Definition whitelisted (v : Z) : bool :=
  existsb (Z.eqb v) [504; 505; 506; 516; 522; 549].

(** A line that carries the error marker and a number: blanks, "+CME",
    blanks, "ERROR:", blanks, digits, and a remainder that does not go on
    with a digit. *)
Definition cme_line (ws1 ws2 ws3 ds rest : list ascii) : list ascii :=
  ws1 ++ cstr "+CME" ++ ws2 ++ cstr "ERROR:" ++ ws3 ++ ds ++ rest.

(** The [switch] of [parseCmeError], case by case. *)
Definition cme_switch (error_code : Z) : CME_Error :=
  match error_code with
  | 504 => SESSION_IS_ONGOING
  | 505 => SESSION_NOT_ACTIVE
  | 506 => OPERATION_TIMEOUT
  | 516 => NO_FIX
  | 522 => GNSS_IS_WORKING
  | 549 => UNKNOWN_ERROR
  | _ => UNDEFINED
  end.


(** The value in meters per second of a speed given in km/h. *)
Definition kmph_to_mps (kmph : Q) : Q := kmph * 1000 / 3600.

(** * Sample inputs *)

Module Examples.

Definition CR : ascii := ascii_of_nat 13.
Definition LF : ascii := ascii_of_nat 10.

(** A response line as the modem sends it, between CR LF pairs, with
    [len] the length of the buffer. *)
Definition at_line (type : RespType) (text : string) : AtLine :=
  let buf := [CR; LF] ++ cstr text ++ [CR; LF] in
  mkAtLine type buf (List.length buf).

(** 06:19:51 UTC on 1 January 2024, HDOP 1.2, course 090.30, 36.0 km/h. *)
Definition good_fix : string :=
  "+QGPSLOC: 061951.000,37.42241,-122.08407,1.2,30.0,3,090.30,36.0,19.4,010124,08".

(** The same report with HDOP 9.9. *)
Definition poor_fix : string :=
  "+QGPSLOC: 061952.000,37.42241,-122.08407,9.9,30.0,3,090.30,36.0,19.4,010124,08".

(** A fix report cut after the latitude. *)
Definition partial_fix : string := "+QGPSLOC: 061951.000,37.42241".

(** A fix report with every field empty. *)
Definition empty_fields : string := "+QGPSLOC: ,,,,,,,,,,".

Definition PIN_INVALID : Z := 255.

(** The default configuration with the HDOP threshold set to 2. *)
Definition conf : LocationConfiguration :=
  conf_set_hdopThreshold (LocationConfiguration_default PIN_INVALID) 2.

(** The engine after [begin] with the modem on and identified. *)
Definition ready (dev : CellularDev) : Gnss :=
  snd (begin PIN_INVALID conf (mkCallObs true true dev false false)
         (Gnss_init PIN_INVALID [] [])).

(** A poll at [now] ms with the modem on and one response line. *)
Definition poll (now : Z) (text : string) : PollObs :=
  mkPollObs true now [at_line TYPE_PLUS text] 1704089991 (now + 300) [].

(** A poll that finds the modem off. *)
Definition poll_off : PollObs := mkPollObs false 0 [] 0 0 [].

(** An asynchronous request with callback 1. *)
Definition async_request : LocationCommandContext :=
  mkLocationCommandContext Cmd_Acquire false (Some 1%nat) false false.

(** The sequence of the stabilization claim: a qualifying fix, a report
    over the HDOP threshold, two qualifying fixes; then the fix time (90 s)
    runs out. *)
Definition recovering_polls : list PollObs :=
  [poll 1000 good_fix; poll 2000 poor_fix; poll 3000 good_fix;
   poll 4000 good_fix; poll 91000 good_fix].

(** A configuration with the antenna power pin set to pin 5. *)
Definition conf_pin : LocationConfiguration :=
  mkLocationConfiguration (constellation_bits LOCATION_CONST_GPS_GLONASS) 5
    2 50 90.

Definition ready_pin (dev : CellularDev) : Gnss :=
  snd (begin PIN_INVALID conf_pin (mkCallObs true true dev false false)
         (Gnss_init PIN_INVALID [] [])).

(** Two qualifying fixes in a row. *)
Definition settled_polls : list PollObs :=
  [poll 1000 good_fix; poll 2000 good_fix].

(** Reports that never settle, until the fix time runs out. *)
Definition unsettled_polls : list PollObs :=
  [poll 1000 poor_fix; poll 2000 poor_fix; poll 91000 poor_fix].

(** The engine after an acquisition that ended with a fix. *)
Definition after_fix : Gnss :=
  match acquire MktimeUtc.mktime PIN_INVALID async_request
          (mkAcquireObs 1000 settled_polls) (ready DEV_QUECTEL_EG91_EX) with
  | Some s => s
  | None => ready DEV_QUECTEL_EG91_EX
  end.

(** A caller that finds the modem off. *)
Definition call_off : CallObs := mkCallObs false false DEV_NOT_CACHED false false.

(** A caller that finds the modem on. *)
Definition call_on (dev : CellularDev) : CallObs :=
  mkCallObs true true dev true true.

End Examples.

(** The point of the payload example: a fix at 37.422408, -122.084066 with
    a horizontal accuracy of 15 m. *)
Definition example_point : LocationPoint :=
  mkLocationPoint 1 1704089991 1704089992 37.422408 (-122.084066) 30 10 90
    15 1.2 0 0 12.5 8.

(** The members every locked location object starts with and ends with. *)
Definition locked_head (p : LocationPoint) : list (string * JsonToken) :=
  [("lck"%string, ValInt 1);
   ("time"%string, ValUInt (to_uint (epochTime p)));
   ("lat"%string, ValFloat (latitude p) 8);
   ("lon"%string, ValFloat (longitude p) 8);
   ("alt"%string, ValFloat (altitude p) 3);
   ("hd"%string, ValFloat (heading p) 2);
   ("spd"%string, ValFloat (speed p) 2);
   ("hdop"%string, ValFloat (horizontalDop p) 1)].

Definition locked_tail (p : LocationPoint) : list (string * JsonToken) :=
  [("nsat"%string, ValUInt (satsInUse p));
   ("ttff"%string, ValFloat (timeToFirstFix p) 1)].

(** * Hardware state read off the log *)

Definition cmd_eqb (a b : list ascii) : bool :=
  if list_eq_dec ascii_dec a b then true else false.

(** GNSS mode: on after "AT+QGPS=1", off after "AT+QGPSEND". *)
Definition gnss_mode_step (on : bool) (e : Event) : bool :=
  match e with
  | Command text =>
      if cmd_eqb text AT_QGPS_ON then true
      else if cmd_eqb text AT_QGPSEND then false
      else on
  | _ => on
  end.

Definition gnss_mode (l : list Event) : bool :=
  fold_left gnss_mode_step l false.

(** The level last written to a pin, if any. *)
Definition antenna_step (pin : Z) (level : option bool) (e : Event)
  : option bool :=
  match e with
  | DigitalWrite p v => if p =? pin then Some v else level
  | _ => level
  end.

Definition antenna_level (pin : Z) (l : list Event) : option bool :=
  fold_left (antenna_step pin) l None.

(** Events that touch neither the GNSS mode nor a pin. *)
Definition quiet (e : Event) : bool :=
  match e with
  | Command text =>
      (negb (cmd_eqb text AT_QGPS_ON) && negb (cmd_eqb text AT_QGPSEND))%bool
  | DigitalWrite _ _ => false
  | _ => true
  end.

(** An observation on which the poll loop stops whatever came before: the
    modem is off, or the maximum fix time has passed. *)
Definition stops_loop (start maxTime : Z) (o : PollObs) : bool :=
  (negb (obs_isModemOn o) || (maxTime <=? to_uint64 (obs_now o - start)))%bool.

(** The started flag agrees with the log: when the engine believes the
    receiver is started, GNSS mode is on. *)
Definition gnss_invariant (s : Gnss) : Prop :=
  gnssStarted s = true -> gnss_mode (log s) = true.

(** What the poll loop leaves alone. *)
Definition same_hardware (s s' : Gnss) : Prop :=
  _modemType s' = _modemType s
  /\ _antennaPowerPin s' = _antennaPowerPin s
  /\ _conf s' = _conf s
  /\ gnssStarted s' = gnssStarted s
  /\ _acquiring s' = _acquiring s
  /\ _commandQueue s' = _commandQueue s
  /\ _responseQueue s' = _responseQueue s
  /\ exists es, log s' = log s ++ es /\ forallb quiet es = true.

(** * Vocabulary of the further properties *)

(** A text without carriage return or line feed. *)
Definition no_line_break (s : list ascii) : bool :=
  forallb (fun c => negb (Ascii.eqb c (ascii_of_nat 10))
                    && negb (Ascii.eqb c (ascii_of_nat 13)))%bool s.

(** A response line as the modem frames it: CR LF before and after. *)
Definition framed (text : list ascii) : list ascii :=
  [ascii_of_nat 13; ascii_of_nat 10] ++ text
  ++ [ascii_of_nat 13; ascii_of_nat 10].

(** The modem types the library works with. *)
Definition supported (m : ModemType.t) : bool :=
  match m with
  | ModemType.BG95_M5 | ModemType.EG91 => true
  | _ => false
  end.

(** A configuration with another accuracy threshold. *)
Definition with_hacc (c : LocationConfiguration) (hacc : Q)
  : LocationConfiguration :=
  mkLocationConfiguration (_constellations c) (_antennaPin c) (_hdop c) hacc
    (_maxFixSeconds c).

(** A poll that finds the modem on and the fix time not yet used up: the
    loop goes on to query the modem. *)
Definition keeps_polling (start maxTime : Z) (o : PollObs) : bool :=
  (obs_isModemOn o && negb (maxTime <=? to_uint64 (obs_now o - start)))%bool.

(** [maxTime] of an acquisition on state [s]. *)
Definition maxTime_of (s : Gnss) : Z :=
  to_uint64 (to_uint (_maxFixSeconds (_conf s)) * 1000).

(** Calls on the modem, the pins and the clock: the events an acquisition
    makes before it reports. *)
Definition hardware_event (e : Event) : bool :=
  match e with
  | Command _ | DigitalWrite _ _ | Delay _ => true
  | _ => false
  end.

(** What the worker leaves alone from the start of an acquisition to the
    end of its poll loop. *)
Definition worker_frame (s s' : Gnss) : Prop :=
  _commandQueue s' = _commandQueue s
  /\ _responseQueue s' = _responseQueue s
  /\ _conf s' = _conf s
  /\ _reqid s' = _reqid s
  /\ callerPoint s' = callerPoint s
  /\ exists es, log s' = log s ++ es /\ forallb hardware_event es = true.

(** The completion an acquisition delivers through the callback. *)
Definition completion_events (event : LocationCommandContext) (s' : Gnss)
  : list Event :=
  if sendResponse event then []
  else match doneCallback event with
       | Some id => [Callback id (lastResults s') (lastLocation s')]
       | None => []
       end.

(** The worker making one pass of its loop while a caller waits. *)
Definition worker_runs (mktime : Tm.t -> Z * Tm.t) (PIN_INVALID : Z)
    (obs : AcquireObs) (s : Gnss) : Gnss :=
  match threadLoop_iteration mktime PIN_INVALID obs s with
  | Some (_, s') => s'
  | None => s
  end.

(** The command [getLocation] enqueues and the one [getLocationAsync]
    enqueues. *)
Definition sync_command : LocationCommandContext :=
  mkLocationCommandContext Cmd_Acquire true None false true.

Definition async_command (callback : option nat) : LocationCommandContext :=
  mkLocationCommandContext Cmd_Acquire false callback false false.

(** * Further functions of the library *)

(** A [Variant] is modelled like the JSON writer, by the calls made on it:
    a scalar, or the [set] calls an object received, oldest first. *)
#[warnings="-register-all"]
Inductive Variant : Type :=
| VarInt (z : Z)
| VarUInt (z : Z)
| VarDouble (q : Q)
| VarString (s : string)
| VarObject (sets : list (string * Variant)).

(** [LocationPoint::toVariant]: the [set] calls made on [obj]. *)
Definition toVariant (p : LocationPoint) : list (string * Variant) :=
  if fix_ p =? 0 then
    [("lck"%string, VarInt 0)]
  else
    [("lck"%string, VarInt 1);
     ("time"%string, VarUInt (to_uint (epochTime p)));
     ("lat"%string, VarDouble (latitude p));
     ("lon"%string, VarDouble (longitude p));
     ("alt"%string, VarDouble (altitude p));
     ("hd"%string, VarDouble (heading p));
     ("spd"%string, VarDouble (speed p));
     ("hdop"%string, VarDouble (horizontalDop p))]
    ++ (if Qlt_bool 0 (horizontalAccuracy p)
        then [("h_acc"%string, VarDouble (horizontalAccuracy p))] else [])
    ++ (if Qlt_bool 0 (verticalAccuracy p)
        then [("v_acc"%string, VarDouble (verticalAccuracy p))] else [])
    ++ [("nsat"%string, VarUInt (satsInUse p));
        ("ttff"%string, VarDouble (timeToFirstFix p))].

(** [getLocationEventVariant]: the [set] calls made on [obj], and the
    engine with the request id used up. *)
Definition getLocationEventVariant (point_ : option LocationPoint) (s : Gnss)
  : list (string * Variant) * Gnss :=
  let p := match point_ with Some p => p | None => lastLocation s end in
  ([("cmd"%string, VarString "loc")]
   ++ (if negb (systemTime p =? 0)
       then [("time"%string, VarUInt (to_uint (systemTime p)))] else [])
   ++ [("loc"%string, VarObject (toVariant p));
       ("req_id"%string, VarUInt (_reqid s))],
   set_reqid s (to_uint (_reqid s + 1))).

(** The value a [Variant] holds for a value handed to the JSON writer. *)
Definition variant_of_json (t : JsonToken) : Variant :=
  match t with
  | ValInt z => VarInt z
  | ValUInt z => VarUInt z
  | ValFloat q _ => VarDouble q
  | ValString s => VarString s
  | _ => VarObject []
  end.

Definition is_callback (id : nat) (e : Event) : bool :=
  match e with
  | Callback id' _ _ => Nat.eqb id id'
  | _ => false
  end.

(** The point the callback [id] was last called with, among the events
    logged after the first [n]. *)
Definition callback_point (id : nat) (n : nat) (l : list Event)
  : option LocationPoint :=
  fold_left (fun acc e =>
               match e with
               | Callback id' _ p => if Nat.eqb id id' then Some p else acc
               | _ => acc
               end) (skipn n l) None.

(** The wait of [addToEventHandler]: [while (!done) delay(1)], with one
    pass of the worker per entry of [passes] while the caller waits. The
    lambda, called by the worker, makes the [set] calls of [toVariant] on
    [locVariant] and sets [done]; the caller tests [done] between the
    passes, and the [delay(1)] calls of its wait are not recorded. [None]:
    still waiting when the passes are used up. *)
Fixpoint wait_done (mktime : Tm.t -> Z * Tm.t) (PIN_INVALID : Z) (id : nat)
    (n : nat) (locVariant : list (string * Variant))
    (passes : list AcquireObs) (s : Gnss)
  : option (list (string * Variant) * Gnss) :=
  match callback_point id n (log s) with
  | Some p => Some (locVariant ++ toVariant p, s)
  | None =>
      match passes with
      | [] => None
      | obs :: rest =>
          match threadLoop_iteration mktime PIN_INVALID obs s with
          | Some (true, s') =>
              wait_done mktime PIN_INVALID id n locVariant rest s'
          | Some (false, s') =>
              (* the worker has left its loop: no further pass *)
              match callback_point id n (log s') with
              | Some p => Some (locVariant ++ toVariant p, s')
              | None => None
              end
          | None => None
          end
      end
  end.

(** [addToEventHandler]; [id] names the lambda. *)
Definition addToEventHandler (mktime : Tm.t -> Z * Tm.t) (PIN_INVALID : Z)
    (o : CallObs) (id : nat) (locVariant : list (string * Variant))
    (passes : list AcquireObs) (s : Gnss)
  : option (list (string * Variant) * Gnss) :=
  let n := List.length (log s) in
  let (_, s1) := getLocationAsync o (Some id) s in
  wait_done mktime PIN_INVALID id n locVariant passes s1.

(** No request that would call the callback [id] is queued. *)
Definition not_queued (id : nat) (s : Gnss) : bool :=
  match _commandQueue s with
  | Some event =>
      match doneCallback event with
      | Some id' => negb (Nat.eqb id id')
      | None => true
      end
  | None => true
  end.

(** The request id a payload carries. *)
Definition payload_req_id (payload : list JsonToken) : option Z :=
  match rev payload with
  | EndObject :: ValUInt n :: Name k :: _ =>
      if String.eqb k "req_id" then Some n else None
  | _ => None
  end.

(** Further inputs for the instances of the theorems below. *)
Module Scenarios.

(** Two qualifying fixes, then the modem is found off. *)
Definition until_off : AcquireObs :=
  mkAcquireObs 1000 (Examples.settled_polls ++ [Examples.poll_off]).

(** Reports that never settle until the fix time has run out. *)
Definition timing_out : AcquireObs :=
  mkAcquireObs 1000 Examples.unsettled_polls.

(** The engine after an acquisition that timed out. *)
Definition timed_out : Gnss :=
  match acquire MktimeUtc.mktime Examples.PIN_INVALID Examples.async_request
          timing_out (Examples.ready DEV_QUECTEL_EG91_EX) with
  | Some s => s
  | None => Examples.ready DEV_QUECTEL_EG91_EX
  end.

(** A poll on which the modem is on and no response line arrives. *)
Definition silent_poll (now : Z) : PollObs :=
  mkPollObs true now [] 1704089992 (now + 300) [].

End Scenarios.

(** * Properties *)

(** ** Scanner lemmas *)

Module ScanfFacts.
Import Scanf.

Lemma skip_ws_spaces (ws s : list ascii) :
  forallb isspace ws = true -> skip_ws (ws ++ s) = skip_ws s.
Proof.
  induction ws as [|c ws IH]; simpl; intros H; [reflexivity|].
  apply andb_true_iff in H as [Hc Hws]. rewrite Hc. now apply IH.
Qed.

Lemma skip_ws_nonspace (c : ascii) (s : list ascii) :
  isspace c = false -> skip_ws (c :: s) = c :: s.
Proof. intros H; simpl; now rewrite H. Qed.

Lemma isdigit_not_space (c : ascii) : isdigit c = true -> isspace c = false.
Proof.
  destruct c as [[] [] [] [] [] [] [] []]; vm_compute; congruence.
Qed.

Lemma isdigit_not_sign (c : ascii) : isdigit c = true -> is_sign c = false.
Proof.
  destruct c as [[] [] [] [] [] [] [] []]; vm_compute; congruence.
Qed.

Lemma digits_upto_all (ds rest : list ascii) (w : nat) :
  forallb isdigit ds = true -> no_digit_ahead rest = true ->
  (List.length ds <= w)%nat ->
  digits_upto w (ds ++ rest) = (ds, rest).
Proof.
  revert w; induction ds as [|d ds IH]; intros w Hd Hr Hw.
  - simpl. destruct w; [reflexivity|].
    destruct rest as [|c r]; [reflexivity|].
    simpl in *. apply negb_true_iff in Hr. now rewrite Hr.
  - simpl in Hd. apply andb_true_iff in Hd as [Hc Hds].
    destruct w as [|w]; [simpl in Hw; lia|].
    simpl. rewrite Hc. rewrite IH; auto. simpl in Hw; lia.
Qed.

(** An unsigned number in the text, with or without blanks before it. *)
Lemma scan_uint_digits (ws ds rest : list ascii) :
  forallb isspace ws = true ->
  forallb isdigit ds = true -> ds <> [] -> no_digit_ahead rest = true ->
  scan_uint None (ws ++ ds ++ rest)
  = Matched (strtoul_value false (dec_value ds)) rest.
Proof.
  intros Hws Hd Hne Hr. unfold scan_uint.
  rewrite skip_ws_spaces by assumption.
  destruct ds as [|d ds]; [congruence|].
  simpl in Hd. apply andb_true_iff in Hd as [Hc Hds].
  change ((d :: ds) ++ rest) with (d :: (ds ++ rest)).
  rewrite skip_ws_nonspace by now apply isdigit_not_space.
  rewrite (isdigit_not_sign d Hc). cbv zeta.
  change (d :: ds ++ rest) with ((d :: ds) ++ rest).
  rewrite digits_upto_all; auto.
  - simpl. now rewrite Hc, Hds.
  - unfold eff_width. rewrite length_app. lia.
Qed.

(** No item assigned means nothing is stored. *)
Lemma nargs_zero_no_values (r : list sval * bool) :
  nargs_of r = 0 -> fst r = [].
Proof.
  destruct r as [[|v vals] b]; simpl; [reflexivity|].
  intros H. lia.
Qed.

End ScanfFacts.

(** ** Error lines ([parseCmeError]) *)

Section CmeError.
Import Scanf ScanfFacts.

Lemma CME_FORMAT_directives :
  parse_format CME_FORMAT
  = [DWs; DLit "+"; DLit "C"; DLit "M"; DLit "E"; DWs;
     DLit "E"; DLit "R"; DLit "R"; DLit "O"; DLit "R"; DLit ":"; DWs;
     DUint None true].
Proof. reflexivity. Qed.

Lemma skip_ws_digits (ds rest : list ascii) :
  forallb isdigit ds = true -> ds <> [] -> skip_ws (ds ++ rest) = ds ++ rest.
Proof.
  destruct ds as [|d ds]; [congruence|]. simpl. intros H _.
  apply andb_true_iff in H as [Hc _].
  now rewrite (isdigit_not_space d Hc).
Qed.

Lemma sscanf_cme_line (ws1 ws2 ws3 ds rest : list ascii) :
  forallb isspace ws1 = true -> forallb isspace ws2 = true ->
  forallb isspace ws3 = true ->
  forallb isdigit ds = true -> ds <> [] -> no_digit_ahead rest = true ->
  sscanf (cme_line ws1 ws2 ws3 ds rest) CME_FORMAT
  = ([VUint (strtoul_value false (dec_value ds))], false).
Proof.
  intros H1 H2 H3 Hd Hne Hr.
  unfold sscanf, cme_line. rewrite CME_FORMAT_directives.
  cbn [run]. rewrite skip_ws_spaces by assumption.
  change (cstr "+CME" ++ ws2 ++ cstr "ERROR:" ++ ws3 ++ ds ++ rest)
    with ("+"%char :: "C"%char :: "M"%char :: "E"%char
          :: (ws2 ++ cstr "ERROR:" ++ ws3 ++ ds ++ rest)).
  rewrite skip_ws_nonspace by reflexivity.
  cbn [run Ascii.eqb Bool.eqb].
  rewrite skip_ws_spaces by assumption.
  change (cstr "ERROR:" ++ ws3 ++ ds ++ rest)
    with ("E"%char :: "R"%char :: "R"%char :: "O"%char :: "R"%char
          :: ":"%char :: (ws3 ++ ds ++ rest)).
  rewrite skip_ws_nonspace by reflexivity.
  cbn [run Ascii.eqb Bool.eqb].
  rewrite skip_ws_spaces by assumption.
  rewrite skip_ws_digits by assumption.
  pose proof (scan_uint_digits [] ds rest eq_refl Hd Hne Hr) as E.
  cbn [app] in E. rewrite E. reflexivity.
Qed.

Lemma cme_switch_whitelisted (v : Z) :
  whitelisted v = true -> CME_code (cme_switch v) = v.
Proof.
  unfold whitelisted. simpl. rewrite !orb_true_iff, !Z.eqb_eq.
  intros [H|[H|[H|[H|[H|[H|H]]]]]]; subst; try reflexivity; discriminate.
Qed.

Lemma cme_switch_other (v : Z) :
  whitelisted v = false -> cme_switch v = UNDEFINED.
Proof.
  unfold whitelisted. simpl. rewrite !orb_false_iff, !Z.eqb_neq.
  intros (H1 & H2 & H3 & H4 & H5 & H6 & _).
  destruct v as [|p|p]; try reflexivity.
  do 10 (try (destruct p as [p|p|]; try reflexivity)); congruence.
Qed.

Lemma parseCmeError_cme_line (ws1 ws2 ws3 ds rest : list ascii) :
  forallb isspace ws1 = true -> forallb isspace ws2 = true ->
  forallb isspace ws3 = true ->
  forallb isdigit ds = true -> ds <> [] -> no_digit_ahead rest = true ->
  parseCmeError (cme_line ws1 ws2 ws3 ds rest)
  = cme_switch (strtoul_value false (dec_value ds)).
Proof.
  intros. unfold parseCmeError. rewrite sscanf_cme_line by assumption.
  reflexivity.
Qed.



End CmeError.




(** ** Fix reports ([parseQloc]) *)

Section QlocParser.
Import Scanf ScanfFacts.

Variable mktime : Tm.t -> Z * Tm.t.

Lemma QLOC_FORMAT_directives :
  parse_format QLOC_FORMAT
  = [DWs; DLit "+"; DLit "Q"; DLit "G"; DLit "P"; DLit "S"; DLit "L";
     DLit "O"; DLit "C"; DLit ":"; DWs;
     DUint (Some 2%nat) true; DUint (Some 2%nat) true;
     DUint (Some 2%nat) true; DLit "."; DUint (Some 3%nat) false;
     DLit ","; DFloat true; DLit ","; DFloat true;
     DLit ","; DFloat true; DLit ","; DFloat true;
     DLit ","; DUint None true; DLit ","; DUint (Some 3%nat) true;
     DLit "."; DUint (Some 2%nat) true; DLit ",";
     DFloat true; DLit ","; DFloat true; DLit ",";
     DUint (Some 2%nat) true; DUint (Some 2%nat) true;
     DUint (Some 2%nat) true; DLit ","; DUint None true].
Proof. vm_compute. reflexivity. Qed.

Lemma scan_into_qloc_nil (c : Qloc.Context) : scan_into_qloc [] c = c.
Proof. destruct c; reflexivity. Qed.

Lemma parseQloc_nargs_zero (buf : list ascii) (context : Qloc.Context)
    (point : LocationPoint) :
  nargs_of (sscanf buf QLOC_FORMAT) = 0 ->
  parseQloc mktime buf context point = (-1, context, point).
Proof.
  intros H. unfold parseQloc. rewrite H.
  rewrite (nargs_zero_no_values _ H), scan_into_qloc_nil. reflexivity.
Qed.

Lemma parseQloc_nargs_nonzero (buf : list ascii) (context : Qloc.Context)
    (point : LocationPoint) :
  nargs_of (sscanf buf QLOC_FORMAT) <> 0 ->
  fst (fst (parseQloc mktime buf context point)) = 0.
Proof.
  intros H. unfold parseQloc.
  apply Z.eqb_neq in H. rewrite H.
  destruct (mktime _). reflexivity.
Qed.

Lemma sscanf_qloc_no_plus (ws : list ascii) (c : ascii) (rest : list ascii) :
  forallb isspace ws = true -> isspace c = false -> c <> "+"%char ->
  nargs_of (sscanf (ws ++ c :: rest) QLOC_FORMAT) = 0.
Proof.
  intros Hws Hc Hp. unfold sscanf.
  rewrite QLOC_FORMAT_directives. cbn [run].
  rewrite skip_ws_spaces, skip_ws_nonspace by assumption.
  destruct (Ascii.eqb_spec "+"%char c) as [E|_]; [congruence|reflexivity].
Qed.

(** What [parseQloc] derives on a line it accepts, read off the scanned
    context: the epoch time from [mktime] with the year counted from 2000,
    the speed as the km/h value times 1000, the heading as degrees plus
    minutes over 60. *)
Lemma parseQloc_derived_fields (buf : list ascii) (context : Qloc.Context)
    (point : LocationPoint) :
  nargs_of (sscanf buf QLOC_FORMAT) <> 0 ->
  let c := scan_into_qloc (fst (sscanf buf QLOC_FORMAT)) context in
  let p := snd (parseQloc mktime buf context point) in
  epochTime p
  = fst (mktime
           (Tm.mk (uint_to_int (Qloc.tm_sec c)) (uint_to_int (Qloc.tm_min c))
              (uint_to_int (Qloc.tm_hour c)) (uint_to_int (Qloc.tm_day c))
              (uint_to_int (to_uint (Qloc.tm_month c - 1)))
              (uint_to_int (to_uint (Qloc.tm_year c + 2000 - 1900)))
              (Tm.tm_wday (Qloc.timeinfo c)) (Tm.tm_yday (Qloc.timeinfo c))
              (Tm.tm_isdst (Qloc.timeinfo c))))
  /\ speed p == Qloc.speedKmph c * 1000
  /\ heading p == inject_Z (Qloc.cogDegrees c)
                  + inject_Z (Qloc.cogMinutes c) / 60.
Proof.
  intros H c p. subst p. unfold parseQloc.
  apply Z.eqb_neq in H. rewrite H. fold c.
  destruct (mktime _) as [t ti]. cbn [snd fst epochTime speed heading].
  split; [reflexivity|]. split; apply Qred_correct.
Qed.

End QlocParser.

(** C2, as stated, fails: a fix report cut after the latitude does not fit
    the field count (4 items of 16), yet [parseQloc] reports a match and
    overwrites the output point. *)
Lemma parseQloc_partial_line_overwrites :
  Scanf.nargs_of (Scanf.sscanf (cstr Examples.partial_fix) QLOC_FORMAT) = 4
  /\ fst (fst (parseQloc MktimeUtc.mktime (cstr Examples.partial_fix)
                 Qloc.zero LocationPoint_zero)) = 0
  /\ snd (parseQloc MktimeUtc.mktime (cstr Examples.partial_fix)
            Qloc.zero LocationPoint_zero) <> LocationPoint_zero.
Proof.
  split; [|split].
  - vm_compute. reflexivity.
  - vm_compute. reflexivity.
  - intros H. apply (f_equal latitude) in H. vm_compute in H. discriminate H.
Qed.

(** C2, amended: when the scan of a response line converts no field (the
    [sscanf] count is 0), [parseQloc] returns -1 and leaves the output
    point and the scan context as they were; this is the case of every line
    whose first non-blank character is not '+'. A line that yields at
    least one field is reported as a match (0). *)
Theorem parseQloc_no_field_no_change :
  forall (mktime : Tm.t -> Z * Tm.t) (buf : list ascii)
         (context : Qloc.Context) (point : LocationPoint),
    (Scanf.nargs_of (Scanf.sscanf buf QLOC_FORMAT) = 0 ->
     parseQloc mktime buf context point = (-1, context, point))
    /\ (0 < Scanf.nargs_of (Scanf.sscanf buf QLOC_FORMAT) ->
        fst (fst (parseQloc mktime buf context point)) = 0)
    /\ (forall ws c rest,
           buf = ws ++ c :: rest ->
           forallb isspace ws = true -> isspace c = false -> c <> "+"%char ->
           parseQloc mktime buf context point = (-1, context, point)).
Proof.
  intros mktime buf context point. split; [|split].
  - apply parseQloc_nargs_zero.
  - intros H. apply parseQloc_nargs_nonzero. lia.
  - intros ws c rest -> Hws Hc Hp.
    apply parseQloc_nargs_zero. now apply sscanf_qloc_no_plus.
Qed.

Lemma parseQloc_no_field_no_change_witness :
  parseQloc MktimeUtc.mktime (cstr Examples.empty_fields) Qloc.zero
    LocationPoint_zero = (-1, Qloc.zero, LocationPoint_zero)
  /\ fst (fst (parseQloc MktimeUtc.mktime (cstr Examples.good_fix) Qloc.zero
                 LocationPoint_zero)) = 0
  /\ parseQloc MktimeUtc.mktime (cstr "OK") Qloc.zero LocationPoint_zero
     = (-1, Qloc.zero, LocationPoint_zero).
Proof.
  split; [|split].
  - apply (proj1 (parseQloc_no_field_no_change MktimeUtc.mktime
                    (cstr Examples.empty_fields) Qloc.zero LocationPoint_zero)).
    vm_compute. reflexivity.
  - apply (proj1 (proj2 (parseQloc_no_field_no_change MktimeUtc.mktime
                    (cstr Examples.good_fix) Qloc.zero LocationPoint_zero))).
    vm_compute. reflexivity.
  - apply (proj2 (proj2 (parseQloc_no_field_no_change MktimeUtc.mktime
                    (cstr "OK") Qloc.zero LocationPoint_zero))
             [] "O"%char (cstr "K")); try reflexivity. discriminate.
Defined.

(** C3 at a fix report with 36.0 km/h: the parsed speed is 36000, the km/h
    value times 1000; in meters per second the speed is 10. The epoch time
    and the heading of the same report are as the claim says. *)
Theorem parseQloc_speed_is_kmph_times_1000 :
  forall mktime : Tm.t -> Z * Tm.t,
    let p := snd (parseQloc mktime (cstr Examples.good_fix) Qloc.zero
                    LocationPoint_zero) in
    (speed p == 36000)%Q
    /\ (kmph_to_mps 36 == 10)%Q
    /\ ~ (speed p == kmph_to_mps 36)%Q
    /\ (heading p == 90 + 30 / 60)%Q
    /\ epochTime p = fst (mktime (Tm.mk 51 19 6 1 0 (2000 + 24 - 1900) 0 0 0)).
Proof.
  intros mktime p.
  assert (Hn : Scanf.nargs_of (Scanf.sscanf (cstr Examples.good_fix) QLOC_FORMAT)
               <> 0) by (vm_compute; discriminate).
  destruct (parseQloc_derived_fields mktime (cstr Examples.good_fix) Qloc.zero
              LocationPoint_zero Hn) as (He & Hs & Hh).
  fold p in He, Hs, Hh.
  set (c := scan_into_qloc _ _) in He, Hs, Hh.
  vm_compute in c. subst c.
  cbn [Qloc.timeinfo Qloc.tm_year Qloc.tm_month Qloc.tm_day Qloc.tm_hour
       Qloc.tm_min Qloc.tm_sec Qloc.speedKmph Qloc.cogDegrees Qloc.cogMinutes
       Tm.tm_wday Tm.tm_yday Tm.tm_isdst] in He, Hs, Hh.
  split; [|split; [|split; [|split]]].
  - rewrite Hs. vm_compute. reflexivity.
  - vm_compute. reflexivity.
  - rewrite Hs. vm_compute. discriminate.
  - rewrite Hh. vm_compute. reflexivity.
  - rewrite He. reflexivity.
Qed.

(** ** Constellation table ([setConstellation]) *)

Lemma has_bits_zero (flags : Z) : has_bits flags 0 = false.
Proof. unfold has_bits. now rewrite Z.land_0_r. Qed.

(** The table as the code computes it; -1 stands for "no command". *)
Lemma configNumber_table :
  map (configNumber_of ModemType.BG95_M5)
      (map constellation_bits
         [LOCATION_CONST_GPS_ONLY; LOCATION_CONST_GPS_GLONASS;
          LOCATION_CONST_GPS_BEIDOU; LOCATION_CONST_GPS_GALILEO;
          LOCATION_CONST_GPS_QZSS])
  = [-1; 1; 2; 3; 4]
  /\ map (configNumber_of ModemType.EG91)
         (map constellation_bits
            [LOCATION_CONST_GPS_ONLY; LOCATION_CONST_GPS_GLONASS;
             LOCATION_CONST_GPS_BEIDOU; LOCATION_CONST_GPS_GALILEO;
             LOCATION_CONST_GPS_QZSS])
     = [-1; 4; 7; 6; -1].
Proof. split; reflexivity. Qed.

(** Each pair of a supported variant and an enumerator has one outcome:
    exactly one configuration command, or none. *)
Lemma setConstellation_one_command_or_none (c : LocationConstellation_value)
    (s : Gnss) :
  let s' := snd (setConstellation (constellation_bits c) s) in
  (0 <= configNumber_of (_modemType s) (constellation_bits c)
   /\ log s' = log s ++ [Command (AT_GNSSCONFIG
                            (configNumber_of (_modemType s)
                               (constellation_bits c)))])
  \/ (configNumber_of (_modemType s) (constellation_bits c) = -1 /\ s' = s).
Proof.
  unfold setConstellation.
  destruct (_modemType s) eqn:Em, c; cbn; rewrite ?Em; cbn; auto;
    left; (split; [lia | reflexivity]).
Qed.

(** C5 at the GPS-only selection: on the BG95 and on the EG91 the code
    computes no configuration number and issues no command, where the claim
    has the selection mapped to a code and applied (the EG91 branch assigns
    0 under a test, [flags & 0], that never holds). *)
Theorem setConstellation_gps_only_issues_nothing :
  forall s : Gnss,
    setConstellation (constellation_bits LOCATION_CONST_GPS_ONLY)
      (set_modemType s ModemType.BG95_M5)
    = (0, set_modemType s ModemType.BG95_M5)
    /\ setConstellation (constellation_bits LOCATION_CONST_GPS_ONLY)
         (set_modemType s ModemType.EG91)
       = (0, set_modemType s ModemType.EG91).
Proof. intros s. split; reflexivity. Qed.

(** ** Payload ([toJsonWriter], [buildPublish]) *)

Lemma Qlt_bool_iff (a b : Q) : Qlt_bool a b = true <-> (a < b)%Q.
Proof.
  unfold Qlt_bool. rewrite negb_true_iff. split.
  - intros H. apply Qnot_le_lt. intros Hle.
    apply Qle_bool_iff in Hle. congruence.
  - intros H. destruct (Qle_bool b a) eqn:E; [|reflexivity].
    apply Qle_bool_iff in E. exfalso. now apply (Qlt_not_le a b).
Qed.

Lemma Qlt_bool_false_iff (a b : Q) : Qlt_bool a b = false <-> ~ (a < b)%Q.
Proof.
  rewrite <- Qlt_bool_iff. destruct (Qlt_bool a b); split; congruence.
Qed.

(** C6: the location object of an unlocked point has the single member
    "lck" = 0; for a locked point it has "lck" = 1, the epoch time,
    latitude and longitude with 8 decimals, altitude with 3, heading and
    speed with 2, HDOP with 1, then "h_acc" and "v_acc" with 3 decimals,
    each present exactly when its value is positive, then the satellite
    count and the time to first fix with 1 decimal; [buildPublish] puts
    this object under "loc". *)
Theorem toJsonWriter_location_object :
  forall p : LocationPoint,
    (fix_ p = 0 ->
     object_members (toJsonWriter p true) = Some [("lck"%string, ValInt 0)])
    /\ (fix_ p <> 0 ->
        exists h_acc v_acc,
          object_members (toJsonWriter p true)
          = Some (locked_head p ++ h_acc ++ v_acc ++ locked_tail p)
          /\ ((0 < horizontalAccuracy p)%Q ->
              h_acc = [("h_acc"%string, ValFloat (horizontalAccuracy p) 3)])
          /\ (~ (0 < horizontalAccuracy p)%Q -> h_acc = [])
          /\ ((0 < verticalAccuracy p)%Q ->
              v_acc = [("v_acc"%string, ValFloat (verticalAccuracy p) 3)])
          /\ (~ (0 < verticalAccuracy p)%Q -> v_acc = []))
    /\ (forall seq, exists head,
           buildPublish p seq
           = head ++ [Name "loc"] ++ toJsonWriter p true
             ++ [Name "req_id"; ValUInt seq; EndObject]).
Proof.
  intros p. split; [|split].
  - intros H. unfold toJsonWriter. rewrite H. reflexivity.
  - intros H. apply Z.eqb_neq in H.
    exists (if Qlt_bool 0 (horizontalAccuracy p)
            then [("h_acc"%string, ValFloat (horizontalAccuracy p) 3)] else []).
    exists (if Qlt_bool 0 (verticalAccuracy p)
            then [("v_acc"%string, ValFloat (verticalAccuracy p) 3)] else []).
    split.
    + unfold toJsonWriter. rewrite H.
      destruct (Qlt_bool 0 (horizontalAccuracy p)),
               (Qlt_bool 0 (verticalAccuracy p)); reflexivity.
    + repeat split; intros Hq.
      * apply Qlt_bool_iff in Hq. now rewrite Hq.
      * apply Qlt_bool_false_iff in Hq. now rewrite Hq.
      * apply Qlt_bool_iff in Hq. now rewrite Hq.
      * apply Qlt_bool_false_iff in Hq. now rewrite Hq.
  - intros seq. unfold buildPublish.
    eexists. rewrite app_assoc. reflexivity.
Qed.

Lemma toJsonWriter_location_object_witness :
  object_members (toJsonWriter LocationPoint_zero true)
  = Some [("lck"%string, ValInt 0)]
  /\ object_members (toJsonWriter example_point true)
     = Some [("lck"%string, ValInt 1);
             ("time"%string, ValUInt 1704089991);
             ("lat"%string, ValFloat 37.422408 8);
             ("lon"%string, ValFloat (-122.084066) 8);
             ("alt"%string, ValFloat 30 3);
             ("hd"%string, ValFloat 90 2);
             ("spd"%string, ValFloat 10 2);
             ("hdop"%string, ValFloat 1.2 1);
             ("h_acc"%string, ValFloat 15 3);
             ("nsat"%string, ValUInt 8);
             ("ttff"%string, ValFloat 12.5 1)].
Proof.
  split.
  - apply (proj1 (toJsonWriter_location_object LocationPoint_zero)).
    reflexivity.
  - destruct (proj1 (proj2 (toJsonWriter_location_object example_point)))
      as (h & v & E & Hh & _ & _ & Hv).
    + discriminate.
    + rewrite E, Hh, Hv; [reflexivity | | ].
      * vm_compute. discriminate.
      * vm_compute. reflexivity.
Defined.

(** ** Worker ([threadLoop]) *)

Lemma gnss_mode_app (l es : list Event) :
  gnss_mode (l ++ es) = fold_left gnss_mode_step es (gnss_mode l).
Proof. unfold gnss_mode. apply fold_left_app. Qed.

Lemma antenna_level_app (pin : Z) (l es : list Event) :
  antenna_level pin (l ++ es)
  = fold_left (antenna_step pin) es (antenna_level pin l).
Proof. unfold antenna_level. apply fold_left_app. Qed.

Lemma quiet_gnss_mode (es : list Event) (on : bool) :
  forallb quiet es = true -> fold_left gnss_mode_step es on = on.
Proof.
  revert on; induction es as [|e es IH]; intros on H; [reflexivity|].
  simpl in H. apply andb_true_iff in H as [He Hes]. simpl.
  rewrite IH by assumption.
  destruct e; try reflexivity. simpl in *.
  apply andb_true_iff in He as [H1 H2].
  apply negb_true_iff in H1, H2. now rewrite H1, H2.
Qed.

Lemma quiet_antenna_level (pin : Z) (es : list Event) (lv : option bool) :
  forallb quiet es = true -> fold_left (antenna_step pin) es lv = lv.
Proof.
  revert lv; induction es as [|e es IH]; intros lv H; [reflexivity|].
  simpl in H. apply andb_true_iff in H as [He Hes]. simpl.
  rewrite IH by assumption.
  destruct e; try reflexivity. discriminate.
Qed.

Lemma same_hardware_refl (s : Gnss) : same_hardware s s.
Proof.
  unfold same_hardware. repeat split. exists []. now rewrite app_nil_r.
Qed.

Lemma same_hardware_trans (s1 s2 s3 : Gnss) :
  same_hardware s1 s2 -> same_hardware s2 s3 -> same_hardware s1 s3.
Proof.
  intros (A1 & A2 & A3 & A4 & A5 & A6 & A7 & es1 & L1 & Q1)
         (B1 & B2 & B3 & B4 & B5 & B6 & B7 & es2 & L2 & Q2).
  unfold same_hardware. repeat split; try congruence.
  exists (es1 ++ es2). split.
  - now rewrite L2, L1, app_assoc.
  - rewrite forallb_app. now rewrite Q1, Q2.
Qed.

Lemma same_hardware_add_log (s : Gnss) (es : list Event) :
  forallb quiet es = true -> same_hardware s (add_log s es).
Proof.
  intros H. unfold same_hardware. repeat split. now exists es.
Qed.

Section Worker.

Variable mktime : Tm.t -> Z * Tm.t.
Variable PIN_INVALID : Z.

Lemma poll_body_same_hardware (start : Z) (o : PollObs) (fixCount : Z)
    (s : Gnss) :
  same_hardware s (snd (poll_body mktime start o fixCount s)).
Proof.
  unfold poll_body.
  destruct (parseQlocResponse _ _ _ _) as [[ret ctx] pt].
  destruct (CME_eqb FIX ret); cbn [snd];
    [destruct (0 =? timeToFirstFixMs _);
     destruct (ModemType.eqb ModemType.BG95_M5 _);
     try destruct (parseEpeResponse _ _ _) as [ectx pt']|];
    unfold same_hardware; cbn -[AT_QGPSLOC AT_ESTIMATION_ERROR app quiet];
    repeat split; rewrite <- ?app_assoc;
    eexists; (split; [reflexivity|]); vm_compute; reflexivity.
Qed.

Lemma poll_loop_same_hardware (start maxTime : Z) (polls : list PollObs) :
  forall (fixCount : Z) (s : Gnss) (ex : LoopExit),
    poll_loop mktime start maxTime polls fixCount s = Some ex ->
    same_hardware s (exit_state ex).
Proof.
  induction polls as [|o rest IH]; intros fixCount s ex H; [discriminate|].
  cbn [poll_loop] in H.
  destruct (negb (obs_isModemOn o)).
  { injection H as <-. apply same_hardware_refl. }
  destruct (maxTime <=? to_uint64 (obs_now o - start)).
  { injection H as <-. apply same_hardware_refl. }
  pose proof (poll_body_same_hardware start o fixCount s) as Hb.
  destruct (poll_body mktime start o fixCount s) as [[fc fixed] s1].
  cbn [snd] in Hb. destruct fixed.
  - injection H as <-. exact Hb.
  - apply IH in H. eapply same_hardware_trans; [exact Hb|].
    eapply same_hardware_trans; [|exact H].
    apply same_hardware_add_log. reflexivity.
Qed.

(** The loop stops at the latest on the first observation that shows the
    modem off or the time used up. *)
Lemma poll_loop_stops (start maxTime : Z) (polls : list PollObs) :
  forall (fixCount : Z) (s : Gnss),
    existsb (stops_loop start maxTime) polls = true ->
    exists ex, poll_loop mktime start maxTime polls fixCount s = Some ex.
Proof.
  induction polls as [|o rest IH]; intros fixCount s H; [discriminate|].
  cbn [existsb] in H. cbn [poll_loop].
  unfold stops_loop in H at 1.
  destruct (negb (obs_isModemOn o)); [eauto|].
  destruct (maxTime <=? to_uint64 (obs_now o - start)); [eauto|].
  cbn [orb] in H.
  destruct (poll_body mktime start o fixCount s) as [[fc fixed] s1].
  destruct fixed; [eauto|]. now apply IH.
Qed.

(** The local [response] and [power] at the end of the loop. *)
Lemma poll_loop_exit_cases (start maxTime : Z) (polls : list PollObs) :
  forall (fixCount : Z) (s : Gnss) (ex : LoopExit),
    poll_loop mktime start maxTime polls fixCount s = Some ex ->
    (exit_response ex = Fixed /\ exit_power ex = true)
    \/ (exit_response ex = TimedOut /\ exit_power ex = true)
    \/ (exit_response ex = TimedOut /\ exit_power ex = false).
Proof.
  induction polls as [|o rest IH]; intros fixCount s ex H; [discriminate|].
  cbn [poll_loop] in H.
  destruct (negb (obs_isModemOn o)).
  { injection H as <-. auto. }
  destruct (maxTime <=? to_uint64 (obs_now o - start)).
  { injection H as <-. auto. }
  destruct (poll_body mktime start o fixCount s) as [[fc fixed] s1].
  destruct fixed.
  - injection H as <-. auto.
  - eapply IH; eassumption.
Qed.

Lemma poll_loop_app_some (start maxTime : Z) (pre rest : list PollObs) :
  forall (fixCount : Z) (s : Gnss) (ex : LoopExit),
    poll_loop mktime start maxTime pre fixCount s = Some ex ->
    poll_loop mktime start maxTime (pre ++ rest) fixCount s
    = Some (mkLoopExit (exit_state ex) (exit_response ex) (exit_power ex)
              (exit_fixCount ex) (exit_rest ex ++ rest)).
Proof.
  induction pre as [|o pre IH]; intros fixCount s ex H; [discriminate|].
  cbn [poll_loop app] in *.
  destruct (negb (obs_isModemOn o)).
  { injection H as <-. reflexivity. }
  destruct (maxTime <=? to_uint64 (obs_now o - start)).
  { injection H as <-. reflexivity. }
  destruct (poll_body mktime start o fixCount s) as [[fc fixed] s1].
  destruct fixed.
  - injection H as <-. reflexivity.
  - now apply IH.
Qed.

Lemma poll_loop_power_off (start maxTime : Z) (pre : list PollObs)
    (o : PollObs) :
  forall (fixCount : Z) (s : Gnss),
    poll_loop mktime start maxTime pre fixCount s = None ->
    obs_isModemOn o = false ->
    exists s1 fc,
      forall rest,
        poll_loop mktime start maxTime (pre ++ o :: rest) fixCount s
        = Some (mkLoopExit s1 TimedOut false fc rest).
Proof.
  induction pre as [|p pre IH]; intros fixCount s H Ho.
  - exists s, fixCount. intros rest.
    cbn [app poll_loop]. now rewrite Ho.
  - cbn [poll_loop app] in *.
    destruct (negb (obs_isModemOn p)); [discriminate|].
    destruct (maxTime <=? to_uint64 (obs_now p - start)); [discriminate|].
    destruct (poll_body mktime start p fixCount s) as [[fc fixed] s1].
    destruct fixed; [discriminate|]. now apply IH.
Qed.

Lemma acquire_finish_lastResults (event : LocationCommandContext)
    (ex : LoopExit) :
  lastResults (acquire_finish PIN_INVALID event ex) = final_response ex.
Proof.
  unfold acquire_finish.
  destruct (sendResponse event); [|destruct (doneCallback event)];
    reflexivity.
Qed.

(** A fix report counts towards the settling count whatever its quality,
    and the loop accepts only on the report that makes the count 2. *)
Lemma poll_body_fixCount (start : Z) (o : PollObs) (fixCount : Z) (s : Gnss) :
  let '(fc, fixed, _) := poll_body mktime start o fixCount s in
  fixCount <= fc /\ (fixed = true -> fc = LOCATION_REQUIRED_SETTLING_COUNT
                                     /\ fixCount = 1).
Proof.
  unfold poll_body.
  destruct (parseQlocResponse _ _ _ _) as [[ret ctx] pt].
  destruct (CME_eqb FIX ret).
  - split; [lia|]. unfold accepts. intros H.
    apply andb_true_iff in H as [H _]. apply andb_true_iff in H as [H _].
    apply Z.eqb_eq in H. unfold LOCATION_REQUIRED_SETTLING_COUNT in *. lia.
  - split; [lia|discriminate].
Qed.

(** Once two fix reports have been counted, no later report is accepted. *)
Lemma poll_loop_no_fix_after_two (start maxTime : Z) (polls : list PollObs) :
  forall (fixCount : Z) (s : Gnss) (ex : LoopExit),
    2 <= fixCount ->
    poll_loop mktime start maxTime polls fixCount s = Some ex ->
    exit_response ex = TimedOut.
Proof.
  induction polls as [|o rest IH]; intros fixCount s ex Hfc H; [discriminate|].
  cbn [poll_loop] in H.
  destruct (negb (obs_isModemOn o)).
  { injection H as <-. reflexivity. }
  destruct (maxTime <=? to_uint64 (obs_now o - start)).
  { injection H as <-. reflexivity. }
  pose proof (poll_body_fixCount start o fixCount s) as Hb.
  destruct (poll_body mktime start o fixCount s) as [[fc fixed] s1].
  destruct Hb as [Hle Hfix]. destruct fixed.
  - destruct (Hfix eq_refl). lia.
  - eapply IH; [|eassumption]. lia.
Qed.

Lemma quiet_gnssconfig (n : Z) : quiet (Command (AT_GNSSCONFIG n)) = true.
Proof.
  unfold quiet, cmd_eqb.
  destruct (list_eq_dec ascii_dec (AT_GNSSCONFIG n) AT_QGPS_ON) as [E|_].
  { unfold AT_GNSSCONFIG in E. cbn in E. discriminate E. }
  destruct (list_eq_dec ascii_dec (AT_GNSSCONFIG n) AT_QGPSEND) as [E|_].
  { unfold AT_GNSSCONFIG in E. cbn in E. discriminate E. }
  reflexivity.
Qed.

Lemma setConstellation_same_hardware (flags : Z) (s : Gnss) :
  same_hardware s (snd (setConstellation flags s)).
Proof.
  unfold setConstellation. destruct (0 <=? _); cbn [snd].
  - apply same_hardware_add_log. cbn [forallb].
    now rewrite quiet_gnssconfig.
  - apply same_hardware_refl.
Qed.

Lemma gnss_mode_after_config (l : list Event) (n : Z) :
  gnss_mode (l ++ [Command (AT_GNSSCONFIG n)]) = gnss_mode l.
Proof.
  rewrite gnss_mode_app. apply quiet_gnss_mode.
  cbn [forallb]. now rewrite quiet_gnssconfig.
Qed.

Lemma acquire_start_props (s : Gnss) :
  let s1 := acquire_start PIN_INVALID s in
  _modemType s1 = _modemType s
  /\ _antennaPowerPin s1 = _antennaPowerPin s
  /\ _conf s1 = _conf s
  /\ gnssStarted s1 = true
  /\ ((gnssStarted s = true -> gnss_mode (log s) = true) ->
      gnss_mode (log s1) = true).
Proof.
  unfold acquire_start, setAntennaPower, setConstellation.
  destruct s as [cq rq acq lb eb qc ec started ttff ll lr conf pin modem
                 reqid cp lg].
  cbn -[gnss_mode app AT_GNSSCONFIG configNumber_of Z.leb].
  destruct started; cbn -[gnss_mode app AT_GNSSCONFIG configNumber_of Z.leb].
  { repeat split. intros H. now apply H. }
  destruct (negb (PIN_INVALID =? pin)), modem;
    cbn -[gnss_mode app AT_GNSSCONFIG configNumber_of Z.leb];
    try destruct (0 <=? configNumber_of _ _);
    cbn -[gnss_mode app AT_GNSSCONFIG configNumber_of Z.leb];
    repeat split; intros _;
    rewrite ?gnss_mode_after_config;
    rewrite <- ?app_assoc, gnss_mode_app; reflexivity.
Qed.

Lemma acquire_finish_bg95 (event : LocationCommandContext) (ex : LoopExit) :
  _modemType (exit_state ex) = ModemType.BG95_M5 ->
  let s' := acquire_finish PIN_INVALID event ex in
  gnssStarted s' = false
  /\ gnss_mode (log s') = false
  /\ (_antennaPowerPin (exit_state ex) <> PIN_INVALID ->
      antenna_level (_antennaPowerPin (exit_state ex)) (log s') = Some false).
Proof.
  intros Hm. unfold acquire_finish, concurrentGnssAndCellularSupported,
    clearAntennaPower.
  rewrite Hm. cbn [ModemType.eqb negb].
  destruct (exit_state ex) as [cq rq acq lb eb qc ec started ttff ll lr conf
                                pin modem reqid cp lg].
  cbn -[gnss_mode antenna_level app Z.eqb Qred].
  destruct (PIN_INVALID =? pin) eqn:Ep;
    cbn -[gnss_mode antenna_level app Z.eqb Qred];
    destruct (negb (ttff =? 0));
    cbn -[gnss_mode antenna_level app Z.eqb Qred];
    destruct (point event), (sendResponse event), (doneCallback event);
    cbn -[gnss_mode antenna_level app Z.eqb Qred];
    (split; [reflexivity|]);
    (split; [rewrite <- ?app_assoc, gnss_mode_app; reflexivity|]);
    intros Hp;
    try (apply Z.eqb_eq in Ep; congruence);
    rewrite <- ?app_assoc, antenna_level_app; cbn; now rewrite Z.eqb_refl.
Qed.

Lemma acquire_finish_concurrent (event : LocationCommandContext)
    (ex : LoopExit) :
  _modemType (exit_state ex) <> ModemType.BG95_M5 ->
  let s' := acquire_finish PIN_INVALID event ex in
  gnssStarted s' = gnssStarted (exit_state ex)
  /\ gnss_mode (log s') = gnss_mode (log (exit_state ex)).
Proof.
  intros Hm. unfold acquire_finish, concurrentGnssAndCellularSupported.
  destruct (exit_state ex) as [cq rq acq lb eb qc ec started ttff ll lr conf
                                pin modem reqid cp lg].
  cbn [_modemType] in Hm.
  replace (ModemType.eqb ModemType.BG95_M5
             (_modemType (mkGnss cq rq acq lb eb qc ec started ttff ll lr
                            conf pin modem reqid cp lg))) with false
    by (destruct modem; try reflexivity; congruence).
  cbn -[gnss_mode app Z.eqb Qred].
  destruct (negb (ttff =? 0)); cbn -[gnss_mode app Z.eqb Qred];
    destruct (point event), (sendResponse event), (doneCallback event);
    cbn -[gnss_mode app Z.eqb Qred];
    (split; [reflexivity|]);
    rewrite ?gnss_mode_app; reflexivity.
Qed.

Lemma final_response_cases (ex : LoopExit) :
  (exit_response ex = Fixed /\ exit_power ex = true)
  \/ (exit_response ex = TimedOut /\ exit_power ex = true)
  \/ (exit_response ex = TimedOut /\ exit_power ex = false) ->
  final_response ex = Fixed \/ final_response ex = TimedOut
  \/ final_response ex = Unavailable.
Proof.
  unfold final_response.
  intros [[-> ->]|[[-> ->]|[-> ->]]]; cbn; auto.
Qed.

End Worker.

(** C1 on the sequence of the claim: a qualifying fix, a report over the
    HDOP threshold, then two qualifying fixes. The count of fix reports is
    2 at the rejected report and is never 2 again, so the acquisition ends
    timed-out, where the claim says "fixed". In the other direction a
    report over the threshold followed by one qualifying fix is accepted. *)
Theorem settling_count_never_restarts :
  option_map lastResults
    (acquire MktimeUtc.mktime Examples.PIN_INVALID Examples.async_request
       (mkAcquireObs 1000 Examples.recovering_polls)
       (Examples.ready DEV_QUECTEL_EG91_EX))
  = Some TimedOut
  /\ option_map lastResults
       (acquire MktimeUtc.mktime Examples.PIN_INVALID Examples.async_request
          (mkAcquireObs 1000
             [Examples.poll 1000 Examples.poor_fix;
              Examples.poll 2000 Examples.good_fix])
          (Examples.ready DEV_QUECTEL_EG91_EX))
     = Some Fixed.
Proof. split; vm_compute; reflexivity. Qed.

(** C7: when an observation shows the modem off while the poll loop is
    still running, the loop ends there (what comes after is never observed)
    and the outcome is Unavailable; an acquisition that has ended Fixed
    keeps that outcome whatever is observed afterwards. *)
Theorem power_off_ends_unavailable :
  forall (mktime : Tm.t -> Z * Tm.t) (PIN_INVALID : Z)
         (event : LocationCommandContext) (start : Z)
         (pre : list PollObs) (o : PollObs) (s : Gnss),
    obs_isModemOn o = false ->
    (acquire mktime PIN_INVALID event (mkAcquireObs start pre) s = None ->
     exists s',
       lastResults s' = Unavailable
       /\ lastResults s' <> TimedOut
       /\ forall rest,
            acquire mktime PIN_INVALID event
              (mkAcquireObs start (pre ++ o :: rest)) s = Some s')
    /\ (forall s',
           acquire mktime PIN_INVALID event (mkAcquireObs start pre) s
           = Some s' ->
           lastResults s' = Fixed ->
           forall rest,
             acquire mktime PIN_INVALID event
               (mkAcquireObs start (pre ++ o :: rest)) s = Some s').
Proof.
  intros mktime PIN event start pre o s Ho. unfold acquire.
  cbn [obs_start obs_polls].
  set (s0 := acquire_start PIN s).
  set (maxTime := to_uint64 (to_uint (_maxFixSeconds (_conf s0)) * 1000)).
  split.
  - intros H.
    destruct (poll_loop mktime start maxTime pre 0 s0) as [ex|] eqn:E;
      [discriminate|].
    destruct (poll_loop_power_off mktime start maxTime pre o 0 s0 E Ho)
      as (s1 & fc & Hrest).
    exists (acquire_finish PIN event (mkLoopExit s1 TimedOut false fc [])).
    assert (R : lastResults
                  (acquire_finish PIN event (mkLoopExit s1 TimedOut false fc []))
                = Unavailable)
      by (rewrite acquire_finish_lastResults; reflexivity).
    split; [exact R|]. split; [rewrite R; discriminate|].
    intros rest. rewrite Hrest. reflexivity.
  - intros s' H Hfix rest.
    destruct (poll_loop mktime start maxTime pre 0 s0) as [ex|] eqn:E;
      [|discriminate].
    rewrite (poll_loop_app_some mktime start maxTime pre (o :: rest) 0 s0 ex E).
    rewrite <- H. reflexivity.
Qed.

Lemma power_off_ends_unavailable_witness :
  option_map lastResults
    (acquire MktimeUtc.mktime Examples.PIN_INVALID Examples.async_request
       (mkAcquireObs 1000 [Examples.poll 1000 Examples.good_fix;
                           Examples.poll_off])
       (Examples.ready DEV_QUECTEL_BG95_M5))
  = Some Unavailable
  /\ option_map lastResults
       (acquire MktimeUtc.mktime Examples.PIN_INVALID Examples.async_request
          (mkAcquireObs 1000 [Examples.poll 1000 Examples.good_fix;
                              Examples.poll 2000 Examples.good_fix;
                              Examples.poll_off])
          (Examples.ready DEV_QUECTEL_BG95_M5))
     = Some Fixed.
Proof.
  split.
  - destruct (proj1 (power_off_ends_unavailable MktimeUtc.mktime
                       Examples.PIN_INVALID Examples.async_request 1000
                       [Examples.poll 1000 Examples.good_fix]
                       Examples.poll_off
                       (Examples.ready DEV_QUECTEL_BG95_M5) eq_refl))
      as (s' & R & _ & H).
    + vm_compute. reflexivity.
    + cbn [app] in H. rewrite (H []). cbn [option_map]. now rewrite R.
  - pose proof (proj2 (power_off_ends_unavailable MktimeUtc.mktime
                         Examples.PIN_INVALID Examples.async_request 1000
                         [Examples.poll 1000 Examples.good_fix;
                          Examples.poll 2000 Examples.good_fix]
                         Examples.poll_off
                         (Examples.ready DEV_QUECTEL_BG95_M5) eq_refl)) as H.
    cbn [app] in H.
    destruct (acquire MktimeUtc.mktime Examples.PIN_INVALID
                Examples.async_request
                (mkAcquireObs 1000 [Examples.poll 1000 Examples.good_fix;
                                    Examples.poll 2000 Examples.good_fix])
                (Examples.ready DEV_QUECTEL_BG95_M5)) as [s'|] eqn:E.
    + assert (F : lastResults s' = Fixed).
      { apply (f_equal (option_map lastResults)) in E.
        vm_compute in E. injection E as E. symmetry. exact E. }
      rewrite (H s' eq_refl F []). cbn [option_map]. now rewrite F.
    + exfalso. apply (f_equal (option_map lastResults)) in E.
      vm_compute in E. discriminate E.
Defined.

Lemma acquire_concurrent_keeps_running (mktime : Tm.t -> Z * Tm.t)
    (PIN_INVALID : Z) (event : LocationCommandContext) (obs : AcquireObs)
    (s s' : Gnss) :
  _modemType s <> ModemType.BG95_M5 ->
  gnss_invariant s ->
  acquire mktime PIN_INVALID event obs s = Some s' ->
  gnssStarted s' = true /\ gnss_mode (log s') = true.
Proof.
  intros Hm Hinv. unfold acquire.
  destruct (acquire_start_props PIN_INVALID s) as (M0 & P0 & C0 & G0 & GM0).
  set (s0 := acquire_start PIN_INVALID s) in *.
  destruct (poll_loop mktime _ _ _ 0 s0) as [ex|] eqn:E; [|discriminate].
  intros H. injection H as <-.
  pose proof (poll_loop_same_hardware mktime _ _ _ _ _ _ E)
    as (M1 & P1 & _ & G1 & _ & _ & _ & es & L1 & Q1).
  destruct (acquire_finish_concurrent PIN_INVALID event ex) as (A & B).
  { rewrite M1, M0. exact Hm. }
  split; [congruence|].
  rewrite B, L1, gnss_mode_app, quiet_gnss_mode by assumption.
  now apply GM0.
Qed.

(** The agreement of the started flag with the log holds when the object
    is built and after every acquisition. *)
Lemma gnss_invariant_init (PIN_INVALID : Z) (locBuffer epeBuffer : list ascii) :
  gnss_invariant (Gnss_init PIN_INVALID locBuffer epeBuffer).
Proof. unfold gnss_invariant. cbn. discriminate. Qed.

Lemma gnss_invariant_acquire (mktime : Tm.t -> Z * Tm.t) (PIN_INVALID : Z)
    (event : LocationCommandContext) (obs : AcquireObs) (s s' : Gnss) :
  gnss_invariant s ->
  acquire mktime PIN_INVALID event obs s = Some s' ->
  gnss_invariant s'.
Proof.
  intros Hinv H.
  destruct (ModemType.eqb ModemType.BG95_M5 (_modemType s)) eqn:Em.
  - assert (Hm : _modemType s = ModemType.BG95_M5)
      by (destruct (_modemType s); try discriminate; reflexivity).
    unfold acquire in H.
    destruct (acquire_start_props PIN_INVALID s) as (M0 & _).
    destruct (poll_loop mktime _ _ _ 0 _) as [ex|] eqn:E; [|discriminate].
    injection H as <-.
    pose proof (poll_loop_same_hardware mktime _ _ _ _ _ _ E) as (M1 & _).
    destruct (acquire_finish_bg95 PIN_INVALID event ex) as (A & _);
      [congruence|].
    unfold gnss_invariant. rewrite A. discriminate.
  - intros _.
    eapply acquire_concurrent_keeps_running; try eassumption.
    intros Hm. rewrite Hm in Em. discriminate.
Qed.

(** [begin] copies the configuration with the class's assignment operator,
    which leaves [_hacc] out: the engine keeps the accuracy threshold of the
    default configuration, 50 m. *)
Lemma begin_keeps_default_hacc (PIN_INVALID : Z)
    (configuration : LocationConfiguration) (o : CallObs)
    (locBuffer epeBuffer : list ascii) :
  _hacc (_conf (snd (begin PIN_INVALID configuration o
                       (Gnss_init PIN_INVALID locBuffer epeBuffer)))) = 50%Q.
Proof.
  unfold begin, detectModemType, setConstellation.
  cbn -[configNumber_of Z.leb Z.eqb AT_GNSSCONFIG].
  destruct (negb (PIN_INVALID =? _antennaPin configuration));
    cbn -[configNumber_of Z.leb Z.eqb AT_GNSSCONFIG];
    destruct (call_isModemOn o);
    cbn -[configNumber_of Z.leb Z.eqb AT_GNSSCONFIG]; try reflexivity;
    destruct (call_isModemOn_detect o);
    cbn -[configNumber_of Z.leb Z.eqb AT_GNSSCONFIG]; try reflexivity;
    destruct (call_dev o);
    cbn -[configNumber_of Z.leb Z.eqb AT_GNSSCONFIG]; try reflexivity;
    destruct (0 <=? configNumber_of _ _); reflexivity.
Qed.

(** C8: every acquisition that ends, ends Fixed, TimedOut or Unavailable,
    and it ends as soon as the modem is seen off or the fix time is used
    up. On the BG95 it leaves GNSS mode off, the started flag cleared and
    the antenna pin, when one is configured, low. On the EG91 it leaves
    the started flag set and GNSS mode on. *)
Theorem acquire_gnss_mode_by_variant :
  forall (mktime : Tm.t -> Z * Tm.t) (PIN_INVALID : Z)
         (event : LocationCommandContext) (obs : AcquireObs) (s : Gnss),
    (existsb (stops_loop (obs_start obs)
                (to_uint64 (to_uint (_maxFixSeconds (_conf s)) * 1000)))
       (obs_polls obs) = true ->
     exists s', acquire mktime PIN_INVALID event obs s = Some s')
    /\ (forall s',
           acquire mktime PIN_INVALID event obs s = Some s' ->
           (lastResults s' = Fixed \/ lastResults s' = TimedOut
            \/ lastResults s' = Unavailable)
           /\ (_modemType s = ModemType.BG95_M5 ->
               gnssStarted s' = false
               /\ gnss_mode (log s') = false
               /\ (_antennaPowerPin s <> PIN_INVALID ->
                   antenna_level (_antennaPowerPin s) (log s') = Some false))
           /\ (_modemType s = ModemType.EG91 ->
               (gnssStarted s = true -> gnss_mode (log s) = true) ->
               gnssStarted s' = true /\ gnss_mode (log s') = true)).
Proof.
  intros mktime PIN event obs s. unfold acquire.
  destruct (acquire_start_props PIN s) as (M0 & P0 & C0 & G0 & GM0).
  set (s0 := acquire_start PIN s) in *.
  rewrite C0. set (maxTime := to_uint64 _).
  split.
  - intros H.
    destruct (poll_loop_stops mktime (obs_start obs) maxTime (obs_polls obs)
                0 s0 H) as [ex ->]. eauto.
  - intros s' H.
    destruct (poll_loop mktime (obs_start obs) maxTime (obs_polls obs) 0 s0)
      as [ex|] eqn:E; [|discriminate].
    injection H as <-.
    pose proof (poll_loop_same_hardware mktime _ _ _ _ _ _ E)
      as (M1 & P1 & _ & G1 & _ & _ & _ & es & L1 & Q1).
    split; [|split].
    + rewrite acquire_finish_lastResults. apply final_response_cases.
      eapply poll_loop_exit_cases; eassumption.
    + intros Hm.
      destruct (acquire_finish_bg95 PIN event ex) as (A & B & C);
        [congruence|].
      split; [exact A|]. split; [exact B|].
      intros Hp. rewrite <- P0, <- P1. apply C. congruence.
    + intros Hm Hinv.
      destruct (acquire_finish_concurrent PIN event ex) as (A & B).
      { rewrite M1, M0, Hm. discriminate. }
      split; [congruence|].
      rewrite B, L1, gnss_mode_app, quiet_gnss_mode by assumption.
      now apply GM0.
Qed.

Lemma acquire_gnss_mode_by_variant_witness :
  (exists s',
      acquire MktimeUtc.mktime Examples.PIN_INVALID Examples.async_request
        (mkAcquireObs 1000 Examples.unsettled_polls)
        (Examples.ready_pin DEV_QUECTEL_BG95_M5) = Some s'
      /\ gnssStarted s' = false /\ gnss_mode (log s') = false
      /\ antenna_level 5 (log s') = Some false)
  /\ (exists s',
         acquire MktimeUtc.mktime Examples.PIN_INVALID Examples.async_request
           (mkAcquireObs 1000 Examples.settled_polls)
           (Examples.ready_pin DEV_QUECTEL_EG91_NAX) = Some s'
         /\ gnssStarted s' = true /\ gnss_mode (log s') = true).
Proof.
  split.
  - destruct (acquire_gnss_mode_by_variant MktimeUtc.mktime
                Examples.PIN_INVALID Examples.async_request
                (mkAcquireObs 1000 Examples.unsettled_polls)
                (Examples.ready_pin DEV_QUECTEL_BG95_M5)) as [Hex Hpost].
    destruct Hex as [s' E]; [vm_compute; reflexivity|].
    exists s'. split; [exact E|].
    destruct (Hpost s' E) as (_ & HB & _).
    destruct (HB eq_refl) as (A & B & C).
    split; [exact A|]. split; [exact B|].
    apply C. vm_compute. discriminate.
  - destruct (acquire MktimeUtc.mktime Examples.PIN_INVALID
                Examples.async_request
                (mkAcquireObs 1000 Examples.settled_polls)
                (Examples.ready_pin DEV_QUECTEL_EG91_NAX)) as [s'|] eqn:E.
    + exists s'. split; [reflexivity|].
      destruct (proj2 (acquire_gnss_mode_by_variant MktimeUtc.mktime
                         Examples.PIN_INVALID Examples.async_request
                         (mkAcquireObs 1000 Examples.settled_polls)
                         (Examples.ready_pin DEV_QUECTEL_EG91_NAX)) s' E)
        as (_ & _ & HE).
      apply HE; [reflexivity|]. vm_compute. discriminate.
    + exfalso. vm_compute in E. discriminate E.
Defined.

(** ** Caller side ([getLocation], [getLocationAsync]) *)

(** C9: with the modem on, the modem type known and the in-flight flag
    set, both entry points return Pending at once: the only change to the
    engine is the last-result cache (and, for the synchronous call, the
    caller's cleared point); nothing is put on the command queue, no call
    is made on the outside world (in particular no wait on the response
    queue), and the flag stays set. *)
Theorem in_flight_returns_pending :
  forall (o : CallObs) (during_wait : Gnss -> Gnss) (publish_ : bool)
         (callback : option nat) (s : Gnss),
    call_isModemOn o = true ->
    modemNotDetected s = false ->
    _acquiring s = true ->
    (let (r, s') := getLocation o during_wait publish_ s in
     r = Pending
     /\ s' = set_lastResults (set_callerPoint s LocationPoint_zero) Pending
     /\ _commandQueue s' = _commandQueue s
     /\ _responseQueue s' = _responseQueue s
     /\ log s' = log s
     /\ _acquiring s' = true)
    /\ (let (r, s') := getLocationAsync o callback s in
        r = Pending
        /\ s' = set_lastResults s Pending
        /\ _commandQueue s' = _commandQueue s
        /\ _responseQueue s' = _responseQueue s
        /\ log s' = log s
        /\ _acquiring s' = true).
Proof.
  intros o dw pub cb s Hon Hdet Hacq.
  unfold getLocation, getLocationAsync. rewrite Hon. cbn [negb].
  change (modemNotDetected (set_callerPoint s LocationPoint_zero))
    with (modemNotDetected s).
  rewrite Hdet. cbn [negb].
  change (_acquiring (set_callerPoint s LocationPoint_zero))
    with (_acquiring s).
  rewrite Hacq. cbn. repeat split; assumption.
Qed.

Lemma in_flight_returns_pending_witness :
  fst (getLocation (Examples.call_on DEV_QUECTEL_EG91_EX) (fun s => s) true
         (set_acquiring (Examples.ready DEV_QUECTEL_EG91_EX) true)) = Pending
  /\ fst (getLocationAsync (Examples.call_on DEV_QUECTEL_EG91_EX) None
            (set_acquiring (Examples.ready DEV_QUECTEL_EG91_EX) true))
     = Pending.
Proof.
  destruct (in_flight_returns_pending (Examples.call_on DEV_QUECTEL_EG91_EX)
              (fun s => s) true None
              (set_acquiring (Examples.ready DEV_QUECTEL_EG91_EX) true)
              eq_refl eq_refl eq_refl) as [H1 H2].
  destruct (getLocation _ _ _ _) as [r1 s1].
  destruct (getLocationAsync _ _ _) as [r2 s2].
  split; [apply H1 | apply H2].
Defined.

(** C10: a call that is turned away (modem off; modem type unknown and
    not detected; acquisition in flight) returns Unavailable, Unsupported
    or Pending, stores that code in the last-result cache and puts nothing
    on the command queue, so that [getLastResults] gives the code and
    [getHasFix] gives false, whatever the cache held before. *)
Theorem rejection_overwrites_last_results :
  forall (o : CallObs) (during_wait : Gnss -> Gnss) (publish_ : bool)
         (callback : option nat) (s : Gnss) (code : LocationResults),
    (call_isModemOn o = false /\ code = Unavailable)
    \/ (call_isModemOn o = true /\ modemNotDetected s = true
        /\ fst (detectModemType (call_isModemOn_detect o) (call_dev o) s)
           = false
        /\ code = Unsupported)
    \/ (call_isModemOn o = true /\ modemNotDetected s = false
        /\ _acquiring s = true /\ code = Pending) ->
    (let (r, s') := getLocation o during_wait publish_ s in
     r = code /\ getLastResults s' = code /\ getHasFix s' = false
     /\ _commandQueue s' = _commandQueue s)
    /\ (let (r, s') := getLocationAsync o callback s in
        r = code /\ getLastResults s' = code /\ getHasFix s' = false
        /\ _commandQueue s' = _commandQueue s).
Proof.
  intros o dw pub cb s code H.
  unfold getLocation, getLocationAsync, getLastResults, getHasFix.
  change (modemNotDetected (set_callerPoint s LocationPoint_zero))
    with (modemNotDetected s).
  destruct H as [[Hon ->]|[(Hon & Hnd & Hdet & ->)|(Hon & Hnd & Hacq & ->)]];
    rewrite Hon; cbn [negb].
  - cbn. auto.
  - rewrite Hnd.
    assert (Hdet' : fst (detectModemType (call_isModemOn_detect o) (call_dev o)
                           (set_callerPoint s LocationPoint_zero)) = false).
    { revert Hdet. unfold detectModemType.
      change (modemNotDetected (set_callerPoint s LocationPoint_zero))
        with (modemNotDetected s).
      rewrite Hnd. cbn [andb negb].
      destruct (call_isModemOn_detect o); [destruct (call_dev o)|]; auto. }
    assert (Hq : forall t, _commandQueue
                        (snd (detectModemType (call_isModemOn_detect o)
                                (call_dev o) t)) = _commandQueue t).
    { intros t. unfold detectModemType.
      destruct (modemNotDetected t && call_isModemOn_detect o)%bool;
        [destruct (call_dev o)|destruct (_ && _)%bool]; reflexivity. }
    pose proof (Hq s) as Hq1.
    pose proof (Hq (set_callerPoint s LocationPoint_zero)) as Hq2.
    destruct (detectModemType _ _ (set_callerPoint s LocationPoint_zero))
      as [d1 t1].
    destruct (detectModemType _ _ s) as [d2 t2].
    cbn [fst snd] in *. subst d1 d2. cbn. auto.
  - rewrite Hnd. cbn [negb].
    change (_acquiring (set_callerPoint s LocationPoint_zero))
      with (_acquiring s).
    rewrite Hacq. cbn. auto.
Qed.

Lemma rejection_overwrites_last_results_witness :
  getHasFix Examples.after_fix = true
  /\ getHasFix (snd (getLocationAsync Examples.call_off None
                       Examples.after_fix)) = false
  /\ getLastResults (snd (getLocation Examples.call_off (fun s => s) false
                            Examples.after_fix)) = Unavailable.
Proof.
  destruct (rejection_overwrites_last_results Examples.call_off (fun s => s)
              false None Examples.after_fix Unavailable
              (or_introl (conj eq_refl eq_refl))) as [H1 H2].
  destruct (getLocation _ _ _ _) as [r1 s1].
  destruct (getLocationAsync _ _ _) as [r2 s2].
  split; [vm_compute; reflexivity|].
  split; [apply H2 | apply H1].
Defined.

(** The in-flight flag is set by the worker when it picks a request up,
    not by the call that enqueues it: a second request made before the
    worker runs also returns Acquiring, and the full queue drops it. *)
Lemma request_before_pickup_is_dropped (o : CallObs) (cb1 cb2 : option nat)
    (s : Gnss) :
  call_isModemOn o = true ->
  modemNotDetected s = false ->
  _acquiring s = false ->
  _commandQueue s = None ->
  let (r1, s1) := getLocationAsync o cb1 s in
  let (r2, s2) := getLocationAsync o cb2 s1 in
  r1 = Acquiring /\ r2 = Acquiring
  /\ _commandQueue s2
     = Some (mkLocationCommandContext Cmd_Acquire false cb1 false false).
Proof.
  intros Hon Hdet Hacq Hq. unfold getLocationAsync.
  rewrite Hon. cbn [negb]. rewrite Hdet. cbn [negb]. rewrite Hacq, Hq.
  cbn [queue_put].
  change (modemNotDetected (set_commandQueue s ?q)) with (modemNotDetected s).
  rewrite Hdet. cbn [negb].
  change (_acquiring (set_commandQueue s ?q)) with (_acquiring s).
  rewrite Hacq. cbn. auto.
Qed.

(** * Further properties of the engine *)



(** ** Response callbacks ([stripLfCr], [glocCallback], [epeCallback]) *)

Lemma stripLfCr_length (s : list ascii) :
  (List.length (stripLfCr s) <= List.length s)%nat.
Proof. unfold stripLfCr. apply filter_length_le. Qed.

Lemma stripLfCr_clean (s : list ascii) :
  no_line_break s = true -> stripLfCr s = s.
Proof.
  unfold stripLfCr, no_line_break. induction s as [|c s IH]; intros H;
    [reflexivity|].
  cbn [forallb] in H. apply andb_true_iff in H as [Hc Hs].
  cbn [filter]. rewrite Hc. now rewrite IH.
Qed.

Lemma stripLfCr_no_line_break (s : list ascii) :
  no_line_break (stripLfCr s) = true.
Proof.
  unfold stripLfCr, no_line_break. apply forallb_forall.
  intros c Hc. apply filter_In in Hc. tauto.
Qed.

Lemma stripLfCr_app (a b : list ascii) :
  stripLfCr (a ++ b) = stripLfCr a ++ stripLfCr b.
Proof. unfold stripLfCr. apply filter_app. Qed.

(** X1: the two response callbacks are the same function. A line of
    type TYPE_OTHER leaves the buffer as it is; a line of type TYPE_PLUS or
    TYPE_ERROR replaces it by a text without CR or LF, and a buffer that
    fits its array still fits afterwards. [strlcpy] copies at most
    [len - 1] characters: a line handed over with its exact length and no
    line break loses its last character, while a line framed by CR LF pairs,
    no longer than the buffer, is stored as the text between them. *)
Theorem glocCallback_stores_line :
  forall (type : RespType) (buf : list ascii) (len : nat) (old : list ascii),
    (epeCallback type buf len old = glocCallback type buf len old)
    /\ (type = TYPE_OTHER -> glocCallback type buf len old = old)
    /\ (type <> TYPE_OTHER ->
        no_line_break (glocCallback type buf len old) = true)
    /\ ((List.length old < LOC_BUFFER_SIZE)%nat ->
        (List.length (glocCallback type buf len old) < LOC_BUFFER_SIZE)%nat)
    /\ (type <> TYPE_OTHER -> no_line_break buf = true ->
        (0 < len)%nat -> len = List.length buf ->
        (len <= LOC_BUFFER_SIZE)%nat ->
        glocCallback type buf len old = removelast buf)
    /\ (forall text,
           type <> TYPE_OTHER -> no_line_break text = true ->
           buf = framed text -> len = List.length buf ->
           (len <= LOC_BUFFER_SIZE)%nat ->
           glocCallback type buf len old = text).
Proof.
  intros type buf len old.
  assert (Hcopy : forall b, (0 < len)%nat -> len = List.length b ->
                    (len <= LOC_BUFFER_SIZE)%nat ->
                    strlcpy old b (Nat.min len LOC_BUFFER_SIZE) = removelast b).
  { intros b H0 Hl Hle. rewrite Nat.min_l by assumption.
    destruct len as [|n]; [lia|]. cbn [strlcpy].
    rewrite removelast_firstn_len. f_equal. lia. }
  split; [destruct type; reflexivity|].
  split; [intros ->; reflexivity|].
  split; [destruct type; try congruence; intros _;
          apply stripLfCr_no_line_break|].
  split.
  { intros Hold. destruct type; try exact Hold;
      cbn [glocCallback];
      (eapply Nat.le_lt_trans; [apply stripLfCr_length|]);
      (destruct (Nat.min len LOC_BUFFER_SIZE) as [|n] eqn:E;
       cbn [strlcpy]; [exact Hold|]);
      rewrite length_firstn; unfold LOC_BUFFER_SIZE in *; lia. }
  split.
  { intros Ht Hb H0 Hl Hle.
    assert (E : glocCallback type buf len old
                = stripLfCr (removelast buf)).
    { destruct type; try congruence; cbn [glocCallback];
        now rewrite Hcopy. }
    rewrite E. apply stripLfCr_clean.
    unfold no_line_break in *. apply forallb_forall. intros c Hc.
    rewrite forallb_forall in Hb. apply Hb.
    destruct buf as [|b0 bs]; [contradiction|].
    rewrite (app_removelast_last b0 (l := b0 :: bs)) by discriminate.
    apply in_or_app. now left. }
  intros text Ht Htx -> Hl Hle.
  assert (E : glocCallback type (framed text) len old
              = stripLfCr (removelast (framed text))).
  { destruct type; try congruence; cbn [glocCallback];
      rewrite Hcopy; auto; rewrite Hl; unfold framed;
      rewrite !length_app; cbn; lia. }
  rewrite E. unfold framed.
  change ([ascii_of_nat 13; ascii_of_nat 10] ++ text
          ++ [ascii_of_nat 13; ascii_of_nat 10])
    with (ascii_of_nat 13 :: ascii_of_nat 10 :: text
          ++ [ascii_of_nat 13; ascii_of_nat 10]).
  replace (ascii_of_nat 13 :: ascii_of_nat 10 :: text
           ++ [ascii_of_nat 13; ascii_of_nat 10])
    with ((ascii_of_nat 13 :: ascii_of_nat 10 :: text ++ [ascii_of_nat 13])
          ++ [ascii_of_nat 10])
    by (cbn; now rewrite <- app_assoc).
  rewrite removelast_last.
  change (ascii_of_nat 13 :: ascii_of_nat 10 :: text ++ [ascii_of_nat 13])
    with ([ascii_of_nat 13; ascii_of_nat 10] ++ text ++ [ascii_of_nat 13]).
  rewrite !stripLfCr_app, (stripLfCr_clean text Htx).
  cbn. now rewrite app_nil_r.
Qed.

Lemma glocCallback_stores_line_witness :
  glocCallback TYPE_PLUS (framed (cstr Examples.partial_fix))
    (List.length (framed (cstr Examples.partial_fix))) (cstr "OK")
  = cstr Examples.partial_fix
  /\ glocCallback TYPE_OTHER (framed (cstr "OK")) 6 (cstr Examples.partial_fix)
     = cstr Examples.partial_fix
  /\ glocCallback TYPE_ERROR (cstr "+CME ERROR: 516") 15 []
     = cstr "+CME ERROR: 51".
Proof.
  split; [|split].
  - apply (proj2 (proj2 (proj2 (proj2 (proj2
             (glocCallback_stores_line TYPE_PLUS
                (framed (cstr Examples.partial_fix))
                (List.length (framed (cstr Examples.partial_fix)))
                (cstr "OK")))))) (cstr Examples.partial_fix)).
    + discriminate.
    + reflexivity.
    + reflexivity.
    + reflexivity.
    + vm_compute. lia.
  - apply (proj1 (proj2 (glocCallback_stores_line TYPE_OTHER
                           (framed (cstr "OK")) 6
                           (cstr Examples.partial_fix)))).
    reflexivity.
  - apply (proj1 (proj2 (proj2 (proj2 (proj2
             (glocCallback_stores_line TYPE_ERROR (cstr "+CME ERROR: 516")
                15 [])))))).
    + discriminate.
    + reflexivity.
    + lia.
    + reflexivity.
    + vm_compute. lia.
Defined.


(** ** Poll responses ([parseQlocResponse], [parseEpeResponse]) *)

Lemma cme_switch_never_none (v : Z) : CME_eqb NONE (cme_switch v) = false.
Proof.
  destruct (whitelisted v) eqn:E.
  - pose proof (cme_switch_whitelisted v E) as H.
    unfold whitelisted in E. cbn [existsb] in E.
    rewrite !orb_true_iff, !Z.eqb_eq in E.
    unfold CME_eqb. rewrite H. cbn [CME_code].
    apply Z.eqb_neq. intuition lia.
  - now rewrite (cme_switch_other v E).
Qed.

Lemma cme_switch_no_fix (v : Z) :
  CME_eqb NO_FIX (cme_switch v) = (v =? 516).
Proof.
  destruct (whitelisted v) eqn:E.
  - pose proof (cme_switch_whitelisted v E) as H.
    unfold CME_eqb. rewrite H. cbn [CME_code]. apply Z.eqb_sym.
  - rewrite (cme_switch_other v E). symmetry. apply Z.eqb_neq.
    intros ->. discriminate E.
Qed.

(** X2: on an error line of the modem, [parseQlocResponse] returns
    NO_FIX and clears the fix flag of the point when the code is 516; for
    every other code it returns NONE and changes neither the context nor
    the point. *)
Theorem parseQlocResponse_error_line :
  forall (mktime : Tm.t -> Z * Tm.t) (ws1 ws2 ws3 ds rest : list ascii)
         (context : Qloc.Context) (point : LocationPoint),
    forallb isspace ws1 = true -> forallb isspace ws2 = true ->
    forallb isspace ws3 = true ->
    forallb isdigit ds = true -> ds <> [] -> no_digit_ahead rest = true ->
    let v := Scanf.strtoul_value false (Scanf.dec_value ds) in
    parseQlocResponse mktime (cme_line ws1 ws2 ws3 ds rest) context point
    = if v =? 516 then (NO_FIX, context, set_fix point 0)
      else (NONE, context, point).
Proof.
  intros mktime ws1 ws2 ws3 ds rest context point H1 H2 H3 Hd Hne Hr v.
  unfold parseQlocResponse.
  rewrite parseCmeError_cme_line by assumption. fold v.
  rewrite cme_switch_no_fix.
  destruct (v =? 516) eqn:E.
  - apply Z.eqb_eq in E. rewrite E. reflexivity.
  - now rewrite cme_switch_never_none.
Qed.

Lemma parseQlocResponse_error_line_witness :
  parseQlocResponse MktimeUtc.mktime (cstr "+CME ERROR: 516") Qloc.zero
    example_point = (NO_FIX, Qloc.zero, set_fix example_point 0)
  /\ parseQlocResponse MktimeUtc.mktime (cstr "+CME ERROR: 504") Qloc.zero
       example_point = (NONE, Qloc.zero, example_point).
Proof.
  split.
  - apply (parseQlocResponse_error_line MktimeUtc.mktime [] (cstr " ")
             (cstr " ") (cstr "516") [] Qloc.zero example_point);
      try reflexivity. discriminate.
  - apply (parseQlocResponse_error_line MktimeUtc.mktime [] (cstr " ")
             (cstr " ") (cstr "504") [] Qloc.zero example_point);
      try reflexivity. discriminate.
Defined.

(** X3: for every buffer [parseQlocResponse] returns NONE, NO_FIX, FIX
    or UNKNOWN_ERROR. It never changes the system time, the accuracies, the
    vertical DOP or the time to first fix of the point. Unless it returns
    FIX it leaves the context as it is, and the point too apart from the
    fix flag, which it may clear. *)
Theorem parseQlocResponse_frame :
  forall (mktime : Tm.t -> Z * Tm.t) (buf : list ascii)
         (context : Qloc.Context) (point : LocationPoint),
    let '(r, context', point') := parseQlocResponse mktime buf context point in
    (r = NONE \/ r = NO_FIX \/ r = FIX \/ r = UNKNOWN_ERROR)
    /\ systemTime point' = systemTime point
    /\ horizontalAccuracy point' = horizontalAccuracy point
    /\ verticalAccuracy point' = verticalAccuracy point
    /\ verticalDop point' = verticalDop point
    /\ timeToFirstFix point' = timeToFirstFix point
    /\ (r <> FIX ->
        context' = context /\ (point' = point \/ point' = set_fix point 0)).
Proof.
  intros mktime buf context point. unfold parseQlocResponse.
  destruct (CME_eqb NO_FIX (parseCmeError buf)) eqn:E1.
  { assert (parseCmeError buf = NO_FIX) as ->
      by (destruct (parseCmeError buf); try discriminate; reflexivity).
    cbn. intuition congruence. }
  destruct (CME_eqb NONE (parseCmeError buf)); cbn [negb].
  2:{ repeat split; auto. }
  unfold parseQloc.
  generalize (Scanf.sscanf buf QLOC_FORMAT). intros sc.
  destruct (Scanf.nargs_of sc =? 0) eqn:En.
  - apply Z.eqb_eq in En.
    rewrite (ScanfFacts.nargs_zero_no_values _ En), scan_into_qloc_nil.
    cbn. repeat split; auto 6.
  - destruct (mktime _) as [t ti]. cbn. repeat split; auto 6; congruence.
Qed.

Lemma parseQlocResponse_frame_witness :
  snd (parseQlocResponse MktimeUtc.mktime (cstr "+CME ERROR: 516") Qloc.zero
         example_point) = example_point
  \/ snd (parseQlocResponse MktimeUtc.mktime (cstr "+CME ERROR: 516")
            Qloc.zero example_point) = set_fix example_point 0.
Proof.
  pose proof (parseQlocResponse_frame MktimeUtc.mktime
                (cstr "+CME ERROR: 516") Qloc.zero example_point) as H.
  assert (R : fst (fst (parseQlocResponse MktimeUtc.mktime
                          (cstr "+CME ERROR: 516") Qloc.zero example_point))
              <> FIX) by (vm_compute; discriminate).
  destruct (parseQlocResponse MktimeUtc.mktime (cstr "+CME ERROR: 516")
              Qloc.zero example_point) as [[r c] p].
  cbn [fst snd] in *.
  destruct H as (_ & _ & _ & _ & _ & _ & H). exact (proj2 (H R)).
Defined.

(** X4: [parseEpeResponse] changes nothing of the point but its
    horizontal and vertical accuracy; when it changes the point, the two are
    the accuracies of the context; on a buffer that [parseCmeError] reads as
    an error it changes neither the context nor the point. *)
Theorem parseEpeResponse_frame :
  forall (buf : list ascii) (context : Epe.Context) (point : LocationPoint),
    let (context', point') := parseEpeResponse buf context point in
    point' = set_accuracy point (horizontalAccuracy point')
               (verticalAccuracy point')
    /\ (point' = point
        \/ (horizontalAccuracy point' = Epe.h_acc context'
            /\ verticalAccuracy point' = Epe.v_acc context'))
    /\ (parseCmeError buf <> NONE -> context' = context /\ point' = point).
Proof.
  intros buf context point. unfold parseEpeResponse.
  generalize (Scanf.sscanf buf EPE_FORMAT). intros sc.
  generalize (parseCmeError buf). intros e.
  destruct (CME_eqb NONE e) eqn:E; cbn [negb].
  - destruct (negb (_ =? 0)); cbn.
    + assert (e = NONE) as -> by (destruct e; try discriminate; reflexivity).
      repeat split; auto; congruence.
    + assert (e = NONE) as -> by (destruct e; try discriminate; reflexivity).
      split; [destruct point; reflexivity|]. split; [auto|]. congruence.
  - split; [destruct point; reflexivity|]. auto.
Qed.

Lemma parseEpeResponse_frame_witness :
  parseEpeResponse (cstr "+CME ERROR: 516") Epe.zero example_point
  = (Epe.zero, example_point).
Proof.
  pose proof (parseEpeResponse_frame (cstr "+CME ERROR: 516") Epe.zero
                example_point) as H.
  destruct (parseEpeResponse (cstr "+CME ERROR: 516") Epe.zero example_point)
    as [c p].
  destruct H as (_ & _ & H).
  destruct H as [Hc Hp]; [vm_compute; discriminate|].
  rewrite Hc, Hp. reflexivity.
Defined.


(** ** Capability and configuration *)

Lemma detectModemType_known (isOn : bool) (dev : CellularDev) (s : Gnss) :
  _modemType s <> ModemType.Unavailable ->
  detectModemType isOn dev s = (supported (_modemType s), s).
Proof.
  intros H. unfold detectModemType, modemNotDetected.
  destruct (_modemType s); try congruence; reflexivity.
Qed.

(** X5: once a modem type is recorded, [detectModemType] changes
    nothing and returns whether the recorded type is a supported one. While
    none is recorded, it returns false and changes nothing when the modem is
    off or the device is not cached yet; otherwise it records a type, changes
    nothing else, and returns whether that type is supported. *)
Theorem detectModemType_by_case :
  forall (isOn : bool) (dev : CellularDev) (s : Gnss),
    (_modemType s <> ModemType.Unavailable ->
     detectModemType isOn dev s = (supported (_modemType s), s))
    /\ (_modemType s = ModemType.Unavailable ->
        (isOn = false \/ dev = DEV_NOT_CACHED) ->
        detectModemType isOn dev s = (false, s))
    /\ (_modemType s = ModemType.Unavailable -> isOn = true ->
        dev <> DEV_NOT_CACHED ->
        let (detected, s') := detectModemType isOn dev s in
        _modemType s' <> ModemType.Unavailable
        /\ detected = supported (_modemType s')
        /\ s' = set_modemType s (_modemType s')).
Proof.
  intros isOn dev s. split; [apply detectModemType_known|].
  unfold detectModemType, modemNotDetected. split.
  - intros E [H|H]; rewrite E; subst; cbn; try reflexivity;
      destruct isOn; reflexivity.
  - intros E H Hd. rewrite E. subst isOn.
    destruct dev; try congruence; cbn; repeat split; discriminate.
Qed.

Lemma detectModemType_by_case_witness :
  detectModemType true DEV_OTHER (Examples.ready DEV_QUECTEL_EG91_EX)
  = (true, Examples.ready DEV_QUECTEL_EG91_EX)
  /\ detectModemType false DEV_QUECTEL_EG91_EX
       (Gnss_init Examples.PIN_INVALID [] [])
     = (false, Gnss_init Examples.PIN_INVALID [] [])
  /\ _modemType (snd (detectModemType true DEV_OTHER
                         (Gnss_init Examples.PIN_INVALID [] [])))
     <> ModemType.Unavailable.
Proof.
  split; [|split].
  - apply (proj1 (detectModemType_by_case true DEV_OTHER
                    (Examples.ready DEV_QUECTEL_EG91_EX))).
    vm_compute. discriminate.
  - apply (proj1 (proj2 (detectModemType_by_case false DEV_QUECTEL_EG91_EX
                           (Gnss_init Examples.PIN_INVALID [] [])))).
    + reflexivity.
    + now left.
  - pose proof (proj2 (proj2 (detectModemType_by_case true DEV_OTHER
                                (Gnss_init Examples.PIN_INVALID [] [])))
                  eq_refl eq_refl) as H.
    destruct (detectModemType true DEV_OTHER _) as [d s'].
    destruct H as (Hn & _); [discriminate|]. exact Hn.
Defined.

(** Once the modem type is known, no operation changes it. *)
Lemma setConstellation_modemType (flags : Z) (s : Gnss) :
  _modemType (snd (setConstellation flags s)) = _modemType s.
Proof. apply setConstellation_same_hardware. Qed.

(** X6: once a modem type is recorded, [begin], [getLocationAsync],
    [getLocation], [publishLocationEvent], an acquisition and a pass of the
    worker all leave it as it is, whatever the device reports later. *)
Theorem modemType_never_changes_once_known :
  forall (mktime : Tm.t -> Z * Tm.t) (PIN_INVALID : Z)
         (configuration : LocationConfiguration) (o : CallObs)
         (callback : option nat) (during_wait : Gnss -> Gnss)
         (publish_ : bool) (point_ : option LocationPoint)
         (event : LocationCommandContext) (obs : AcquireObs) (s : Gnss),
    _modemType s <> ModemType.Unavailable ->
    _modemType (snd (begin PIN_INVALID configuration o s)) = _modemType s
    /\ _modemType (snd (getLocationAsync o callback s)) = _modemType s
    /\ ((forall t, _modemType (during_wait t) = _modemType t) ->
        _modemType (snd (getLocation o during_wait publish_ s)) = _modemType s)
    /\ _modemType (snd (publishLocationEvent o point_ s)) = _modemType s
    /\ (forall s', acquire mktime PIN_INVALID event obs s = Some s' ->
                   _modemType s' = _modemType s)
    /\ (forall b s', threadLoop_iteration mktime PIN_INVALID obs s
                     = Some (b, s') ->
                     _modemType s' = _modemType s).
Proof.
  intros mktime PIN cfg o cb dw pub pt event obs s Hk.
  assert (Hnd : modemNotDetected s = false)
    by (unfold modemNotDetected; destruct (_modemType s);
        try reflexivity; congruence).
  assert (Hacq : forall ev ob t t',
             acquire mktime PIN ev ob t = Some t' ->
             _modemType t' = _modemType t).
  { intros ev ob t t' H. unfold acquire in H.
    destruct (acquire_start_props PIN t) as (M0 & _).
    destruct (poll_loop mktime _ _ _ 0 _) as [ex|] eqn:E; [|discriminate].
    injection H as <-.
    pose proof (poll_loop_same_hardware mktime _ _ _ _ _ _ E) as (M1 & _).
    rewrite <- M0, <- M1. unfold acquire_finish.
    destruct (negb (concurrentGnssAndCellularSupported (exit_state ex)));
      [unfold clearAntennaPower;
       destruct (negb (PIN =? _))|];
      cbn -[Z.eqb Qred];
      destruct (negb (timeToFirstFixMs _ =? 0)); cbn -[Z.eqb Qred];
      destruct (point ev), (sendResponse ev), (doneCallback ev);
      reflexivity. }
  split; [|split; [|split; [|split; [|split]]]].
  - clear Hacq Hnd. unfold begin, modemNotDetected.
    destruct s as [cq rq acq lb eb qc ec started ttff ll lr conf pin modem
                   reqid cp lg].
    cbn [_modemType] in Hk. cbn -[Z.eqb].
    destruct (negb (PIN =? _antennaPin cfg)); cbn -[Z.eqb];
      destruct modem; try congruence; cbn;
      rewrite andb_false_r; reflexivity.
  - unfold getLocationAsync. destruct (negb (call_isModemOn o));
      [reflexivity|]. rewrite Hnd. cbn [negb].
    destruct (_acquiring s); reflexivity.
  - intros Hdw. unfold getLocation.
    destruct (negb (call_isModemOn o)); [reflexivity|].
    change (modemNotDetected (set_callerPoint s LocationPoint_zero))
      with (modemNotDetected s). rewrite Hnd. cbn [negb].
    change (_acquiring (set_callerPoint s LocationPoint_zero))
      with (_acquiring s).
    destruct (_acquiring s); [reflexivity|].
    unfold waitOnResponseEvent.
    set (t := dw _).
    assert (Ht : _modemType t = _modemType s) by (subst t; now rewrite Hdw).
    destruct (_responseQueue t) as [r|];
      destruct (pub && _ && _)%bool; try destruct (call_published o);
      cbn; exact Ht.
  - unfold publishLocationEvent. destruct (call_isConnected o); reflexivity.
  - intros s'. apply Hacq.
  - intros b s'. unfold threadLoop_iteration, waitOnCommandEvent.
    destruct (_commandQueue s) as [ev|].
    + destruct (command ev).
      * intros H. injection H as _ <-. reflexivity.
      * destruct (acquire _ _ _ _ _) as [t|] eqn:E; [|discriminate].
        intros H. injection H as _ <-.
        now rewrite (Hacq _ _ _ _ E).
      * intros H. injection H as _ <-. reflexivity.
    + cbn. intros H. injection H as _ <-. reflexivity.
Qed.

Lemma modemType_never_changes_once_known_witness :
  _modemType (snd (getLocationAsync (Examples.call_on DEV_OTHER) None
                     (Examples.ready DEV_QUECTEL_EG91_EX)))
  = _modemType (Examples.ready DEV_QUECTEL_EG91_EX)
  /\ _modemType (snd (begin Examples.PIN_INVALID Examples.conf
                        (Examples.call_on DEV_QUECTEL_BG95_M5)
                        (Examples.ready DEV_QUECTEL_EG91_EX)))
     = _modemType (Examples.ready DEV_QUECTEL_EG91_EX)
  /\ _modemType (snd (getLocation (Examples.call_on DEV_OTHER)
                        (fun t => t) true (Examples.ready DEV_QUECTEL_EG91_EX)))
     = _modemType (Examples.ready DEV_QUECTEL_EG91_EX).
Proof.
  assert (K : _modemType (Examples.ready DEV_QUECTEL_EG91_EX)
              <> ModemType.Unavailable) by (vm_compute; discriminate).
  destruct (modemType_never_changes_once_known MktimeUtc.mktime
              Examples.PIN_INVALID Examples.conf
              (Examples.call_on DEV_QUECTEL_BG95_M5) None
              (fun t => t) true None Examples.async_request Scenarios.until_off
              (Examples.ready DEV_QUECTEL_EG91_EX) K) as (B & _).
  destruct (modemType_never_changes_once_known MktimeUtc.mktime
              Examples.PIN_INVALID Examples.conf
              (Examples.call_on DEV_OTHER) None
              (fun t => t) true None Examples.async_request Scenarios.until_off
              (Examples.ready DEV_QUECTEL_EG91_EX) K)
    as (_ & A & G & _).
  split; [exact A|]. split; [exact B|]. apply G.
  intros t. reflexivity.
Defined.


(** X7: with the modem on, no type recorded and a device that is
    neither a BG95 nor an EG91, the first [getLocationAsync] records the type
    Unsupported, returns Unsupported and queues nothing. The next call no
    longer runs the detection, since a type is recorded: it returns
    Acquiring and queues an acquisition. *)
Theorem unsupported_modem_is_rejected_once :
  forall (o : CallObs) (cb1 cb2 : option nat) (s : Gnss),
    call_isModemOn o = true -> call_isModemOn_detect o = true ->
    call_dev o = DEV_OTHER ->
    _modemType s = ModemType.Unavailable ->
    _acquiring s = false -> _commandQueue s = None ->
    let (r1, s1) := getLocationAsync o cb1 s in
    let (r2, s2) := getLocationAsync o cb2 s1 in
    r1 = Unsupported
    /\ _modemType s1 = ModemType.Unsupported
    /\ _commandQueue s1 = None
    /\ r2 = Acquiring
    /\ _commandQueue s2
       = Some (mkLocationCommandContext Cmd_Acquire false cb2 false false).
Proof.
  intros o cb1 cb2 s Hon Hdet Hdev Hm Hacq Hq.
  unfold getLocationAsync, detectModemType, modemNotDetected.
  rewrite Hon, Hdet, Hdev, Hm. cbn.
  rewrite Hacq, Hq. cbn. auto.
Qed.

Lemma unsupported_modem_is_rejected_once_witness :
  fst (getLocationAsync (Examples.call_on DEV_OTHER) (Some 1%nat)
         (Gnss_init Examples.PIN_INVALID [] [])) = Unsupported
  /\ fst (getLocationAsync (Examples.call_on DEV_OTHER) (Some 2%nat)
            (snd (getLocationAsync (Examples.call_on DEV_OTHER) (Some 1%nat)
                    (Gnss_init Examples.PIN_INVALID [] [])))) = Acquiring.
Proof.
  pose proof (unsupported_modem_is_rejected_once (Examples.call_on DEV_OTHER)
                (Some 1%nat) (Some 2%nat)
                (Gnss_init Examples.PIN_INVALID [] [])
                eq_refl eq_refl eq_refl eq_refl eq_refl eq_refl) as H.
  destruct (getLocationAsync (Examples.call_on DEV_OTHER) (Some 1%nat) _)
    as [r1 s1].
  cbn [fst snd].
  destruct (getLocationAsync (Examples.call_on DEV_OTHER) (Some 2%nat) s1)
    as [r2 s2].
  cbn [fst]. destruct H as (H1 & _ & _ & H2 & _). now split.
Defined.

Lemma begin_conf (PIN_INVALID : Z) (configuration : LocationConfiguration)
    (o : CallObs) (s : Gnss) :
  _conf (snd (begin PIN_INVALID configuration o s))
  = conf_assign (_conf s) configuration
  /\ _antennaPowerPin (snd (begin PIN_INVALID configuration o s))
     = _antennaPin configuration.
Proof.
  unfold begin, detectModemType, setConstellation, modemNotDetected.
  destruct s as [cq rq acq lb eb qc ec started ttff ll lr conf pin modem
                 reqid cp lg].
  cbn -[Z.eqb Z.leb configNumber_of AT_GNSSCONFIG].
  destruct (negb (PIN_INVALID =? _antennaPin configuration));
    cbn -[Z.eqb Z.leb configNumber_of AT_GNSSCONFIG];
    destruct (call_isModemOn o), modem;
    cbn -[Z.eqb Z.leb configNumber_of AT_GNSSCONFIG]; auto;
    destruct (call_isModemOn_detect o);
    cbn -[Z.eqb Z.leb configNumber_of AT_GNSSCONFIG]; auto;
    try (destruct (0 <=? configNumber_of _ _); cbn; auto; fail);
    destruct (call_dev o);
    cbn -[Z.eqb Z.leb configNumber_of AT_GNSSCONFIG]; auto;
    destruct (0 <=? configNumber_of _ _); cbn; auto.
Qed.

(** X8: [begin] does the same whatever accuracy threshold the
    configuration carries: the engine keeps its own accuracy threshold, and
    takes the constellations, the HDOP threshold, the maximum fix time and
    the antenna pin of the configuration. *)
Theorem begin_ignores_hacc :
  forall (PIN_INVALID : Z) (configuration : LocationConfiguration)
         (hacc : Q) (o : CallObs) (s : Gnss),
    begin PIN_INVALID (with_hacc configuration hacc) o s
    = begin PIN_INVALID configuration o s
    /\ (let s' := snd (begin PIN_INVALID configuration o s) in
        _hacc (_conf s') = _hacc (_conf s)
        /\ _constellations (_conf s') = _constellations configuration
        /\ _hdop (_conf s') = _hdop configuration
        /\ _maxFixSeconds (_conf s') = _maxFixSeconds configuration
        /\ _antennaPowerPin s' = _antennaPin configuration).
Proof.
  intros PIN cfg hacc o s. split; [reflexivity|].
  destruct (begin_conf PIN cfg o s) as [C P].
  cbv zeta. rewrite C, P. cbn. repeat split; reflexivity.
Qed.

(** ** Constellation selection with arbitrary flags *)

(** X9: [setConstellation] returns 0 and sends at most one command.
    The configuration number it computes is -1, 1, 2, 3, 4, 6 or 7; with -1
    nothing is sent, with any other number the GNSS configuration command
    for that number. The number is -1 on a modem that is not supported and
    for flags with none of the four low bits set; when bit 0 is set the
    other bits are ignored: the number is the one of GPS with GLONASS. *)
Theorem setConstellation_first_bit_wins :
  forall (flags : Z) (s : Gnss),
    let n := configNumber_of (_modemType s) flags in
    (n = -1 \/ n = 1 \/ n = 2 \/ n = 3 \/ n = 4 \/ n = 6 \/ n = 7)
    /\ (n = -1 -> setConstellation flags s = (0, s))
    /\ (n <> -1 ->
        setConstellation flags s
        = (0, add_log s [Command (AT_GNSSCONFIG n)]))
    /\ (supported (_modemType s) = false -> n = -1)
    /\ (Z.land flags 15 = 0 -> n = -1)
    /\ (supported (_modemType s) = true -> Z.testbit flags 0 = true ->
        n = configNumber_of (_modemType s)
              (constellation_bits LOCATION_CONST_GPS_GLONASS)).
Proof.
  intros flags s n. subst n. unfold setConstellation, configNumber_of.
  assert (B : forall k, has_bits flags (Z.shiftl 1 k)
                        = Z.testbit flags k \/ k < 0).
  { intros k. destruct (Z.ltb_spec k 0) as [Hk|Hk]; [now right|left].
    unfold has_bits. rewrite Z.shiftl_1_l.
    destruct (Z.testbit flags k) eqn:T.
    - apply negb_true_iff, Z.eqb_neq. intros E.
      apply (f_equal (fun z => Z.testbit z k)) in E.
      rewrite Z.land_spec, T, Z.pow2_bits_true, Z.bits_0 in E by lia.
      discriminate.
    - apply negb_false_iff, Z.eqb_eq. apply Z.bits_inj'. intros m Hm.
      rewrite Z.land_spec, Z.bits_0.
      destruct (Z.eq_dec m k) as [->|Hne].
      + now rewrite T.
      + rewrite (Z.pow2_bits_false k m) by lia. apply andb_false_r. }
  unfold constellation_bits. rewrite has_bits_zero. cbn [orb].
  destruct (B 0) as [B0|]; [|lia]. destruct (B 1) as [B1|]; [|lia].
  destruct (B 2) as [B2|]; [|lia]. destruct (B 3) as [B3|]; [|lia].
  rewrite B0, B1, B2, B3.
  assert (L : Z.land flags 15 = 0 ->
              Z.testbit flags 0 = false /\ Z.testbit flags 1 = false
              /\ Z.testbit flags 2 = false /\ Z.testbit flags 3 = false).
  { intros E.
    assert (T : forall k, 0 <= k < 4 -> Z.testbit flags k = false).
    { intros k Hk. apply (f_equal (fun z => Z.testbit z k)) in E.
      rewrite Z.land_spec, Z.bits_0 in E.
      assert (Z.testbit 15 k = true).
      { assert (k = 0 \/ k = 1 \/ k = 2 \/ k = 3) as [->|[->|[->| ->]]]
          by lia; reflexivity. }
      rewrite H, andb_true_r in E. exact E. }
    repeat split; apply T; lia. }
  destruct (_modemType s); cbn [ModemType.eqb supported];
    destruct (Z.testbit flags 0), (Z.testbit flags 1), (Z.testbit flags 2),
      (Z.testbit flags 3); cbn;
    repeat split; auto 8; try congruence; try discriminate;
    try (intros E; destruct (L E) as (? & ? & ? & ?); congruence).
Qed.

Lemma setConstellation_first_bit_wins_witness :
  setConstellation 0 (Examples.ready DEV_QUECTEL_EG91_EX)
  = (0, Examples.ready DEV_QUECTEL_EG91_EX)
  /\ setConstellation 16 (Examples.ready DEV_QUECTEL_BG95_M5)
     = (0, Examples.ready DEV_QUECTEL_BG95_M5)
  /\ configNumber_of ModemType.EG91
       (Z.lor (constellation_bits LOCATION_CONST_GPS_GLONASS)
          (constellation_bits LOCATION_CONST_GPS_GALILEO))
     = configNumber_of ModemType.EG91
         (constellation_bits LOCATION_CONST_GPS_GLONASS).
Proof.
  split; [|split].
  - destruct (setConstellation_first_bit_wins 0
                (Examples.ready DEV_QUECTEL_EG91_EX))
      as (_ & H2 & _ & _ & H5 & _).
    apply H2. apply H5. reflexivity.
  - destruct (setConstellation_first_bit_wins 16
                (Examples.ready DEV_QUECTEL_BG95_M5))
      as (_ & H2 & _ & _ & H5 & _).
    apply H2. apply H5. reflexivity.
  - destruct (setConstellation_first_bit_wins
                (Z.lor (constellation_bits LOCATION_CONST_GPS_GLONASS)
                   (constellation_bits LOCATION_CONST_GPS_GALILEO))
                (Examples.ready DEV_QUECTEL_EG91_EX))
      as (_ & _ & _ & _ & _ & H6).
    apply H6; reflexivity.
Defined.


(** ** Outcomes of an acquisition *)

Section Outcomes.

Variable mktime : Tm.t -> Z * Tm.t.
Variable PIN_INVALID : Z.

Lemma poll_body_fixed_accepts (start : Z) (o : PollObs) (fixCount : Z)
    (s : Gnss) :
  let '(fc, fixed, s1) := poll_body mktime start o fixCount s in
  fixed = true -> accepts fc s1 = true.
Proof.
  unfold poll_body.
  destruct (parseQlocResponse _ _ _ _) as [[ret ctx] pt].
  destruct (CME_eqb FIX ret); [auto|discriminate].
Qed.

(** How the loop was left: the observations it used up, all of them polls
    that went on to query the modem, and the one it stopped on. *)
Lemma poll_loop_exit_shape (start maxTime : Z) (polls : list PollObs) :
  forall (fixCount : Z) (s : Gnss) (ex : LoopExit),
    poll_loop mktime start maxTime polls fixCount s = Some ex ->
    exists pre o,
      polls = pre ++ o :: exit_rest ex
      /\ forallb (keeps_polling start maxTime) pre = true
      /\ ((exit_response ex = TimedOut /\ exit_power ex = false
           /\ obs_isModemOn o = false)
          \/ (exit_response ex = TimedOut /\ exit_power ex = true
              /\ obs_isModemOn o = true
              /\ maxTime <= to_uint64 (obs_now o - start))
          \/ (exit_response ex = Fixed /\ exit_power ex = true
              /\ keeps_polling start maxTime o = true
              /\ accepts (exit_fixCount ex) (exit_state ex) = true)).
Proof.
  induction polls as [|p rest IH]; intros fixCount s ex H; [discriminate|].
  cbn [poll_loop] in H.
  destruct (obs_isModemOn p) eqn:Ep; cbn [negb] in H.
  2:{ injection H as <-. exists [], p. cbn.
      split; [reflexivity|]. split; [reflexivity|]. left. auto. }
  destruct (maxTime <=? to_uint64 (obs_now p - start)) eqn:Et.
  { injection H as <-. exists [], p. cbn. apply Z.leb_le in Et.
    split; [reflexivity|]. split; [reflexivity|]. right. left. auto. }
  pose proof (poll_body_fixed_accepts start p fixCount s) as Hb.
  destruct (poll_body mktime start p fixCount s) as [[fc fixed] s1].
  destruct fixed.
  - injection H as <-. exists [], p. cbn.
    split; [reflexivity|]. split; [reflexivity|]. right. right.
    unfold keeps_polling. rewrite Ep, Et. auto.
  - destruct (IH _ _ _ H) as (pre & o & -> & Hpre & Hcases).
    exists (p :: pre), o. split; [reflexivity|]. split; [|exact Hcases].
    cbn [forallb]. rewrite Hpre. unfold keeps_polling.
    now rewrite Ep, Et.
Qed.

Lemma final_response_fixed (ex : LoopExit) :
  final_response ex = Fixed <-> exit_response ex = Fixed.
Proof.
  unfold final_response. destruct (exit_power ex), (exit_response ex); cbn;
    split; congruence.
Qed.

Lemma acquire_finish_point (event : LocationCommandContext) (ex : LoopExit) :
  let s' := acquire_finish PIN_INVALID event ex in
  lastLocation s'
  = set_timeToFirstFix (lastLocation (exit_state ex))
      (timeToFirstFix (lastLocation s'))
  /\ _conf s' = _conf (exit_state ex)
  /\ timeToFirstFixMs s' = timeToFirstFixMs (exit_state ex)
  /\ (timeToFirstFixMs (exit_state ex) <> 0 ->
      timeToFirstFix (lastLocation s')
      = Qred (inject_Z (timeToFirstFixMs (exit_state ex)) / 1000))
  /\ (point event = true -> callerPoint s' = lastLocation s').
Proof.
  unfold acquire_finish, clearAntennaPower.
  destruct (exit_state ex) as [cq rq acq lb eb qc ec started ttff ll lr conf
                                pin modem reqid cp lg].
  destruct ll.
  destruct (negb (concurrentGnssAndCellularSupported _));
    [destruct (negb (PIN_INVALID =? _))|];
    cbn -[Z.eqb Qred];
    destruct (ttff =? 0) eqn:Et; cbn -[Z.eqb Qred];
    destruct (point event), (sendResponse event), (doneCallback event);
    cbn -[Z.eqb Qred]; repeat split; try discriminate;
    try (intros H; apply Z.eqb_eq in Et; congruence).
Qed.

End Outcomes.

Lemma acquire_fixed_within (mktime : Tm.t -> Z * Tm.t) (PIN_INVALID : Z)
    (event : LocationCommandContext) (obs : AcquireObs) (s s' : Gnss) :
  acquire mktime PIN_INVALID event obs s = Some s' ->
  lastResults s' = Fixed ->
  (horizontalDop (lastLocation s') <= inject_Z (_hdop (_conf s)))%Q
  /\ (horizontalAccuracy (lastLocation s') <= _hacc (_conf s))%Q
  /\ (point event = true -> callerPoint s' = lastLocation s').
Proof.
  rename PIN_INVALID into PIN. intros H Hfix. unfold acquire in H.
  destruct (acquire_start_props PIN s) as (_ & _ & C0 & _).
  destruct (poll_loop mktime _ _ _ 0 _) as [ex|] eqn:E; [|discriminate].
  injection H as <-.
  rewrite acquire_finish_lastResults in Hfix.
  apply final_response_fixed in Hfix.
  pose proof (poll_loop_same_hardware mktime _ _ _ _ _ _ E)
    as (_ & _ & C1 & _).
  destruct (poll_loop_exit_shape mktime _ _ _ _ _ _ E)
    as (pre & o & _ & _ & [(R & _)|[(R & _)|(_ & _ & _ & A)]]);
    try congruence.
  destruct (acquire_finish_point PIN event ex) as (L & _ & _ & _ & P).
  unfold accepts in A. rewrite !andb_true_iff in A. destruct A as [[_ A1] A2].
  apply Qle_bool_iff in A1, A2. rewrite C1, C0 in A1, A2.
  split; [|split; [|exact P]]; rewrite L; assumption.
Qed.


(** X10: when an acquisition ends Fixed, the HDOP of the last location
    is no larger than the HDOP threshold of the configuration and its
    horizontal accuracy no larger than the accuracy threshold; the point of
    a caller, when the request has one, is that location. *)
Theorem fixed_point_is_within_thresholds :
  forall (mktime : Tm.t -> Z * Tm.t) (PIN_INVALID : Z)
         (event : LocationCommandContext) (obs : AcquireObs) (s s' : Gnss),
    acquire mktime PIN_INVALID event obs s = Some s' ->
    lastResults s' = Fixed ->
    (horizontalDop (lastLocation s') <= inject_Z (_hdop (_conf s)))%Q
    /\ (horizontalAccuracy (lastLocation s') <= _hacc (_conf s))%Q
    /\ (point event = true -> callerPoint s' = lastLocation s').
Proof.
  intros mktime PIN event obs s s' H Hfix.
  exact (acquire_fixed_within mktime PIN event obs s s' H Hfix).
Qed.

Lemma fixed_point_is_within_thresholds_witness :
  (horizontalDop (lastLocation Examples.after_fix)
   <= inject_Z (_hdop (_conf (Examples.ready DEV_QUECTEL_EG91_EX))))%Q
  /\ (horizontalAccuracy (lastLocation Examples.after_fix)
      <= _hacc (_conf (Examples.ready DEV_QUECTEL_EG91_EX)))%Q.
Proof.
  destruct (fixed_point_is_within_thresholds MktimeUtc.mktime
              Examples.PIN_INVALID Examples.async_request
              (mkAcquireObs 1000 Examples.settled_polls)
              (Examples.ready DEV_QUECTEL_EG91_EX) Examples.after_fix)
    as (H1 & H2 & _).
  - vm_compute. reflexivity.
  - vm_compute. reflexivity.
  - split; [exact H1|exact H2].
Defined.

(** X11: the HDOP threshold setter clamps. After [begin] with a
    configuration whose threshold was set to any integer, the threshold of
    the engine is between 0 and 100: the integer itself when it is in that
    range, 0 when it is negative. So no acquisition ends Fixed with an HDOP
    over 100. *)
Theorem hdop_over_100_is_never_accepted :
  forall (mktime : Tm.t -> Z * Tm.t) (PIN_INVALID : Z)
         (c : LocationConfiguration) (hdop : Z) (o : CallObs) (s0 : Gnss)
         (event : LocationCommandContext) (obs : AcquireObs) (s' : Gnss),
    let s := snd (begin PIN_INVALID (conf_set_hdopThreshold c hdop) o s0) in
    0 <= _hdop (_conf s) <= 100
    /\ (0 <= hdop <= 100 -> _hdop (_conf s) = hdop)
    /\ (hdop < 0 -> _hdop (_conf s) = 0)
    /\ (acquire mktime PIN_INVALID event obs s = Some s' ->
        lastResults s' = Fixed ->
        (horizontalDop (lastLocation s') <= inject_Z 100)%Q).
Proof.
  intros mktime PIN c hdop o s0 event obs s' s.
  assert (E : _hdop (_conf s)
              = if hdop <? 0 then 0 else if 100 <? hdop then 100 else hdop).
  { unfold s. rewrite (proj1 (begin_conf PIN _ o s0)). reflexivity. }
  assert (R : 0 <= _hdop (_conf s) <= 100).
  { rewrite E. destruct (Z.ltb_spec hdop 0); [lia|].
    destruct (Z.ltb_spec 100 hdop); lia. }
  split; [exact R|]. split; [|split].
  - intros Hh. rewrite E. destruct (Z.ltb_spec hdop 0); [lia|].
    destruct (Z.ltb_spec 100 hdop); lia.
  - intros Hh. rewrite E. destruct (Z.ltb_spec hdop 0); [reflexivity|lia].
  - intros H Hfix.
    destruct (acquire_fixed_within mktime PIN event obs s s' H Hfix)
      as (H1 & _).
    eapply Qle_trans; [exact H1|]. rewrite <- Zle_Qle. lia.
Qed.

Lemma hdop_over_100_is_never_accepted_witness :
  _hdop (_conf (Examples.ready DEV_QUECTEL_EG91_EX)) = 2
  /\ _hdop (_conf (snd (begin Examples.PIN_INVALID
                          (conf_set_hdopThreshold Examples.conf (-5))
                          Examples.call_off
                          (Examples.ready DEV_QUECTEL_EG91_EX)))) = 0
  /\ (horizontalDop (lastLocation Examples.after_fix) <= inject_Z 100)%Q.
Proof.
  split; [|split].
  - apply (proj1 (proj2 (hdop_over_100_is_never_accepted MktimeUtc.mktime
                           Examples.PIN_INVALID
                           (LocationConfiguration_default Examples.PIN_INVALID)
                           2 (mkCallObs true true DEV_QUECTEL_EG91_EX false
                                false)
                           (Gnss_init Examples.PIN_INVALID [] [])
                           Examples.async_request
                           (mkAcquireObs 1000 Examples.settled_polls)
                           Examples.after_fix))).
    lia.
  - apply (proj1 (proj2 (proj2 (hdop_over_100_is_never_accepted
                                  MktimeUtc.mktime Examples.PIN_INVALID
                                  Examples.conf (-5) Examples.call_off
                                  (Examples.ready DEV_QUECTEL_EG91_EX)
                                  Examples.async_request
                                  (mkAcquireObs 1000 Examples.settled_polls)
                                  Examples.after_fix)))).
    lia.
  - apply (proj2 (proj2 (proj2 (hdop_over_100_is_never_accepted
                                  MktimeUtc.mktime Examples.PIN_INVALID
                                  (LocationConfiguration_default
                                     Examples.PIN_INVALID)
                                  2 (mkCallObs true true DEV_QUECTEL_EG91_EX
                                       false false)
                                  (Gnss_init Examples.PIN_INVALID [] [])
                                  Examples.async_request
                                  (mkAcquireObs 1000 Examples.settled_polls)
                                  Examples.after_fix)))).
    + vm_compute. reflexivity.
    + vm_compute. reflexivity.
Defined.

(** X12: an acquisition that ends has stopped at one poll, and every
    poll before it found the modem on and fix time left. When the result is
    Unavailable that poll found the modem off; when it is TimedOut the poll
    found the modem on and the elapsed time at or over the maximum fix
    time; when it is Fixed the poll found the modem on and fix time left. *)
Theorem outcome_tells_how_the_loop_ended :
  forall (mktime : Tm.t -> Z * Tm.t) (PIN_INVALID : Z)
         (event : LocationCommandContext) (obs : AcquireObs) (s s' : Gnss),
    acquire mktime PIN_INVALID event obs s = Some s' ->
    exists pre o rest,
      obs_polls obs = pre ++ o :: rest
      /\ forallb (keeps_polling (obs_start obs) (maxTime_of s)) pre = true
      /\ (lastResults s' = Unavailable -> obs_isModemOn o = false)
      /\ (lastResults s' = TimedOut ->
          obs_isModemOn o = true
          /\ maxTime_of s <= to_uint64 (obs_now o - obs_start obs))
      /\ (lastResults s' = Fixed ->
          keeps_polling (obs_start obs) (maxTime_of s) o = true).
Proof.
  intros mktime PIN event obs s s' H. unfold acquire in H.
  destruct (acquire_start_props PIN s) as (_ & _ & C0 & _).
  rewrite C0 in H. fold (maxTime_of s) in H.
  destruct (poll_loop mktime _ _ _ 0 _) as [ex|] eqn:E; [|discriminate].
  injection H as <-.
  destruct (poll_loop_exit_shape mktime _ _ _ _ _ _ E)
    as (pre & o & Hp & Hpre & Hc).
  exists pre, o, (exit_rest ex). split; [exact Hp|]. split; [exact Hpre|].
  rewrite acquire_finish_lastResults. unfold final_response.
  destruct Hc as [(R & P & O)|[(R & P & O & T)|(R & P & K & _)]];
    rewrite R, P; cbn; repeat split; auto; discriminate.
Qed.

Lemma outcome_tells_how_the_loop_ended_witness :
  exists pre o rest,
    Examples.unsettled_polls = pre ++ o :: rest
    /\ forallb (keeps_polling 1000
                  (maxTime_of (Examples.ready DEV_QUECTEL_EG91_EX))) pre
       = true
    /\ maxTime_of (Examples.ready DEV_QUECTEL_EG91_EX)
       <= to_uint64 (obs_now o - 1000).
Proof.
  destruct (outcome_tells_how_the_loop_ended MktimeUtc.mktime
              Examples.PIN_INVALID Examples.async_request
              Scenarios.timing_out (Examples.ready DEV_QUECTEL_EG91_EX)
              Scenarios.timed_out)
    as (pre & o & rest & E & K & _ & T & _).
  - vm_compute. reflexivity.
  - exists pre, o, rest. split; [exact E|]. split; [exact K|].
    apply T. vm_compute. reflexivity.
Defined.


(** ** Time to first fix and repeated reports *)

Section Repeats.

Variable mktime : Tm.t -> Z * Tm.t.
Variable PIN_INVALID : Z.

Lemma poll_body_ttff (start : Z) (o : PollObs) (fixCount : Z) (s : Gnss) :
  timeToFirstFixMs s <> 0 ->
  timeToFirstFixMs (snd (poll_body mktime start o fixCount s))
  = timeToFirstFixMs s.
Proof.
  intros H. unfold poll_body.
  destruct (parseQlocResponse _ _ _ _) as [[ret ctx] pt].
  destruct (CME_eqb FIX ret); [|reflexivity].
  cbn [timeToFirstFixMs set_lastLocation set_qlocContext set_locBuffer
       add_log set_log].
  destruct (0 =? timeToFirstFixMs s) eqn:E;
    [apply Z.eqb_eq in E; congruence|].
  destruct (ModemType.eqb ModemType.BG95_M5 _);
    [destruct (parseEpeResponse _ _ _)|]; reflexivity.
Qed.

Lemma poll_loop_ttff (start maxTime : Z) (polls : list PollObs) :
  forall (fixCount : Z) (s : Gnss) (ex : LoopExit),
    timeToFirstFixMs s <> 0 ->
    poll_loop mktime start maxTime polls fixCount s = Some ex ->
    timeToFirstFixMs (exit_state ex) = timeToFirstFixMs s.
Proof.
  induction polls as [|o rest IH]; intros fixCount s ex Hs H; [discriminate|].
  cbn [poll_loop] in H.
  destruct (negb (obs_isModemOn o)).
  { injection H as <-. reflexivity. }
  destruct (maxTime <=? to_uint64 (obs_now o - start)).
  { injection H as <-. reflexivity. }
  pose proof (poll_body_ttff start o fixCount s Hs) as Hb.
  destruct (poll_body mktime start o fixCount s) as [[fc fixed] s1].
  cbn [snd] in Hb. destruct fixed.
  - injection H as <-. exact Hb.
  - apply IH in H; [|cbn; congruence]. rewrite H. exact Hb.
Qed.

Lemma float_arg_again (vals : list Scanf.sval) (i : nat) (old : Q) :
  float_arg vals i (float_arg vals i old) = float_arg vals i old.
Proof.
  unfold float_arg. destruct (nth_error vals i) as [[z|q]|]; reflexivity.
Qed.

(** Parsing the same buffer once more, with the context the first parse
    left, gives a fix report again, with the same HDOP. *)
Lemma parseQlocResponse_again (buf : list ascii) (context context1 : Qloc.Context)
    (point point1 point' : LocationPoint) :
  parseQlocResponse mktime buf context point = (FIX, context1, point1) ->
  exists context2 point2,
    parseQlocResponse mktime buf context1 point' = (FIX, context2, point2)
    /\ horizontalDop point2 = horizontalDop point1
    /\ horizontalAccuracy point2 = horizontalAccuracy point'.
Proof.
  unfold parseQlocResponse.
  generalize (parseCmeError buf). intros e.
  destruct e; cbn [CME_eqb CME_code Z.eqb Pos.eqb negb];
    try (intros H; discriminate H).
  unfold parseQloc.
  generalize (Scanf.sscanf buf QLOC_FORMAT). intros sc.
  destruct (Scanf.nargs_of sc =? 0);
    [intros H; cbn [Z.eqb] in H; discriminate H|].
  destruct (mktime _) as [t ti]. cbn [Z.eqb].
  intros H. injection H as <- <-.
  destruct (mktime _) as [t' ti']. cbn [Z.eqb].
  eexists. eexists. split; [reflexivity|].
  cbn [horizontalDop horizontalAccuracy Qloc.hdop set_timeinfo
       scan_into_qloc].
  split; [apply float_arg_again|reflexivity].
Qed.

(** One poll on a modem without accuracy reports, when the buffer holds a
    fix report. *)
Lemma poll_body_fix_report (start : Z) (o : PollObs) (fixCount : Z) (s : Gnss)
    (context1 : Qloc.Context) (point1 : LocationPoint) :
  _modemType s <> ModemType.BG95_M5 ->
  parseQlocResponse mktime
    (run_callbacks glocCallback (obs_gloc o) (_locBuffer s))
    (_qlocContext s) (lastLocation s) = (FIX, context1, point1) ->
  exists s1,
    poll_body mktime start o fixCount s
    = (fixCount + 1, accepts (fixCount + 1) s1, s1)
    /\ _locBuffer s1 = run_callbacks glocCallback (obs_gloc o) (_locBuffer s)
    /\ _qlocContext s1 = context1
    /\ lastLocation s1 = set_systemTime point1 (obs_timeNow o)
    /\ _conf s1 = _conf s
    /\ _modemType s1 = _modemType s.
Proof.
  intros Hm Hp. unfold poll_body.
  destruct s as [cq rq acq lb eb qc ec started ttff ll lr conf pin modem
                 reqid cp lg].
  cbn -[Z.eqb accepts parseQlocResponse run_callbacks AT_QGPSLOC app] in *.
  rewrite Hp. change (CME_eqb FIX FIX) with true.
  destruct (0 =? ttff), modem; try congruence;
    cbn -[Z.eqb accepts parseQlocResponse run_callbacks AT_QGPSLOC app];
    eexists; repeat split.
Qed.

End Repeats.

(** X13: while GNSS stays started, the time to first fix is not
    measured again: an acquisition that starts with GNSS started and a
    nonzero time to first fix ends with the same time, and the last location
    reports it in seconds. *)
Theorem time_to_first_fix_is_kept :
  forall (mktime : Tm.t -> Z * Tm.t) (PIN_INVALID : Z)
         (event : LocationCommandContext) (obs : AcquireObs) (s s' : Gnss),
    gnssStarted s = true ->
    timeToFirstFixMs s <> 0 ->
    acquire mktime PIN_INVALID event obs s = Some s' ->
    timeToFirstFixMs s' = timeToFirstFixMs s
    /\ timeToFirstFix (lastLocation s')
       = Qred (inject_Z (timeToFirstFixMs s) / 1000).
Proof.
  intros mktime PIN event obs s s' Hg Ht H. unfold acquire in H.
  assert (S0 : timeToFirstFixMs (acquire_start PIN s) = timeToFirstFixMs s).
  { unfold acquire_start.
    change (gnssStarted (set_lastLocation (set_acquiring s true)
                           LocationPoint_zero)) with (gnssStarted s).
    rewrite Hg. reflexivity. }
  destruct (poll_loop mktime _ _ _ 0 _) as [ex|] eqn:E; [|discriminate].
  injection H as <-.
  pose proof (poll_loop_ttff mktime _ _ _ _ _ _ ltac:(rewrite S0; exact Ht) E)
    as T.
  destruct (acquire_finish_point PIN event ex) as (_ & _ & M & F & _).
  rewrite M, T, S0. split; [reflexivity|].
  rewrite F by (rewrite T, S0; exact Ht). now rewrite T, S0.
Qed.

Lemma time_to_first_fix_is_kept_witness :
  exists s',
    acquire MktimeUtc.mktime Examples.PIN_INVALID Examples.async_request
      Scenarios.until_off Examples.after_fix = Some s'
    /\ timeToFirstFixMs s' = timeToFirstFixMs Examples.after_fix
    /\ timeToFirstFix (lastLocation s')
       = Qred (inject_Z (timeToFirstFixMs Examples.after_fix) / 1000).
Proof.
  destruct (acquire MktimeUtc.mktime Examples.PIN_INVALID
              Examples.async_request Scenarios.until_off Examples.after_fix)
    as [s'|] eqn:E; [|vm_compute in E; discriminate E].
  exists s'. split; [reflexivity|].
  apply (time_to_first_fix_is_kept MktimeUtc.mktime Examples.PIN_INVALID
           Examples.async_request Scenarios.until_off Examples.after_fix s').
  - vm_compute. reflexivity.
  - vm_compute. discriminate.
  - exact E.
Defined.

(** X14: the line buffer is not cleared between polls. On a modem other
    than the BG95, when one poll delivers a fix report that meets the
    thresholds and the next poll delivers no response line, the stored
    report is parsed and counted again: the loop ends Fixed with a fix count
    of 2 on a single report. *)
Theorem silent_poll_counts_the_report_again :
  forall (mktime : Tm.t -> Z * Tm.t) (start maxTime : Z)
         (o1 o2 : PollObs) (rest : list PollObs) (s : Gnss)
         (context1 : Qloc.Context) (point1 : LocationPoint),
    _modemType s <> ModemType.BG95_M5 ->
    keeps_polling start maxTime o1 = true ->
    keeps_polling start maxTime o2 = true ->
    obs_gloc o2 = [] ->
    parseQlocResponse mktime
      (run_callbacks glocCallback (obs_gloc o1) (_locBuffer s))
      (_qlocContext s) (lastLocation s) = (FIX, context1, point1) ->
    (horizontalDop point1 <= inject_Z (_hdop (_conf s)))%Q ->
    (horizontalAccuracy point1 <= _hacc (_conf s))%Q ->
    exists ex,
      poll_loop mktime start maxTime (o1 :: o2 :: rest) 0 s = Some ex
      /\ exit_response ex = Fixed
      /\ exit_fixCount ex = 2
      /\ exit_rest ex = rest.
Proof.
  intros mktime start maxTime o1 o2 rest s context1 point1
         Hm K1 K2 Hsilent Hp Hh Ha.
  unfold keeps_polling in K1, K2.
  apply andb_true_iff in K1 as [On1 T1]. apply andb_true_iff in K2 as [On2 T2].
  apply negb_true_iff in T1, T2.
  destruct (poll_body_fix_report mktime start o1 0 s context1 point1 Hm Hp)
    as (s1 & B1 & Lb1 & Lc1 & Ll1 & Cf1 & M1).
  destruct (parseQlocResponse_again mktime _ _ _ _ _
              (set_systemTime point1 (obs_timeNow o1)) Hp)
    as (context2 & point2 & Hp2 & Hd2 & Ha2).
  set (s1d := add_log s1 [Delay LOCATION_PERIOD_ACQUIRE_MS]).
  assert (Hp2' : parseQlocResponse mktime
                   (run_callbacks glocCallback (obs_gloc o2) (_locBuffer s1d))
                   (_qlocContext s1d) (lastLocation s1d)
                 = (FIX, context2, point2)).
  { rewrite Hsilent. cbn [run_callbacks fold_left].
    change (_locBuffer s1d) with (_locBuffer s1).
    change (_qlocContext s1d) with (_qlocContext s1).
    change (lastLocation s1d) with (lastLocation s1).
    now rewrite Lb1, Lc1, Ll1. }
  destruct (poll_body_fix_report mktime start o2 1 s1d context2 point2)
    as (s2 & B2 & _ & _ & Ll2 & Cf2 & _); [|exact Hp2'|].
  { change (_modemType s1d) with (_modemType s1). now rewrite M1. }
  cbn [poll_loop]. rewrite On1, T1. cbn [negb]. rewrite B1.
  replace (accepts (0 + 1) s1) with false by (unfold accepts; reflexivity).
  fold s1d. rewrite On2, T2. cbn [negb].
  change (0 + 1) with 1. rewrite B2.
  assert (A : accepts (1 + 1) s2 = true).
  { unfold accepts. rewrite Ll2, Cf2.
    change (_conf s1d) with (_conf s1). rewrite Cf1.
    cbn [set_systemTime horizontalDop horizontalAccuracy].
    rewrite Hd2, Ha2. cbn [set_systemTime horizontalAccuracy].
    apply Qle_bool_iff in Hh, Ha. rewrite Hh, Ha. reflexivity. }
  rewrite A. eexists. repeat split.
Qed.

Lemma silent_poll_counts_the_report_again_witness :
  exists ex,
    poll_loop MktimeUtc.mktime 1000
      (maxTime_of (Examples.ready DEV_QUECTEL_EG91_EX))
      [Examples.poll 1000 Examples.good_fix; Scenarios.silent_poll 2000;
       Examples.poll_off] 0 (Examples.ready DEV_QUECTEL_EG91_EX) = Some ex
    /\ exit_response ex = Fixed
    /\ exit_fixCount ex = 2
    /\ exit_rest ex = [Examples.poll_off].
Proof.
  apply (silent_poll_counts_the_report_again MktimeUtc.mktime 1000
           (maxTime_of (Examples.ready DEV_QUECTEL_EG91_EX))
           (Examples.poll 1000 Examples.good_fix) (Scenarios.silent_poll 2000)
           [Examples.poll_off] (Examples.ready DEV_QUECTEL_EG91_EX)
           (snd (fst (parseQlocResponse MktimeUtc.mktime
                        (cstr Examples.good_fix) Qloc.zero
                        LocationPoint_zero)))
           (snd (parseQlocResponse MktimeUtc.mktime
                   (cstr Examples.good_fix) Qloc.zero LocationPoint_zero))).
  - vm_compute. discriminate.
  - vm_compute. reflexivity.
  - vm_compute. reflexivity.
  - reflexivity.
  - vm_compute. reflexivity.
  - vm_compute. discriminate.
  - vm_compute. discriminate.
Defined.


(** ** Requests and their completion *)

Lemma worker_frame_refl (s : Gnss) : worker_frame s s.
Proof.
  unfold worker_frame. repeat split. exists []. now rewrite app_nil_r.
Qed.

Lemma worker_frame_trans (s1 s2 s3 : Gnss) :
  worker_frame s1 s2 -> worker_frame s2 s3 -> worker_frame s1 s3.
Proof.
  intros (A1 & A2 & A3 & A4 & A5 & es1 & L1 & Q1)
         (B1 & B2 & B3 & B4 & B5 & es2 & L2 & Q2).
  unfold worker_frame. repeat split; try congruence.
  exists (es1 ++ es2). split.
  - now rewrite L2, L1, app_assoc.
  - rewrite forallb_app. now rewrite Q1, Q2.
Qed.

Section Completion.

Variable mktime : Tm.t -> Z * Tm.t.
Variable PIN_INVALID : Z.

Lemma poll_body_worker_frame (start : Z) (o : PollObs) (fixCount : Z)
    (s : Gnss) :
  worker_frame s (snd (poll_body mktime start o fixCount s)).
Proof.
  unfold poll_body.
  destruct (parseQlocResponse _ _ _ _) as [[ret ctx] pt].
  destruct (CME_eqb FIX ret); cbn [snd];
    [destruct (0 =? timeToFirstFixMs _);
     destruct (ModemType.eqb ModemType.BG95_M5 _);
     try destruct (parseEpeResponse _ _ _) as [ectx pt']|];
    unfold worker_frame; cbn -[AT_QGPSLOC AT_ESTIMATION_ERROR app];
    repeat split; rewrite <- ?app_assoc;
    eexists; (split; [reflexivity|]); reflexivity.
Qed.

Lemma poll_loop_worker_frame (start maxTime : Z) (polls : list PollObs) :
  forall (fixCount : Z) (s : Gnss) (ex : LoopExit),
    poll_loop mktime start maxTime polls fixCount s = Some ex ->
    worker_frame s (exit_state ex).
Proof.
  induction polls as [|o rest IH]; intros fixCount s ex H; [discriminate|].
  cbn [poll_loop] in H.
  destruct (negb (obs_isModemOn o)).
  { injection H as <-. apply worker_frame_refl. }
  destruct (maxTime <=? to_uint64 (obs_now o - start)).
  { injection H as <-. apply worker_frame_refl. }
  pose proof (poll_body_worker_frame start o fixCount s) as Hb.
  destruct (poll_body mktime start o fixCount s) as [[fc fixed] s1].
  cbn [snd] in Hb. destruct fixed.
  - injection H as <-. exact Hb.
  - apply IH in H. eapply worker_frame_trans; [exact Hb|].
    eapply worker_frame_trans; [|exact H].
    unfold worker_frame. repeat split. now eexists.
Qed.

Lemma acquire_start_worker_frame (s : Gnss) :
  worker_frame s (acquire_start PIN_INVALID s).
Proof.
  unfold acquire_start, setAntennaPower, setConstellation.
  destruct s as [cq rq acq lb eb qc ec started ttff ll lr conf pin modem
                 reqid cp lg].
  cbn -[app AT_GNSSCONFIG configNumber_of Z.leb Z.eqb AT_QGPS_ON AT_NMEA_EPE].
  destruct started;
    cbn -[app AT_GNSSCONFIG configNumber_of Z.leb Z.eqb AT_QGPS_ON AT_NMEA_EPE].
  { unfold worker_frame. repeat split. exists []. now rewrite app_nil_r. }
  destruct (negb (PIN_INVALID =? pin)), modem;
    cbn -[app AT_GNSSCONFIG configNumber_of Z.leb Z.eqb AT_QGPS_ON AT_NMEA_EPE];
    try destruct (0 <=? configNumber_of _ _);
    unfold worker_frame;
    cbn -[app AT_GNSSCONFIG configNumber_of Z.leb Z.eqb AT_QGPS_ON AT_NMEA_EPE];
    repeat split; rewrite <- ?app_assoc;
    eexists; (split; [reflexivity|]); reflexivity.
Qed.

(** What an acquisition changes outside the parser state: it clears the
    in-flight flag, puts the outcome on the response queue or calls the
    callback, stores the point for the caller that gave one, and otherwise
    only talks to the hardware. *)
Lemma acquire_effects (event : LocationCommandContext) (obs : AcquireObs)
    (s s' : Gnss) :
  acquire mktime PIN_INVALID event obs s = Some s' ->
  _commandQueue s' = _commandQueue s
  /\ _responseQueue s'
     = (if sendResponse event
        then queue_put (_responseQueue s) (lastResults s')
        else _responseQueue s)
  /\ _acquiring s' = false
  /\ _conf s' = _conf s
  /\ _reqid s' = _reqid s
  /\ callerPoint s' = (if point event then lastLocation s' else callerPoint s)
  /\ exists es,
       log s' = log s ++ es ++ completion_events event s'
       /\ forallb hardware_event es = true.
Proof.
  unfold acquire. intros H.
  pose proof (acquire_start_worker_frame s) as F0.
  destruct (poll_loop mktime _ _ _ 0 _) as [ex|] eqn:E; [|discriminate].
  injection H as <-.
  pose proof (worker_frame_trans _ _ _ F0
                (poll_loop_worker_frame _ _ _ _ _ _ E))
    as (Q1 & Q2 & C & R & P & es & L & Hes).
  unfold acquire_finish, clearAntennaPower, completion_events.
  destruct (exit_state ex) as [cq rq acq lb eb qc ec started ttff ll lr conf
                                pin modem reqid cp lg].
  cbn [_commandQueue _responseQueue _conf _reqid callerPoint log] in *.
  subst cq rq conf reqid cp lg.
  destruct (negb (concurrentGnssAndCellularSupported _));
    [destruct (negb (PIN_INVALID =? _))|];
    cbn -[Z.eqb Qred app AT_QGPSEND];
    destruct (negb (ttff =? 0)); cbn -[Z.eqb Qred app AT_QGPSEND];
    destruct (point event), (sendResponse event), (doneCallback event);
    cbn -[Z.eqb Qred app AT_QGPSEND];
    repeat split;
    rewrite <- ?app_assoc;
    first [ exists es; rewrite ?app_nil_r; split; [reflexivity|exact Hes]
          | exists (es ++ [Command AT_QGPSEND]);
            rewrite <- ?app_assoc, ?app_nil_r;
            split; [reflexivity|rewrite forallb_app, Hes; reflexivity]
          | eexists (es ++ [Command AT_QGPSEND; DigitalWrite _ false]);
            rewrite <- ?app_assoc, ?app_nil_r;
            split; [reflexivity|rewrite forallb_app, Hes; reflexivity] ].
Qed.

End Completion.

Lemma acquire_terminates (mktime : Tm.t -> Z * Tm.t) (PIN_INVALID : Z)
    (event : LocationCommandContext) (obs : AcquireObs) (s : Gnss) :
  existsb (stops_loop (obs_start obs) (maxTime_of s)) (obs_polls obs) = true ->
  exists s', acquire mktime PIN_INVALID event obs s = Some s'.
Proof.
  intros H. unfold acquire.
  destruct (acquire_start_props PIN_INVALID s) as (_ & _ & C0 & _).
  rewrite C0. fold (maxTime_of s).
  destruct (poll_loop_stops mktime (obs_start obs) (maxTime_of s)
              (obs_polls obs) 0 (acquire_start PIN_INVALID s) H) as [ex ->].
  eauto.
Qed.

Lemma acquire_outcome (mktime : Tm.t -> Z * Tm.t) (PIN_INVALID : Z)
    (event : LocationCommandContext) (obs : AcquireObs) (s s' : Gnss) :
  acquire mktime PIN_INVALID event obs s = Some s' ->
  lastResults s' = Fixed \/ lastResults s' = TimedOut
  \/ lastResults s' = Unavailable.
Proof.
  unfold acquire.
  destruct (poll_loop mktime _ _ _ 0 _) as [ex|] eqn:E; [|discriminate].
  intros H. injection H as <-.
  rewrite acquire_finish_lastResults. apply final_response_cases.
  eapply poll_loop_exit_cases; eassumption.
Qed.

(** X15: with the modem on, a modem type recorded, no acquisition in
    flight and an empty command queue, [getLocationAsync] returns Acquiring
    and queues its request. On polls that include one with the modem off or
    the fix time used up, the next pass of the worker takes the request,
    ends with Fixed, TimedOut or Unavailable, leaves the queue empty and the
    in-flight flag clear, and calls the callback once, as its last event,
    with the last results and the last location; every event before it is
    a call on the modem, a pin or the clock. *)
Theorem async_request_round_trip :
  forall (mktime : Tm.t -> Z * Tm.t) (PIN_INVALID : Z) (o : CallObs)
         (id : nat) (obs : AcquireObs) (s : Gnss),
    call_isModemOn o = true ->
    modemNotDetected s = false ->
    _acquiring s = false ->
    _commandQueue s = None ->
    existsb (stops_loop (obs_start obs) (maxTime_of s)) (obs_polls obs)
    = true ->
    let (r, s1) := getLocationAsync o (Some id) s in
    r = Acquiring
    /\ _commandQueue s1 = Some (async_command (Some id))
    /\ exists s2,
         threadLoop_iteration mktime PIN_INVALID obs s1 = Some (true, s2)
         /\ _commandQueue s2 = None
         /\ getStatus s2 = Idle
         /\ (lastResults s2 = Fixed \/ lastResults s2 = TimedOut
             \/ lastResults s2 = Unavailable)
         /\ exists es,
              log s2 = log s ++ es
                       ++ [Callback id (lastResults s2) (lastLocation s2)]
              /\ forallb hardware_event es = true.
Proof.
  intros mktime PIN o id obs s Hon Hdet Hacq Hq Hstop.
  unfold getLocationAsync. rewrite Hon. cbn [negb]. rewrite Hdet. cbn [negb].
  rewrite Hacq, Hq. cbn [queue_put].
  split; [reflexivity|]. split; [reflexivity|].
  unfold threadLoop_iteration, waitOnCommandEvent.
  cbn [_commandQueue set_commandQueue command].
  set (t := set_commandQueue (set_commandQueue s _) None).
  destruct (acquire_terminates mktime PIN (async_command (Some id)) obs t)
    as [s2 E]; [exact Hstop|].
  change (mkLocationCommandContext Cmd_Acquire false (Some id) false false)
    with (async_command (Some id)).
  rewrite E. exists s2. split; [reflexivity|].
  destruct (acquire_effects mktime PIN _ _ _ _ E)
    as (Q & _ & A & _ & _ & _ & es & L & Hes).
  split; [exact Q|]. split; [unfold getStatus; now rewrite A|].
  split; [eapply acquire_outcome; exact E|].
  exists es. split; [exact L|exact Hes].
Qed.

Lemma async_request_round_trip_witness :
  fst (getLocationAsync (Examples.call_on DEV_QUECTEL_EG91_EX) (Some 1%nat)
         (Examples.ready DEV_QUECTEL_EG91_EX)) = Acquiring
  /\ exists s2,
       threadLoop_iteration MktimeUtc.mktime Examples.PIN_INVALID
         Scenarios.until_off
         (snd (getLocationAsync (Examples.call_on DEV_QUECTEL_EG91_EX)
                 (Some 1%nat) (Examples.ready DEV_QUECTEL_EG91_EX)))
       = Some (true, s2)
       /\ getStatus s2 = Idle
       /\ last (log s2) (Delay 0)
          = Callback 1 (lastResults s2) (lastLocation s2).
Proof.
  assert (K : existsb (stops_loop (obs_start Scenarios.until_off)
                         (maxTime_of (Examples.ready DEV_QUECTEL_EG91_EX)))
                (obs_polls Scenarios.until_off) = true)
    by (vm_compute; reflexivity).
  pose proof (async_request_round_trip MktimeUtc.mktime Examples.PIN_INVALID
                (Examples.call_on DEV_QUECTEL_EG91_EX) 1%nat
                Scenarios.until_off (Examples.ready DEV_QUECTEL_EG91_EX)
                eq_refl eq_refl eq_refl eq_refl K) as H.
  destruct (getLocationAsync (Examples.call_on DEV_QUECTEL_EG91_EX)
              (Some 1%nat) (Examples.ready DEV_QUECTEL_EG91_EX)) as [r s1].
  destruct H as (H1 & _ & s2 & H2 & _ & H3 & _ & es & L & _).
  split; [exact H1|]. exists s2. split; [exact H2|]. split; [exact H3|].
  rewrite L, !app_assoc. apply last_last.
Defined.

(** X16: under the same conditions, with an empty response queue and
    the worker making its pass during the wait, [getLocation] returns the
    result of the acquisition, which is also the last result; the point of
    the caller is the last location and both queues are empty. The events
    are the wait, the hardware calls of the worker and, when publishing was
    asked for, the result is Fixed and the cloud is connected, one publish
    of that location with the current request id; the request id advances
    only when that publish succeeds. *)
Theorem sync_request_round_trip :
  forall (mktime : Tm.t -> Z * Tm.t) (PIN_INVALID : Z) (o : CallObs)
         (publish_ : bool) (obs : AcquireObs) (s : Gnss),
    call_isModemOn o = true ->
    modemNotDetected s = false ->
    _acquiring s = false ->
    _commandQueue s = None ->
    _responseQueue s = None ->
    existsb (stops_loop (obs_start obs) (maxTime_of s)) (obs_polls obs)
    = true ->
    let (r, s') :=
      getLocation o (worker_runs mktime PIN_INVALID obs) publish_ s in
    r = lastResults s'
    /\ (r = Fixed \/ r = TimedOut \/ r = Unavailable)
    /\ callerPoint s' = lastLocation s'
    /\ _commandQueue s' = None /\ _responseQueue s' = None
    /\ exists es,
         forallb hardware_event es = true
         /\ log s'
            = log s
              ++ [WaitResponse (to_uint (to_uint (_maxFixSeconds (_conf s))
                                         * 1000 + LOCATION_PERIOD_ACQUIRE_MS))]
              ++ es
              ++ (if (publish_ && LocationResults_eqb Fixed r
                      && call_isConnected o)%bool
                  then [Publish "loc"
                          (buildPublish (lastLocation s') (_reqid s))]
                  else [])
         /\ _reqid s'
            = (if (publish_ && LocationResults_eqb Fixed r
                   && call_isConnected o && call_published o)%bool
               then to_uint (_reqid s + 1) else _reqid s).
Proof.
  intros mktime PIN o pub obs s Hon Hdet Hacq Hq Hrq Hstop.
  unfold getLocation. rewrite Hon. cbn [negb].
  change (modemNotDetected (set_callerPoint s LocationPoint_zero))
    with (modemNotDetected s). rewrite Hdet. cbn [negb].
  change (_acquiring (set_callerPoint s LocationPoint_zero))
    with (_acquiring s). rewrite Hacq.
  change (_commandQueue (set_callerPoint s LocationPoint_zero))
    with (_commandQueue s). rewrite Hq. cbn [queue_put].
  change (_conf (set_commandQueue (set_callerPoint s LocationPoint_zero) ?q))
    with (_conf s).
  set (w := WaitResponse _).
  set (s1 := add_log _ [w]).
  unfold worker_runs, threadLoop_iteration, waitOnCommandEvent.
  change (_commandQueue s1) with (Some sync_command).
  cbn [command sync_command].
  set (t := set_commandQueue s1 None).
  destruct (acquire_terminates mktime PIN sync_command obs t) as [s2 E];
    [exact Hstop|].
  change (mkLocationCommandContext Cmd_Acquire true None false true)
    with sync_command.
  rewrite E.
  destruct (acquire_effects mktime PIN _ _ _ _ E)
    as (Q & R & A & C & I & P & es & L & Hes).
  pose proof (acquire_outcome mktime PIN _ _ _ _ E) as O.
  cbn [sendResponse point sync_command] in R, P.
  change (_responseQueue t) with (_responseQueue s) in R.
  rewrite Hrq in R. cbn [queue_put] in R.
  change (_commandQueue t) with (@None LocationCommandContext) in Q.
  change (_reqid t) with (_reqid s) in I.
  unfold completion_events in L. cbn [sendResponse sync_command] in L.
  rewrite app_nil_r in L. change (log t) with (log s ++ [w]) in L.
  unfold waitOnResponseEvent. rewrite R.
  set (r := lastResults s2) in *.
  destruct s2 as [cq rq acq lb eb qc ec started ttff ll lr conf pin modem
                  reqid cp lg].
  cbn [_commandQueue _responseQueue _acquiring _conf _reqid callerPoint log
       lastResults lastLocation] in *.
  subst cq rq acq reqid cp lg. unfold getStatus.
  destruct (pub && LocationResults_eqb Fixed r && call_isConnected o)%bool
    eqn:Ec;
    [destruct (call_published o)|];
    cbn -[app buildPublish to_uint LocationResults_eqb];
    rewrite ?Ec; cbn [andb];
    (split; [reflexivity|]); (split; [exact O|]);
    repeat (split; [reflexivity|]);
    exists es; (split; [exact Hes|]);
    rewrite <- ?app_assoc, ?app_nil_r; split; reflexivity.
Qed.

Lemma sync_request_round_trip_witness :
  fst (getLocation (Examples.call_on DEV_QUECTEL_EG91_EX)
         (worker_runs MktimeUtc.mktime Examples.PIN_INVALID
            Scenarios.until_off)
         true (Examples.ready DEV_QUECTEL_EG91_EX))
  = lastResults
      (snd (getLocation (Examples.call_on DEV_QUECTEL_EG91_EX)
              (worker_runs MktimeUtc.mktime Examples.PIN_INVALID
                 Scenarios.until_off)
              true (Examples.ready DEV_QUECTEL_EG91_EX)))
  /\ callerPoint
       (snd (getLocation (Examples.call_on DEV_QUECTEL_EG91_EX)
               (worker_runs MktimeUtc.mktime Examples.PIN_INVALID
                  Scenarios.until_off)
               true (Examples.ready DEV_QUECTEL_EG91_EX)))
     = lastLocation
         (snd (getLocation (Examples.call_on DEV_QUECTEL_EG91_EX)
                 (worker_runs MktimeUtc.mktime Examples.PIN_INVALID
                    Scenarios.until_off)
                 true (Examples.ready DEV_QUECTEL_EG91_EX))).
Proof.
  assert (K : existsb (stops_loop (obs_start Scenarios.until_off)
                         (maxTime_of (Examples.ready DEV_QUECTEL_EG91_EX)))
                (obs_polls Scenarios.until_off) = true)
    by (vm_compute; reflexivity).
  pose proof (sync_request_round_trip MktimeUtc.mktime Examples.PIN_INVALID
                (Examples.call_on DEV_QUECTEL_EG91_EX) true
                Scenarios.until_off (Examples.ready DEV_QUECTEL_EG91_EX)
                eq_refl eq_refl eq_refl eq_refl eq_refl K) as H.
  destruct (getLocation (Examples.call_on DEV_QUECTEL_EG91_EX) _ true
              (Examples.ready DEV_QUECTEL_EG91_EX)) as [r s'].
  destruct H as (H1 & _ & H2 & _). split; [exact H1|exact H2].
Defined.

(** X17: when the wait of [getLocation] ends before the worker has
    taken the request, the call returns Idle, leaves the request on the
    queue and the last results as they were. The later pass of the worker
    puts its result on the response queue, and the next [getLocation] call
    returns that result of the earlier acquisition, having queued a new
    request of its own. *)
Theorem late_completion_is_returned_to_the_next_call :
  forall (mktime : Tm.t -> Z * Tm.t) (PIN_INVALID : Z) (o : CallObs)
         (obs : AcquireObs) (s : Gnss),
    call_isModemOn o = true ->
    modemNotDetected s = false ->
    _acquiring s = false ->
    _commandQueue s = None ->
    _responseQueue s = None ->
    existsb (stops_loop (obs_start obs) (maxTime_of s)) (obs_polls obs)
    = true ->
    let (r1, s1) := getLocation o (fun t => t) false s in
    r1 = Idle
    /\ _commandQueue s1 = Some sync_command
    /\ lastResults s1 = lastResults s
    /\ exists s2,
         threadLoop_iteration mktime PIN_INVALID obs s1 = Some (true, s2)
         /\ _responseQueue s2 = Some (lastResults s2)
         /\ (let (r3, s3) := getLocation o (fun t => t) false s2 in
             r3 = lastResults s2
             /\ _commandQueue s3 = Some sync_command
             /\ _responseQueue s3 = None).
Proof.
  intros mktime PIN o obs s Hon Hdet Hacq Hq Hrq Hstop.
  unfold getLocation at 1. rewrite Hon. cbn [negb].
  change (modemNotDetected (set_callerPoint s LocationPoint_zero))
    with (modemNotDetected s). rewrite Hdet. cbn [negb].
  change (_acquiring (set_callerPoint s LocationPoint_zero))
    with (_acquiring s). rewrite Hacq.
  change (_commandQueue (set_callerPoint s LocationPoint_zero))
    with (_commandQueue s). rewrite Hq. cbn [queue_put].
  unfold waitOnResponseEvent at 1.
  set (s1 := add_log _ _).
  change (_responseQueue s1) with (_responseQueue s). rewrite Hrq.
  cbn [andb].
  split; [reflexivity|]. split; [reflexivity|]. split; [reflexivity|].
  unfold threadLoop_iteration, waitOnCommandEvent.
  change (_commandQueue s1) with (Some sync_command).
  cbn [command sync_command].
  set (t := set_commandQueue s1 None).
  destruct (acquire_terminates mktime PIN sync_command obs t) as [s2 E];
    [exact Hstop|].
  change (mkLocationCommandContext Cmd_Acquire true None false true)
    with sync_command.
  rewrite E. exists s2. split; [reflexivity|].
  destruct (acquire_effects mktime PIN _ _ _ _ E)
    as (Q & R & A & C & I & P & es & L & Hes).
  assert (M : _modemType s2 = _modemType s).
  { unfold acquire in E.
    destruct (acquire_start_props PIN t) as (M0 & _).
    destruct (poll_loop mktime _ _ _ 0 _) as [ex|] eqn:El; [|discriminate].
    injection E as <-.
    pose proof (poll_loop_same_hardware mktime _ _ _ _ _ _ El) as (M1 & _).
    assert (_modemType (acquire_finish PIN sync_command ex)
            = _modemType (exit_state ex)) as ->.
    { unfold acquire_finish, clearAntennaPower.
      destruct (negb (concurrentGnssAndCellularSupported _));
        [destruct (negb (PIN =? _))|];
        cbn -[Z.eqb Qred];
        destruct (negb (timeToFirstFixMs _ =? 0)); reflexivity. }
    now rewrite M1, M0. }
  cbn [sendResponse sync_command] in R.
  change (_responseQueue t) with (_responseQueue s) in R.
  rewrite Hrq in R. cbn [queue_put] in R.
  change (_commandQueue t) with (@None LocationCommandContext) in Q.
  split; [exact R|].
  unfold getLocation. rewrite Hon. cbn [negb].
  change (modemNotDetected (set_callerPoint s2 LocationPoint_zero))
    with (modemNotDetected s2).
  assert (modemNotDetected s2 = false) as ->
    by (unfold modemNotDetected in *; now rewrite M).
  cbn [negb].
  change (_acquiring (set_callerPoint s2 LocationPoint_zero))
    with (_acquiring s2). rewrite A.
  change (_commandQueue (set_callerPoint s2 LocationPoint_zero))
    with (_commandQueue s2). rewrite Q. cbn [queue_put].
  unfold waitOnResponseEvent.
  set (s3 := add_log _ _).
  change (_responseQueue s3) with (_responseQueue s2). rewrite R.
  cbn [andb]. repeat split.
Qed.

Lemma late_completion_is_returned_to_the_next_call_witness :
  fst (getLocation (Examples.call_on DEV_QUECTEL_EG91_EX) (fun t => t) false
         (Examples.ready DEV_QUECTEL_EG91_EX)) = Idle
  /\ exists s2,
       threadLoop_iteration MktimeUtc.mktime Examples.PIN_INVALID
         Scenarios.until_off
         (snd (getLocation (Examples.call_on DEV_QUECTEL_EG91_EX)
                 (fun t => t) false (Examples.ready DEV_QUECTEL_EG91_EX)))
       = Some (true, s2)
       /\ fst (getLocation (Examples.call_on DEV_QUECTEL_EG91_EX)
                 (fun t => t) false s2) = lastResults s2.
Proof.
  assert (K : existsb (stops_loop (obs_start Scenarios.until_off)
                         (maxTime_of (Examples.ready DEV_QUECTEL_EG91_EX)))
                (obs_polls Scenarios.until_off) = true)
    by (vm_compute; reflexivity).
  pose proof (late_completion_is_returned_to_the_next_call MktimeUtc.mktime
                Examples.PIN_INVALID (Examples.call_on DEV_QUECTEL_EG91_EX)
                Scenarios.until_off (Examples.ready DEV_QUECTEL_EG91_EX)
                eq_refl eq_refl eq_refl eq_refl eq_refl K) as H.
  destruct (getLocation (Examples.call_on DEV_QUECTEL_EG91_EX) (fun t => t)
              false (Examples.ready DEV_QUECTEL_EG91_EX)) as [r1 s1].
  destruct H as (H1 & _ & _ & s2 & H2 & _ & H3).
  split; [exact H1|]. exists s2. split; [exact H2|].
  destruct (getLocation (Examples.call_on DEV_QUECTEL_EG91_EX) (fun t => t)
              false s2) as [r3 s3].
  exact (proj1 H3).
Defined.


(** ** The two serializations and the request ids *)

(** X18: [toVariant] sets the keys that [toJsonWriter] writes as the
    members of the location object, in the same order and with the same
    values, the precision of the JSON numbers left aside. *)
Theorem toVariant_matches_toJsonWriter :
  forall p : LocationPoint,
    option_map (map (fun kv => (fst kv, variant_of_json (snd kv))))
      (object_members (toJsonWriter p true))
    = Some (toVariant p).
Proof.
  intros p. unfold toJsonWriter, toVariant.
  destruct (fix_ p =? 0); [reflexivity|].
  destruct (Qlt_bool 0 (horizontalAccuracy p)),
           (Qlt_bool 0 (verticalAccuracy p)); reflexivity.
Qed.

Lemma payload_req_id_buildPublish (p : LocationPoint) (seq : Z) :
  payload_req_id (buildPublish p seq) = Some seq.
Proof.
  unfold payload_req_id, buildPublish.
  rewrite !app_assoc.
  change ([Name "req_id"; ValUInt seq; EndObject])
    with ([Name "req_id"] ++ [ValUInt seq] ++ [EndObject]).
  rewrite !app_assoc. rewrite !rev_app_distr. reflexivity.
Qed.

(** X19: [publishLocationEvent] returns false and changes nothing
    when the cloud is not connected. When it is connected the call
    publishes and uses up a request id whether or not the publish succeeds:
    two calls in a row publish with the ids n and n+1 and return what the
    publishes returned. [getLocationEventVariant] sets the current request
    id under the key req_id and advances it as well. *)
Theorem request_ids_are_used_in_order :
  forall (o1 o2 : CallObs) (p1 p2 : option LocationPoint) (s : Gnss),
    (call_isConnected o1 = false ->
     publishLocationEvent o1 p1 s = (false, s))
    /\ (call_isConnected o1 = true -> call_isConnected o2 = true ->
        let (b1, s1) := publishLocationEvent o1 p1 s in
        let (b2, s2) := publishLocationEvent o2 p2 s1 in
        b1 = call_published o1 /\ b2 = call_published o2
        /\ _reqid s2 = to_uint (to_uint (_reqid s + 1) + 1)
        /\ exists pay1 pay2,
             log s2 = log s ++ [Publish "loc" pay1; Publish "loc" pay2]
             /\ payload_req_id pay1 = Some (_reqid s)
             /\ payload_req_id pay2 = Some (to_uint (_reqid s + 1)))
    /\ (let (sets, s1) := getLocationEventVariant p1 s in
        _reqid s1 = to_uint (_reqid s + 1)
        /\ In ("req_id"%string, VarUInt (_reqid s)) sets
        /\ log s1 = log s).
Proof.
  intros o1 o2 p1 p2 s. unfold publishLocationEvent. split; [|split].
  - intros ->. reflexivity.
  - intros -> ->. cbn -[buildPublish to_uint app].
    split; [reflexivity|]. split; [reflexivity|]. split; [reflexivity|].
    eexists. eexists. split; [now rewrite <- app_assoc|].
    split; apply payload_req_id_buildPublish.
  - unfold getLocationEventVariant. cbn -[to_uint app].
    split; [reflexivity|]. split; [|reflexivity].
    apply in_or_app. right. apply in_or_app. right. cbn. auto.
Qed.

Lemma request_ids_are_used_in_order_witness :
  publishLocationEvent Examples.call_off None Examples.after_fix
  = (false, Examples.after_fix)
  /\ _reqid (snd (publishLocationEvent
                    (Examples.call_on DEV_QUECTEL_EG91_EX) None
                    (snd (publishLocationEvent
                            (Examples.call_on DEV_QUECTEL_EG91_EX) None
                            Examples.after_fix))))
     = to_uint (to_uint (_reqid Examples.after_fix + 1) + 1).
Proof.
  split.
  - apply (proj1 (request_ids_are_used_in_order Examples.call_off
                    Examples.call_off None None Examples.after_fix)).
    reflexivity.
  - pose proof (proj1 (proj2 (request_ids_are_used_in_order
                                (Examples.call_on DEV_QUECTEL_EG91_EX)
                                (Examples.call_on DEV_QUECTEL_EG91_EX)
                                None None Examples.after_fix))
                  eq_refl eq_refl) as H.
    destruct (publishLocationEvent (Examples.call_on DEV_QUECTEL_EG91_EX)
                None Examples.after_fix) as [b1 s1].
    cbn [snd].
    destruct (publishLocationEvent (Examples.call_on DEV_QUECTEL_EG91_EX)
                None s1) as [b2 s2].
    exact (proj1 (proj2 (proj2 H))).
Defined.

(** ** [addToEventHandler] *)

Lemma callback_point_app (id : nat) (n : nat) (l more : list Event) :
  (n <= List.length l)%nat ->
  callback_point id n l = None ->
  forallb (fun e => negb (is_callback id e)) more = true ->
  callback_point id n (l ++ more) = None.
Proof.
  intros Hn H Hm. unfold callback_point in *.
  rewrite skipn_app. replace (n - List.length l)%nat with 0%nat by lia.
  cbn [skipn]. rewrite fold_left_app, H.
  clear H Hn. induction more as [|e more IH]; [reflexivity|].
  cbn [forallb] in Hm. apply andb_true_iff in Hm as [He Hm].
  cbn [fold_left]. destruct e; auto.
  cbn [is_callback] in He. apply negb_true_iff in He. rewrite He. auto.
Qed.

Lemma hardware_event_no_callback (id : nat) (es : list Event) :
  forallb hardware_event es = true ->
  forallb (fun e => negb (is_callback id e)) es = true.
Proof.
  intros H. apply forallb_forall. intros e He.
  rewrite forallb_forall in H. specialize (H e He).
  destruct e; try discriminate; reflexivity.
Qed.

Section Waiting.

Variable mktime : Tm.t -> Z * Tm.t.
Variable PIN_INVALID : Z.

(** A pass of the worker calls no callback that is not queued. *)
Lemma pass_keeps_waiting (id n : nat) (obs : AcquireObs) (s s' : Gnss)
    (b : bool) :
  (n <= List.length (log s))%nat ->
  not_queued id s = true ->
  callback_point id n (log s) = None ->
  threadLoop_iteration mktime PIN_INVALID obs s = Some (b, s') ->
  (n <= List.length (log s'))%nat
  /\ not_queued id s' = true
  /\ callback_point id n (log s') = None.
Proof.
  intros Hn Hq Hc. unfold threadLoop_iteration, waitOnCommandEvent.
  unfold not_queued in Hq.
  destruct (_commandQueue s) as [ev|] eqn:Eq.
  2:{ cbn. intros H. injection H as _ <-. unfold not_queued.
      rewrite Eq. auto. }
  destruct (command ev).
  - intros H. injection H as _ <-. unfold not_queued. cbn. auto.
  - destruct (acquire _ _ _ _ _) as [t|] eqn:E; [|discriminate].
    intros H. injection H as _ <-.
    destruct (acquire_effects mktime PIN_INVALID _ _ _ _ E)
      as (Q & _ & _ & _ & _ & _ & es & L & Hes).
    cbn [_commandQueue set_commandQueue log] in Q, L.
    split; [rewrite L, length_app; lia|].
    split; [unfold not_queued; now rewrite Q|].
    rewrite L. apply callback_point_app; auto.
    rewrite forallb_app, (hardware_event_no_callback id es Hes).
    unfold completion_events.
    destruct (sendResponse ev); [reflexivity|].
    destruct (doneCallback ev) as [id'|]; [|reflexivity].
    cbn. now rewrite Hq.
  - intros H. injection H as _ <-. unfold not_queued. cbn. auto.
Qed.

Lemma wait_done_never (id n : nat) (locVariant : list (string * Variant))
    (passes : list AcquireObs) :
  forall s : Gnss,
    (n <= List.length (log s))%nat ->
    not_queued id s = true ->
    callback_point id n (log s) = None ->
    wait_done mktime PIN_INVALID id n locVariant passes s = None.
Proof.
  induction passes as [|obs rest IH]; intros s Hn Hq Hc; cbn [wait_done];
    rewrite Hc; [reflexivity|].
  destruct (threadLoop_iteration mktime PIN_INVALID obs s) as [[b s']|] eqn:E;
    [|reflexivity].
  destruct (pass_keeps_waiting id n obs s s' b Hn Hq Hc E) as (Hn' & Hq' & Hc').
  destruct b; [now apply IH|]. now rewrite Hc'.
Qed.

Lemma callback_point_fresh (id : nat) (l : list Event) :
  callback_point id (List.length l) l = None.
Proof. unfold callback_point. now rewrite skipn_all. Qed.

End Waiting.

Lemma detectModemType_queue (isOn : bool) (dev : CellularDev) (s : Gnss) :
  log (snd (detectModemType isOn dev s)) = log s
  /\ _commandQueue (snd (detectModemType isOn dev s)) = _commandQueue s
  /\ _acquiring (snd (detectModemType isOn dev s)) = _acquiring s.
Proof.
  unfold detectModemType.
  destruct (modemNotDetected s && isOn)%bool;
    [destruct dev|destruct (negb (modemNotDetected s) && _)%bool];
    cbn; auto.
Qed.

(** X20: [addToEventHandler] ignores what [getLocationAsync] returns
    and waits for its callback. When the request is turned away (the call
    does not return Acquiring) or the command queue already holds a request,
    and no queued request carries its callback, the callback is never
    called: the function is still waiting after any number of passes of the
    worker. *)
Theorem addToEventHandler_waits_for_its_own_request :
  forall (mktime : Tm.t -> Z * Tm.t) (PIN_INVALID : Z) (o : CallObs)
         (id : nat) (locVariant : list (string * Variant))
         (passes : list AcquireObs) (s : Gnss),
    not_queued id s = true ->
    (fst (getLocationAsync o (Some id) s) <> Acquiring
     \/ _commandQueue s <> None) ->
    addToEventHandler mktime PIN_INVALID o id locVariant passes s = None.
Proof.
  intros mktime PIN o id lv passes s Hq Hrej. unfold addToEventHandler.
  assert (H1 : log (snd (getLocationAsync o (Some id) s)) = log s
               /\ _commandQueue (snd (getLocationAsync o (Some id) s))
                  = _commandQueue s).
  { revert Hrej. unfold getLocationAsync.
    destruct (negb (call_isModemOn o)); [cbn; auto|].
    pose proof (detectModemType_queue (call_isModemOn_detect o) (call_dev o) s)
      as D.
    destruct (modemNotDetected s).
    - destruct (detectModemType (call_isModemOn_detect o) (call_dev o) s)
        as [d t]. cbn [snd] in D. destruct D as (DL & DQ & DA).
      destruct d; cbn [negb]; [|cbn; auto].
      destruct (_acquiring t); [cbn; auto|].
      cbn [fst snd log set_commandQueue _commandQueue]. rewrite DQ.
      intros [H|H]; [congruence|].
      destruct (_commandQueue s); [cbn; auto|congruence].
    - cbn [negb]. destruct (_acquiring s); [cbn; auto|].
      cbn [fst snd log set_commandQueue _commandQueue].
      intros [H|H]; [congruence|].
      destruct (_commandQueue s); [cbn; auto|congruence]. }
  destruct (getLocationAsync o (Some id) s) as [r s1].
  cbn [fst snd] in H1. destruct H1 as [L Q].
  apply wait_done_never.
  - rewrite L. lia.
  - unfold not_queued in *. now rewrite Q.
  - rewrite L. apply callback_point_fresh.
Qed.

Lemma addToEventHandler_waits_for_its_own_request_witness :
  addToEventHandler MktimeUtc.mktime Examples.PIN_INVALID Examples.call_off
    1%nat [] [Scenarios.until_off; Scenarios.timing_out]
    (Examples.ready DEV_QUECTEL_EG91_EX) = None
  /\ addToEventHandler MktimeUtc.mktime Examples.PIN_INVALID
       (Examples.call_on DEV_QUECTEL_EG91_EX)
       1%nat [] [Scenarios.until_off; Scenarios.timing_out]
       (snd (getLocationAsync (Examples.call_on DEV_QUECTEL_EG91_EX)
               (Some 2%nat) (Examples.ready DEV_QUECTEL_EG91_EX))) = None.
Proof.
  split.
  - apply addToEventHandler_waits_for_its_own_request.
    + reflexivity.
    + left. vm_compute. discriminate.
  - apply addToEventHandler_waits_for_its_own_request.
    + reflexivity.
    + right. vm_compute. discriminate.
Defined.



